(** * The mock financial API service and the auth context of the dashboard

    A shallow embedding of [services/apiService.ts] (accounts, transaction
    log, rate limiter, transfers, pagination, invoices), of
    [contexts/AuthContext.tsx] (login, registration, logout, subscription,
    session store, start-up) and of the page controls of
    [pages/Transactions.tsx], with the properties of the ledger, the
    limiter, the pages, the invoices and the session.

    Conventions.  What a function reads from outside is an argument: each
    value of [Date.now()] or [new Date()] is an integer of milliseconds and
    each value of [Math.random()] a number.  The module-level arrays and
    the fields of the service are the components of a store that every
    operation takes and gives back.  A call runs to its end before the
    next one starts; the pauses that only simulate latency are left out,
    and so are the toasts and the navigation.  The one pause that lies
    between a check and an update, in [transferFunds], is taken up in the
    module [TransferSteps].  A thrown [Error] is an outcome of the
    call. *)

From Stdlib Require Import ZArith Lia Bool List String Ascii.
From Stdlib Require Import Floats.SpecFloat.
From stdpp Require Import base option list gmap strings pretty.

Local Open Scope Z_scope.

(** ** JavaScript numbers

    A JavaScript [number] is an IEEE 754 binary64 value.  Every finite
    binary64 value is an integer multiple of [2^-1074], so a finite number
    is kept as that integer: [Fin z] is the real [z * 2^-1074].  Arithmetic
    is the exact operation on these integers followed by rounding to 53
    significant bits, ties to even.  The sign of zero is not kept: no
    comparison, sum, difference or product of this program observes it. *)
Module JSNumber.

Inductive number : Type :=
  | NaN
  | Inf (neg : bool)
  | Fin (z : Z).

(** The number of units [2^-1074] in 1. *)
Definition unit_scale : Z := 2 ^ 1074.

(** The nearest integer to [p / q] for [0 <= p] and [0 < q], ties to even. *)
Definition half_even (p q : Z) : Z :=
  let m := p / q in
  match 2 * (p mod q) ?= q with
  | Lt => m
  | Gt => m + 1
  | Eq => if Z.even m then m else m + 1
  end.

(** [p / q] units rounded to a value with 53 significant bits. *)
Definition rnd_pos (p q : Z) : Z :=
  let d := Z.log2 (p / q) - 52 in
  if d <=? 0 then half_even p q else 2 ^ d * half_even p (q * 2 ^ d).

(** The first magnitude that no longer fits: [2^1024], in units. *)
Definition overflow_threshold : Z := 2 ^ 2098.

(** The binary64 value nearest to the rational [p / q] units ([0 < q]). *)
Definition round (p q : Z) : number :=
  let r := rnd_pos (Z.abs p) q in
  if overflow_threshold <=? r then Inf (p <? 0) else Fin (Z.sgn p * r).

Definition neg (x : number) : number :=
  match x with
  | NaN => NaN
  | Inf s => Inf (negb s)
  | Fin z => Fin (- z)
  end.

(** [x + y] *)
Definition add (x y : number) : number :=
  match x, y with
  | NaN, _ | _, NaN => NaN
  | Inf s, Inf t => if Bool.eqb s t then Inf s else NaN
  | Inf s, Fin _ => Inf s
  | Fin _, Inf t => Inf t
  | Fin a, Fin b => round (a + b) 1
  end.

(** [x - y] *)
Definition sub (x y : number) : number := add x (neg y).

(** [x * y] *)
Definition mul (x y : number) : number :=
  match x, y with
  | NaN, _ | _, NaN => NaN
  | Inf s, Inf t => Inf (xorb s t)
  | Inf s, Fin b => if b =? 0 then NaN else Inf (xorb s (b <? 0))
  | Fin a, Inf t => if a =? 0 then NaN else Inf (xorb (a <? 0) t)
  | Fin a, Fin b => round (a * b) unit_scale
  end.

(** [x < y]; false as soon as one side is NaN. *)
Definition ltb (x y : number) : bool :=
  match x, y with
  | NaN, _ | _, NaN => false
  | Inf s, Inf t => s && negb t
  | Inf s, Fin _ => s
  | Fin _, Inf t => negb t
  | Fin a, Fin b => a <? b
  end.

(** [x > y] *)
Definition gtb (x y : number) : bool := ltb y x.

(** [Math.floor(x)] *)
Definition floor (x : number) : number :=
  match x with
  | Fin z => Fin (z / unit_scale * unit_scale)
  | _ => x
  end.

(** An integer literal or counter value as a number. *)
Definition of_Z (n : Z) : number := round (n * unit_scale) 1.

(** The decimal literal [m * 10^-k], as the source text of a number is read. *)
Definition of_decimal (m : Z) (k : nat) : number :=
  round (m * unit_scale) (10 ^ Z.of_nat k).

(** A literal with two decimals: [of_cents 524575] is [5245.75]. *)
Definition of_cents (n : Z) : number := round (n * unit_scale) 100.

Definition zero : number := Fin 0.

(** The text of a number, kept as the value it denotes: what [toFixed(2)]
    and [String(x)] produce and [parseFloat] reads. *)
Inductive numeral : Type :=
  | NumNaN
  | NumInfinity (neg : bool)
  | NumFixed (neg : bool) (n : Z)
    (** sign, then the digits of [n / 100] written with two decimals *)
  | NumShortest (x : number).
    (** the shortest decimal text that reads back as [x] *)

(** [x.toFixed(2)]: the integer [n] with [n / 100] nearest to [|x|], the
    larger one on a tie; numbers of magnitude [1e21] and above, and the
    values that are not finite, are printed as [String(x)]. *)
Definition toFixed2 (x : number) : numeral :=
  match x with
  | NaN => NumNaN
  | Inf s => NumInfinity s
  | Fin z =>
      if 10 ^ 21 * unit_scale <=? Z.abs z then NumShortest x
      else NumFixed (z <? 0) ((200 * Z.abs z + unit_scale) / (2 * unit_scale))
  end.

(** [parseFloat(s)] on such a text. *)
Definition parseFloat (s : numeral) : number :=
  match s with
  | NumNaN => NaN
  | NumInfinity s => Inf s
  | NumFixed s n => of_cents (if s then - n else n)
  | NumShortest x => x
  end.

(** [parseFloat(x.toFixed(2))], the rounding to cents used by the service. *)
Definition round2 (x : number) : number := parseFloat (toFixed2 x).

(** The digits that [toFixed(2)] shows, signed: the amount in cents. *)
Definition cents_of (x : number) : Z :=
  match toFixed2 x with
  | NumFixed s n => if s then - n else n
  | _ => 0
  end.

(** A value that really is a binary64: at most 53 significant bits, below
    the overflow threshold. *)
Definition is_binary64 (x : number) : bool :=
  match x with
  | Fin z =>
      (Z.abs z <? overflow_threshold)
      && (Z.abs z =? rnd_pos (Z.abs z) 1)
  | _ => true
  end.

(** The same value in the Standard Library's specification of IEEE 754,
    used to compare this arithmetic with that specification. *)
Definition to_spec (x : number) : spec_float :=
  match x with
  | NaN => S754_nan
  | Inf s => S754_infinity s
  | Fin 0 => S754_zero false
  | Fin z =>
      let d := Z.max 0 (Z.log2 (Z.abs z) - 52) in
      match Z.abs z / 2 ^ d with
      | Zpos m => S754_finite (z <? 0) m (d - 1074)
      | _ => S754_nan
      end
  end.

(** A value of the library without the sign of its zero. *)
Definition forget_zero_sign (x : spec_float) : spec_float :=
  match x with
  | S754_zero _ => S754_zero false
  | _ => x
  end.

(** Pairs of values on which this arithmetic is compared with the
    library's: decimals that are not binary fractions, a tie, an overflow,
    subnormal values, and the cases with a zero, an infinity or NaN. *)
Definition sample_pairs : list (number * number) :=
  [ (of_decimal 1 1, of_decimal (-3) 1); (of_Z 9007199254740992, of_Z 1);
    (of_Z (10 ^ 308), of_Z (10 ^ 308)); (of_decimal 1 310, Fin (-3));
    (zero, of_Z (-1)); (Inf false, Inf true); (Inf true, Inf true);
    (Inf false, zero); (of_Z 1, Inf true); (NaN, of_Z 1); (zero, NaN) ].

(** Amounts in cents for the same comparison. *)
Definition sample_cents : list Z :=
  [ 0; -1; 33; 524575; 1273540; 524574; 2 ^ 49 - 1 ].

End JSNumber.

Import JSNumber.

(** ** Types of [apiService.ts] *)

(** [Transaction]; [date] is the instant of [new Date()] in milliseconds
    since the epoch, the value that its ISO text denotes. *)
Module Transaction.
Inductive kind : Type := debit | credit.
Inductive state : Type := pending | completed | failed.
Record t : Type := mk {
    id : string;
    date : Z;
    type : kind;
    amount : number;
    description : string;
    status : state;
    category : string
  }.
End Transaction.

Module Account.
Record t : Type := mk {
    id : string;
    name : string;
    balance : number;
    currency : string;
    accountNumber : string;
    routingNumber : string
  }.

(** [acc.balance = b] *)
Definition set_balance (b : number) (acc : t) : t :=
  mk (id acc) (name acc) b (currency acc) (accountNumber acc)
     (routingNumber acc).
End Account.

Module Invoice.
Inductive state : Type := paid | pending | overdue.
Record item : Type := mk_item {
    description : string;
    quantity : number;
    unitPrice : number;
    amount : number
  }.
Record t : Type := mk {
    id : string;
    date : Z;
    dueDate : Z;
    items : list item;
    total : number;
    status : state
  }.
End Invoice.

(** A thrown [Error], with its message. *)
Inductive Error : Type := mkError (message : string).

Definition RateLimited : Error := mkError "Rate limit exceeded".
Definition NotFound : Error := mkError "One or both accounts not found".
Definition InsufficientFunds : Error := mkError "Insufficient funds".

(** How a call ends: with a value, or with a thrown error. *)
Inductive outcome (A : Type) : Type :=
  | Return (a : A)
  | Throw (e : Error).
Arguments Return {A} a.
Arguments Throw {A} e.

(** ** State of the module

    The fields of the [ApiService] singleton and the two module-level
    arrays [mockAccounts] and [mockTransactions]. *)
Record ApiService : Type := mkApi {
  token : option string;
  requestCount : Z;
  lastRequestTime : Z;
  rateLimitReset : Z
}.

Record Store : Type := mkStore {
  api : ApiService;
  mockAccounts : list Account.t;
  mockTransactions : list Transaction.t
}.

(** The two seeded accounts. *)
Definition seededAccounts : list Account.t :=
  [ Account.mk "acc-1" "Checking Account" (of_cents 524575) "USD"
      "9374846271" "072403952";
    Account.mk "acc-2" "Savings Account" (of_cents 1273540) "USD"
      "8362719405" "072403952" ].

(** The state when the module is loaded; [generated] is the array that
    [generateTransactions(50)] returned. *)
Definition initialStore (generated : list Transaction.t) : Store :=
  mkStore (mkApi None 0 0 0) seededAccounts generated.

(** ** The rate limiter *)

(** [checkRateLimit()], with [now] the value of [Date.now()]. *)
Definition checkRateLimit (now : Z) (s : ApiService) : bool * ApiService :=
  let s1 :=
    if now - lastRequestTime s >? 60000
    then mkApi (token s) 0 (lastRequestTime s) (now + 60000)
    else s in
  let s2 := mkApi (token s1) (requestCount s1 + 1) now (rateLimitReset s1) in
  if requestCount s2 >? 10 then (false, s2) else (true, s2).

(** The limiter step on the whole store. *)
Definition enter (now : Z) (st : Store) : bool * Store :=
  let '(ok, s) := checkRateLimit now (api st) in
  (ok, mkStore s (mockAccounts st) (mockTransactions st)).

(** ** Service operations *)

(** [setToken(token)] and [clearToken()] *)
Definition setToken (t : string) (s : ApiService) : ApiService :=
  mkApi (Some t) (requestCount s) (lastRequestTime s) (rateLimitReset s).

Definition clearToken (s : ApiService) : ApiService :=
  mkApi None (requestCount s) (lastRequestTime s) (rateLimitReset s).

(** [getBalance()] *)
Definition getBalance (now : Z) (st : Store)
  : outcome (list Account.t) * Store :=
  let '(ok, st1) := enter now st in
  if negb ok then (Throw RateLimited, st1)
  else (Return (mockAccounts st1), st1).

(** [Array.prototype.slice(start, end)] on integer arguments. *)
Definition slice {A : Type} (start end_ : Z) (l : list A) : list A :=
  let len := Z.of_nat (length l) in
  let k := if start <? 0 then Z.max (len + start) 0 else Z.min start len in
  let final := if end_ <? 0 then Z.max (len + end_) 0 else Z.min end_ len in
  take (Z.to_nat (final - k)) (drop (Z.to_nat k) l).

Record Page : Type := mkPage {
  data : list Transaction.t;
  total : Z
}.

(** [getTransactions(page, pageSize)] *)
Definition getTransactions (now : Z) (page pageSize : Z) (st : Store)
  : outcome Page * Store :=
  let '(ok, st1) := enter now st in
  if negb ok then (Throw RateLimited, st1)
  else
    let start := (page - 1) * pageSize in
    let end_ := start + pageSize in
    let paginatedData := slice start end_ (mockTransactions st1) in
    (Return (mkPage paginatedData (Z.of_nat (length (mockTransactions st1)))),
     st1).

(** [mockAccounts.find(acc => acc.id === accId)]: the place of the first
    account with that id; the object found is shared with the array. *)
Definition findAccount (accId : string) (accs : list Account.t) : option nat :=
  fst <$> list_find (λ acc, Account.id acc = accId) accs.

(** The result object of a transfer; the message is the text
    "Successfully transferred $<amount> from <from> to <to>". *)
Record TransferResult : Type := mkTransferResult {
  success : bool;
  message_amount : number;
  message_from : string;
  message_to : string
}.

(** The name of the account at a place of the array. *)
Definition nameAt (i : nat) (accs : list Account.t) : string :=
  from_option Account.name "" (accs !! i).

Definition balanceAt (i : nat) (accs : list Account.t) : number :=
  from_option Account.balance NaN (accs !! i).

(** [transferFunds(fromAccountId, toAccountId, amount)].  [now] is the
    clock read by the limiter, [txDate] the one of [new Date()] and [txNow]
    the one of the later [Date.now()].  The call is run to its end in one
    step. *)
Definition transferFunds (now txDate txNow : Z)
    (fromAccountId toAccountId : string) (amount : number) (st : Store)
  : outcome TransferResult * Store :=
  let '(ok, st1) := enter now st in
  if negb ok then (Throw RateLimited, st1)
  else
    match findAccount fromAccountId (mockAccounts st1),
          findAccount toAccountId (mockAccounts st1) with
    | Some i, Some j =>
        if ltb (balanceAt i (mockAccounts st1)) amount
        then (Throw InsufficientFunds, st1)
        else
          let accs1 :=
            alter (λ acc, Account.set_balance
                            (round2 (sub (Account.balance acc) amount)) acc)
                  i (mockAccounts st1) in
          let accs2 :=
            alter (λ acc, Account.set_balance
                            (round2 (add (Account.balance acc) amount)) acc)
                  j accs1 in
          let txId := ("tx-" +:+ pretty txNow)%string in
          let debitLeg :=
            Transaction.mk (txId +:+ "-debit") txDate Transaction.debit amount
              ("Transfer to " +:+ nameAt j accs2) Transaction.completed
              "Transfer" in
          let creditLeg :=
            Transaction.mk (txId +:+ "-credit") txDate Transaction.credit
              amount ("Transfer from " +:+ nameAt i accs2)
              Transaction.completed "Transfer" in
          (Return (mkTransferResult true amount (nameAt i accs2)
                     (nameAt j accs2)),
           mkStore (api st1) accs2
             (creditLeg :: debitLeg :: mockTransactions st1))
    | _, _ => (Throw NotFound, st1)
    end.

(** The module-level [generateInvoice(startDate, endDate)].  [r1], [r2],
    [r3] are the three values of [Math.random()], [currentDate] the instant
    of [new Date()] and [nowId] the value of [Date.now()].  The due date is
    fifteen days later, in a zone whose clock does not change meanwhile. *)
Definition generateInvoice (r1 r2 r3 : number) (currentDate nowId : Z)
    (startDate endDate : string) : Invoice.t :=
  let items :=
    [ Invoice.mk_item "API Calls - Basic Tier"
        (add (floor (mul r1 (of_Z 500))) (of_Z 100)) (of_decimal 1 2) zero;
      Invoice.mk_item "Premium Features Access"
        (of_Z 1) (of_decimal 2999 2) (of_decimal 2999 2);
      Invoice.mk_item "Data Storage (GB)"
        (add (floor (mul r2 (of_Z 20))) (of_Z 5)) (of_decimal 5 1) zero;
      Invoice.mk_item "Support Requests"
        (floor (mul r3 (of_Z 5))) (of_Z 15) zero ] in
  let items :=
    map (λ item,
           Invoice.mk_item (Invoice.description item) (Invoice.quantity item)
             (Invoice.unitPrice item)
             (round2 (mul (Invoice.quantity item) (Invoice.unitPrice item))))
        items in
  let total :=
    fold_left (λ sum item, add sum (Invoice.amount item)) items zero in
  Invoice.mk ("inv-" +:+ pretty nowId) currentDate
    (currentDate + 15 * 86400000) items total Invoice.pending.

(** The method [ApiService.generateInvoice(startDate, endDate)]. *)
Definition apiGenerateInvoice (now : Z) (r1 r2 r3 : number)
    (currentDate nowId : Z) (startDate endDate : string) (st : Store)
  : outcome Invoice.t * Store :=
  let '(ok, st1) := enter now st in
  if negb ok then (Throw RateLimited, st1)
  else
    (Return (generateInvoice r1 r2 r3 currentDate nowId startDate endDate),
     st1).

(** ** The auth context, [contexts/AuthContext.tsx] *)

Module Auth.

Inductive Role : Type := user | admin.

(** [User].  The tier is kept as the text that is stored: the cast in
    [updateSubscription] lets any string through. *)
Record User : Type := mkUser {
  id : string;
  email : string;
  name : string;
  role : Role;
  isSubscribed : bool;
  subscriptionTier : option string;
  subscriptionExpiresAt : option string
}.

(** An entry of [MOCK_USERS]: a user and its password. *)
Record MockUser : Type := mkMockUser {
  password : string;
  account : User
}.

Definition MOCK_USERS : list MockUser :=
  [ mkMockUser "password"
      (mkUser "user-1" "demo@example.com" "Demo User" user false None None);
    mkMockUser "password"
      (mkUser "admin-1" "admin@example.com" "Admin User" admin true
         (Some "enterprise") (Some "2025-12-31T23:59:59Z")) ].

(** *** JSON texts

    The values that this program serialises: objects of strings and
    booleans.  Texts with numbers or arrays are not read. *)
#[warnings="-register-all"] Inductive json : Type :=
  | JNull
  | JBool (b : bool)
  | JString (s : string)
  | JObject (fields : list (string * json)).

Definition quote : ascii := ascii_of_nat 34.
Definition backslash : ascii := ascii_of_nat 92.

Definition hex_digit (n : nat) : ascii :=
  if (n <? 10)%nat then ascii_of_nat (48 + n) else ascii_of_nat (87 + n).

(** The escape of one character inside a JSON string. *)
Definition escape_char (c : ascii) : list ascii :=
  let n := nat_of_ascii c in
  if (n =? 34)%nat then [backslash; quote]
  else if (n =? 92)%nat then [backslash; backslash]
  else if (n =? 8)%nat then [backslash; "b"%char]
  else if (n =? 12)%nat then [backslash; "f"%char]
  else if (n =? 10)%nat then [backslash; "n"%char]
  else if (n =? 13)%nat then [backslash; "r"%char]
  else if (n =? 9)%nat then [backslash; "t"%char]
  else if (n <? 32)%nat then
    [backslash; "u"%char; "0"%char; "0"%char;
     hex_digit (n / 16); hex_digit (n mod 16)]
  else [c].

Definition quoteJSON (s : string) : list ascii :=
  quote :: flat_map escape_char (list_ascii_of_string s) ++ [quote].

Fixpoint join_with (sep : list ascii) (parts : list (list ascii))
  : list ascii :=
  match parts with
  | [] => []
  | [p] => p
  | p :: rest => p ++ sep ++ join_with sep rest
  end.

Fixpoint stringify_chars (j : json) : list ascii :=
  match j with
  | JNull => list_ascii_of_string "null"
  | JBool true => list_ascii_of_string "true"
  | JBool false => list_ascii_of_string "false"
  | JString s => quoteJSON s
  | JObject fields =>
      "{"%char
      :: join_with [","%char]
           (map (λ kv, match kv with
                        | (k, v) => quoteJSON k ++ ":"%char :: stringify_chars v
                        end) fields)
      ++ ["}"%char]
  end.

(** [JSON.stringify(j)] *)
Definition stringify (j : json) : string :=
  string_of_list_ascii (stringify_chars j).

Definition is_space (c : ascii) : bool :=
  let n := nat_of_ascii c in
  (n =? 32)%nat || (n =? 9)%nat || (n =? 10)%nat || (n =? 13)%nat.

Fixpoint skip_space (s : list ascii) : list ascii :=
  match s with
  | c :: rest => if is_space c then skip_space rest else s
  | [] => []
  end.

Definition hex_value (c : ascii) : option nat :=
  let n := nat_of_ascii c in
  if ((48 <=? n) && (n <=? 57))%nat then Some (n - 48)%nat
  else if ((97 <=? n) && (n <=? 102))%nat then Some (n - 87)%nat
  else if ((65 <=? n) && (n <=? 70))%nat then Some (n - 55)%nat
  else None.

(** The characters of a string literal after its opening quote, up to the
    closing one; escapes above [ÿ] are not read. *)
Fixpoint parse_chars (s : list ascii) : option (list ascii * list ascii) :=
  match s with
  | [] => None
  | c :: rest =>
      if (nat_of_ascii c =? 34)%nat then Some ([], rest)
      else if (nat_of_ascii c <? 32)%nat then None
      else if (nat_of_ascii c =? 92)%nat then
        match rest with
        | e :: rest' =>
            let plain (x : ascii) :=
              match parse_chars rest' with
              | Some (cs, r) => Some (x :: cs, r)
              | None => None
              end in
            if (nat_of_ascii e =? 34)%nat then plain quote
            else if (nat_of_ascii e =? 92)%nat then plain backslash
            else if (nat_of_ascii e =? 47)%nat then plain "/"%char
            else if (nat_of_ascii e =? 98)%nat then plain (ascii_of_nat 8)
            else if (nat_of_ascii e =? 102)%nat then plain (ascii_of_nat 12)
            else if (nat_of_ascii e =? 110)%nat then plain (ascii_of_nat 10)
            else if (nat_of_ascii e =? 114)%nat then plain (ascii_of_nat 13)
            else if (nat_of_ascii e =? 116)%nat then plain (ascii_of_nat 9)
            else if (nat_of_ascii e =? 117)%nat then
              match rest' with
              | h1 :: h2 :: h3 :: h4 :: rest'' =>
                  match hex_value h1, hex_value h2, hex_value h3,
                        hex_value h4, parse_chars rest'' with
                  | Some 0%nat, Some 0%nat, Some a, Some b, Some (cs, r) =>
                      Some (ascii_of_nat (16 * a + b) :: cs, r)
                  | _, _, _, _, _ => None
                  end
              | _ => None
              end
            else None
        | [] => None
        end
      else
        match parse_chars rest with
        | Some (cs, r) => Some (c :: cs, r)
        | None => None
        end
  end.

Definition expect (word : string) (s : list ascii) : option (list ascii) :=
  let w := list_ascii_of_string word in
  if decide (take (length w) s = w) then Some (drop (length w) s) else None.

(** A value, and after it the members of an object, by recursive descent;
    [fuel] bounds the number of values and members read. *)
Fixpoint parse_value (fuel : nat) (s : list ascii)
  : option (json * list ascii) :=
  match fuel with
  | O => None
  | S fuel' =>
      match skip_space s with
      | c :: rest =>
          if (nat_of_ascii c =? 34)%nat then
            match parse_chars rest with
            | Some (cs, r) => Some (JString (string_of_list_ascii cs), r)
            | None => None
            end
          else if (nat_of_ascii c =? 123)%nat then
            match skip_space rest with
            | c' :: rest' =>
                if (nat_of_ascii c' =? 125)%nat then Some (JObject [], rest')
                else
                  match parse_members fuel' (skip_space rest) with
                  | Some (fields, r) => Some (JObject fields, r)
                  | None => None
                  end
            | [] => None
            end
          else if (nat_of_ascii c =? 116)%nat then
            match expect "true" (c :: rest) with
            | Some r => Some (JBool true, r)
            | None => None
            end
          else if (nat_of_ascii c =? 102)%nat then
            match expect "false" (c :: rest) with
            | Some r => Some (JBool false, r)
            | None => None
            end
          else if (nat_of_ascii c =? 110)%nat then
            match expect "null" (c :: rest) with
            | Some r => Some (JNull, r)
            | None => None
            end
          else None
      | [] => None
      end
  end
with parse_members (fuel : nat) (s : list ascii)
  : option (list (string * json) * list ascii) :=
  match fuel with
  | O => None
  | S fuel' =>
      match s with
      | c :: rest =>
          if (nat_of_ascii c =? 34)%nat then
            match parse_chars rest with
            | Some (k, r) =>
                match skip_space r with
                | colon :: r1 =>
                    if (nat_of_ascii colon =? 58)%nat then
                      match parse_value fuel' r1 with
                      | Some (v, r2) =>
                          match skip_space r2 with
                          | d :: r3 =>
                              if (nat_of_ascii d =? 125)%nat then
                                Some ([(string_of_list_ascii k, v)], r3)
                              else if (nat_of_ascii d =? 44)%nat then
                                match parse_members fuel' (skip_space r3) with
                                | Some (fields, r4) =>
                                    Some ((string_of_list_ascii k, v)
                                          :: fields, r4)
                                | None => None
                                end
                              else None
                          | [] => None
                          end
                      | None => None
                      end
                    else None
                | [] => None
                end
            | None => None
            end
          else None
      | [] => None
      end
  end.

(** [JSON.parse(text)]; [None] when it throws. *)
Definition parse (text : string) : option json :=
  let s := list_ascii_of_string text in
  match parse_value (S (length s)) s with
  | Some (j, r) =>
      match skip_space r with
      | [] => Some j
      | _ :: _ => None
      end
  | None => None
  end.

(** *** [btoa] *)

Definition base64_alphabet : string :=
  "ABCDEFGHIJKLMNOPQRSTUVWXYZabcdefghijklmnopqrstuvwxyz0123456789+/".

Definition base64_char (n : N) : ascii :=
  match String.get (N.to_nat n) base64_alphabet with
  | Some c => c
  | None => "="%char
  end.

Fixpoint btoa_bytes (l : list N) : list ascii :=
  match l with
  | [] => []
  | [a] =>
      [ base64_char (N.shiftr a 2);
        base64_char (N.shiftl (N.land a 3) 4);
        "="%char; "="%char ]
  | [a; b] =>
      [ base64_char (N.shiftr a 2);
        base64_char (N.lor (N.shiftl (N.land a 3) 4) (N.shiftr b 4));
        base64_char (N.shiftl (N.land b 15) 2);
        "="%char ]
  | a :: b :: c :: rest =>
      base64_char (N.shiftr a 2)
      :: base64_char (N.lor (N.shiftl (N.land a 3) 4) (N.shiftr b 4))
      :: base64_char (N.lor (N.shiftl (N.land b 15) 2) (N.shiftr c 6))
      :: base64_char (N.land c 63)
      :: btoa_bytes rest
  end.

(** [btoa(s)] *)
Definition btoa (s : string) : string :=
  string_of_list_ascii (btoa_bytes (map N_of_ascii (list_ascii_of_string s))).

(** *** Users as JSON objects *)

Definition role_text (r : Role) : string :=
  match r with user => "user" | admin => "admin" end.

Definition optional_field (key : string) (v : option string)
  : list (string * json) :=
  match v with
  | Some s => [(key, JString s)]
  | None => []
  end.

(** The object that [JSON.stringify] sees for a user: the optional
    properties appear only when they are set. *)
Definition json_of_user (u : User) : json :=
  JObject
    ([ ("id", JString (id u)); ("email", JString (email u));
       ("name", JString (name u)); ("role", JString (role_text (role u)));
       ("isSubscribed", JBool (isSubscribed u)) ]
     ++ optional_field "subscriptionTier" (subscriptionTier u)
     ++ optional_field "subscriptionExpiresAt" (subscriptionExpiresAt u)).

(** The property [key] of an object; the last one wins. *)
Definition property (key : string) (fields : list (string * json))
  : option json :=
  snd <$> List.find (λ kv, String.eqb (fst kv) key) (rev fields).

Definition string_property (key : string) (fields : list (string * json))
  : option string :=
  match property key fields with
  | Some (JString s) => Some s
  | _ => None
  end.

(** A parsed value read as a [User]; [None] when it has not that shape. *)
Definition user_of_json (j : json) : option User :=
  match j with
  | JObject fields =>
      match string_property "id" fields, string_property "email" fields,
            string_property "name" fields, string_property "role" fields,
            property "isSubscribed" fields with
      | Some i, Some e, Some n, Some r, Some (JBool b) =>
          match (if String.eqb r "user" then Some user
                 else if String.eqb r "admin" then Some admin else None) with
          | Some r' =>
              Some (mkUser i e n r' b
                      (string_property "subscriptionTier" fields)
                      (string_property "subscriptionExpiresAt" fields))
          | None => None
          end
      | _, _, _, _, _ => None
      end
  | _ => None
  end.

(** *** The provider's state and the session store *)

(** [localStorage] *)
Abbreviation Storage := (gmap string string).

Record AuthState : Type := mkAuthState {
  currentUser : option User;
  loading : bool
}.

(** The state of a provider that has just been mounted. *)
Definition initialAuthState : AuthState := mkAuthState None true.

(** A string in a condition: [null] and the empty string are false. *)
Definition truthy (v : option string) : bool :=
  match v with
  | Some s => negb (String.eqb s "")
  | None => false
  end.

(** [checkAuth()], run once when the provider is mounted.  When
    [JSON.parse] throws, the effect stops there; a stored value that is not
    an object of the shape of [User] is never written by this program and
    is treated in the same way. *)
Definition checkAuth (ls : Storage) (st : AuthState) : AuthState :=
  let token := ls !! "fintech_token" in
  if truthy token then
    let storedUser := ls !! "fintech_user" in
    if truthy storedUser then
      match parse (default "" storedUser) with
      | Some j =>
          match user_of_json j with
          | Some u => mkAuthState (Some u) false
          | None => st
          end
      | None => st
      end
    else mkAuthState (currentUser st) false
  else mkAuthState (currentUser st) false.

(** What [login] and [register] report through their toast. *)
Inductive Toast : Type := mkToast (title description : string).

(** [login(email, password)] *)
Definition login (email_ password_ : string) (ls : Storage) (st : AuthState)
  : Toast * Storage * AuthState :=
  let foundUser :=
    List.find (λ u, String.eqb (email (account u)) email_
                    && String.eqb (password u) password_) MOCK_USERS in
  match foundUser with
  | None =>
      (mkToast "Login failed" "Invalid credentials", ls,
       mkAuthState (currentUser st) false)
  | Some found =>
      let userWithoutPassword := account found in
      let mockToken :=
        btoa (stringify
                (JObject
                   [ ("id", JString (id userWithoutPassword));
                     ("email", JString (email userWithoutPassword));
                     ("role",
                      JString (role_text (role userWithoutPassword))) ])) in
      let ls1 := <["fintech_token" := mockToken]> ls in
      let ls2 :=
        <["fintech_user" := stringify (json_of_user userWithoutPassword)]>
          ls1 in
      (mkToast "Login successful"
         ("Welcome back, " +:+ name userWithoutPassword +:+ "!"),
       ls2, mkAuthState (Some userWithoutPassword) false)
  end.

(** [register(email, name, password)] *)
Definition register (email_ name_ password_ : string) (st : AuthState)
  : Toast * AuthState :=
  if existsb (λ u, String.eqb (email (account u)) email_) MOCK_USERS
  then (mkToast "Registration failed" "Email already registered",
        mkAuthState (currentUser st) false)
  else (mkToast "Registration successful"
          "You can now log in with your credentials.",
        mkAuthState (currentUser st) false).

(** [logout()] *)
Definition logout (ls : Storage) (st : AuthState) : Storage * AuthState :=
  (delete "fintech_user" (delete "fintech_token" ls),
   mkAuthState None (loading st)).

(** [checkToken()] *)
Definition checkToken (ls : Storage) : bool :=
  truthy (ls !! "fintech_token").

(** [updateSubscription(tier)]; [expiresAt] is the ISO text of the instant
    thirty days after [Date.now()]. *)
Definition updateSubscription (tier expiresAt : string) (ls : Storage)
    (st : AuthState) : Storage * AuthState :=
  match currentUser st with
  | None => (ls, st)
  | Some u =>
      let updatedUser :=
        mkUser (id u) (email u) (name u) (role u) true (Some tier)
          (Some expiresAt) in
      (<["fintech_user" := stringify (json_of_user updatedUser)]> ls,
       mkAuthState (Some updatedUser) (loading st))
  end.

End Auth.

(** ** The generated history *)

(** What one turn of the loop of [generateTransactions] reads from outside:
    the clock of [new Date()] and the six values of [Math.random()], in the
    order in which they are drawn. *)
Record Draws : Type := mkDraws {
  clock : Z;
  r_days : number;
  r_type : number;
  r_amount : number;
  r_category : number;
  r_description : number;
  r_status : number
}.

Definition categories : list string :=
  [ "Groceries"; "Entertainment"; "Transportation"; "Dining"; "Shopping";
    "Utilities"; "Health"; "Travel" ].

Definition descriptions : list string :=
  [ "Payment to merchant"; "Online purchase"; "Subscription payment";
    "Transfer"; "Bill payment"; "Direct deposit"; "ATM withdrawal";
    "Service fee" ].

(** The integer that a whole number denotes. *)
Definition to_Z (x : number) : Z :=
  match x with
  | Fin z => z / unit_scale
  | _ => 0
  end.

(** [arr[Math.floor(r * arr.length)]]; [Math.random()] is below 1, so the
    place exists. *)
Definition pick (arr : list string) (r : number) : string :=
  default ""
    (arr !! Z.to_nat (to_Z (floor (mul r (of_Z (Z.of_nat (length arr))))))).

(** The transaction built by turn [i] of the loop; the day is moved back in
    a zone whose clock does not change meanwhile. *)
Definition generatedTransaction (i : nat) (d : Draws) : Transaction.t :=
  Transaction.mk
    ("tx-" +:+ pretty (Z.of_nat i + 1))
    (clock d - to_Z (floor (mul (r_days d) (of_Z 30))) * 86400000)
    (if gtb (r_type d) (of_decimal 5 1)
     then Transaction.debit else Transaction.credit)
    (round2 (add (mul (r_amount d) (of_Z 500)) (of_Z 10)))
    (pick descriptions (r_description d))
    (if gtb (r_status d) (of_decimal 9 1)
     then Transaction.pending else Transaction.completed)
    (pick categories (r_category d)).

(** One step of a stable sort by date, newest first: [tx], which came
    before everything in [sorted], goes in front of the first element that
    is not newer than it. *)
Fixpoint insertNewestFirst (tx : Transaction.t) (sorted : list Transaction.t)
  : list Transaction.t :=
  match sorted with
  | [] => [tx]
  | y :: rest =>
      if Transaction.date tx <? Transaction.date y
      then y :: insertNewestFirst tx rest
      else tx :: y :: rest
  end.

(** [transactions.sort((a, b) => b.date - a.date)]; the sort is stable. *)
Definition sortNewestFirst (txs : list Transaction.t) : list Transaction.t :=
  foldr insertNewestFirst [] txs.

(** [generateTransactions(count)], with one [Draws] for each turn. *)
Definition generateTransactions (draws : list Draws) : list Transaction.t :=
  sortNewestFirst (imap generatedTransaction draws).

(** The dates of a log never go up. *)
Fixpoint newestFirst (txs : list Transaction.t) : Prop :=
  match txs with
  | [] => True
  | x :: rest =>
      match rest with
      | [] => True
      | y :: _ => Transaction.date y <= Transaction.date x
      end /\ newestFirst rest
  end.

(** ** Sequences of calls and measures of the ledger *)

(** The answers of the limiter to calls made at the instants [ts]. *)
Fixpoint limiterAnswers (ts : list Z) (s : ApiService) : list bool :=
  match ts with
  | [] => []
  | t :: ts' =>
      let '(ok, s') := checkRateLimit t s in
      ok :: limiterAnswers ts' s'
  end.

(** Every instant is less than 60 seconds after the one before it. *)
Fixpoint closelySpaced (prev : Z) (ts : list Z) : Prop :=
  match ts with
  | [] => True
  | t :: ts' => t - prev < 60000 /\ closelySpaced t ts'
  end.

(** One call of [transferFunds] with its clock readings. *)
Record TransferCall : Type := mkTransferCall {
  call_now : Z;
  call_txDate : Z;
  call_txNow : Z;
  call_from : string;
  call_to : string;
  call_amount : number
}.

Definition runTransfer (c : TransferCall) (st : Store)
  : outcome TransferResult * Store :=
  transferFunds (call_now c) (call_txDate c) (call_txNow c) (call_from c)
    (call_to c) (call_amount c) st.

(** The store after a sequence of transfer calls, failed ones included. *)
Definition runTransfers (calls : list TransferCall) (st : Store) : Store :=
  fold_left (λ st c, snd (runTransfer c st)) calls st.

(** One call of the service, with the clock readings and the draws that
    it uses. *)
Inductive ServiceCall : Type :=
  | CallSetToken (t : string)
  | CallClearToken
  | CallGetBalance (now : Z)
  | CallGetTransactions (now page pageSize : Z)
  | CallTransferFunds (c : TransferCall)
  | CallGenerateInvoice (now : Z) (r1 r2 r3 : number) (currentDate nowId : Z)
      (startDate endDate : string).

(** The store after a call, whether it returned or threw. *)
Definition runCall (c : ServiceCall) (st : Store) : Store :=
  match c with
  | CallSetToken t =>
      mkStore (setToken t (api st)) (mockAccounts st) (mockTransactions st)
  | CallClearToken =>
      mkStore (clearToken (api st)) (mockAccounts st) (mockTransactions st)
  | CallGetBalance now => (getBalance now st).2
  | CallGetTransactions now page pageSize =>
      (getTransactions now page pageSize st).2
  | CallTransferFunds c => (runTransfer c st).2
  | CallGenerateInvoice now r1 r2 r3 currentDate nowId startDate endDate =>
      (apiGenerateInvoice now r1 r2 r3 currentDate nowId startDate endDate
         st).2
  end.

(** The store after a sequence of calls of any kind. *)
Definition runCalls (calls : list ServiceCall) (st : Store) : Store :=
  fold_left (λ st c, runCall c st) calls st.

(** The clock does not run backwards: every transfer of the sequence is
    dated not before the newest record that the log holds when the call is
    made. *)
Fixpoint clockNotBehind (calls : list ServiceCall) (st : Store) : Prop :=
  match calls with
  | [] => True
  | c :: rest =>
      match c with
      | CallTransferFunds t =>
          forall tx : Transaction.t,
            head (mockTransactions st) = Some tx ->
            Transaction.date tx <= call_txDate t
      | _ => True
      end
      /\ clockNotBehind rest (runCall c st)
  end.

(** [x] is negative. *)
Definition negative (x : number) : bool := ltb x zero.

(** The sum of the balances as the language computes it. *)
Definition sumBalances (accs : list Account.t) : number :=
  fold_left (λ sum acc, add sum (Account.balance acc)) accs zero.

(** The sum of the balances in cents, as exact integers. *)
Definition totalCents (accs : list Account.t) : Z :=
  foldr (λ acc sum, cents_of (Account.balance acc) + sum) 0 accs.

(** [x] is the value of a literal with two decimals, of at most [2^48]
    cents in magnitude. *)
Definition wholeCents (x : number) : Prop :=
  exists n : Z, Z.abs n <= 2 ^ 48 /\ x = of_cents n.

(** Every balance is a two-decimal value between 0 and [total] cents, and
    the balances add up to [total] cents. *)
Definition ledgerInCents (total : Z) (accs : list Account.t) : Prop :=
  Forall (λ acc, exists n : Z,
                   0 <= n <= total /\ Account.balance acc = of_cents n) accs
  /\ totalCents accs = total.

(** ** What the operations read and what they keep *)

(** Two states of the service with the same counter and the same time of
    the last request; the token and the reset time may differ. *)
Definition sameLimiter (s s' : ApiService) : Prop :=
  requestCount s = requestCount s'
  /\ lastRequestTime s = lastRequestTime s'.

(** Two stores that differ at most in the token and the reset time. *)
Definition sameButTokenAndReset (st st' : Store) : Prop :=
  sameLimiter (api st) (api st')
  /\ mockAccounts st = mockAccounts st'
  /\ mockTransactions st = mockTransactions st'.

(** An account without its balance. *)
Definition holder (acc : Account.t) : Account.t :=
  Account.set_balance zero acc.

(** [x] is a finite number within [w * 2^-53] cents of [s] cents. *)
Definition near (x : number) (s w : Z) : Prop :=
  exists a : Z,
    x = Fin a
    /\ 2 ^ 53 * Z.abs (100 * a - s * unit_scale) <= w * unit_scale.

(** A value of [Math.random()]: a binary64 number from 0 up to, not
    including, 1. *)
Definition unitInterval (r : number) : Prop :=
  exists z : Z,
    r = Fin z /\ 0 <= z < unit_scale /\ is_binary64 r = true.

(** The draws of one turn of [generateTransactions] that are used as
    numbers are values of [Math.random()]. *)
Definition validDraws (d : Draws) : Prop :=
  unitInterval (r_days d) /\ unitInterval (r_amount d)
  /\ unitInterval (r_category d) /\ unitInterval (r_description d).

(** The amounts of the lines of an invoice, read to the cent and added up. *)
Definition linesInCents (inv : Invoice.t) : Z :=
  foldr (λ item s, cents_of (Invoice.amount item) + s) 0 (Invoice.items inv).

(** The transactions of an answer of [getTransactions]; none when it
    threw. *)
Definition pageData (o : outcome Page) : list Transaction.t :=
  match o with
  | Return p => data p
  | Throw _ => []
  end.

(** ** More operations on numbers *)

Module JSMath.

(** [x / y].  The quotient of a dividend that is not zero by zero is an
    infinity whose sign depends on the sign of that zero, which is not
    kept: that quotient has no value here. *)
Definition div (x y : number) : option number :=
  match x, y with
  | NaN, _ | _, NaN => Some NaN
  | Inf _, Inf _ => Some NaN
  | Inf s, Fin b => if b =? 0 then None else Some (Inf (xorb s (b <? 0)))
  | Fin _, Inf _ => Some zero
  | Fin a, Fin b =>
      if b =? 0 then (if a =? 0 then Some NaN else None)
      else Some (round (Z.sgn b * a * unit_scale) (Z.abs b))
  end.

(** [Math.ceil(x)] *)
Definition ceil (x : number) : number :=
  match x with
  | Fin z => Fin (- (- z / unit_scale) * unit_scale)
  | _ => x
  end.

(** [x === y] on numbers *)
Definition eqb (x y : number) : bool :=
  match x, y with
  | Fin a, Fin b => a =? b
  | Inf s, Inf t => Bool.eqb s t
  | _, _ => false
  end.

(** [x <= y]; false as soon as one side is NaN. *)
Definition leb (x y : number) : bool :=
  match x, y with
  | NaN, _ | _, NaN => false
  | _, _ => negb (ltb y x)
  end.

(** [x >= y] *)
Definition geb (x y : number) : bool := leb y x.

(** [Math.max(x, y)] *)
Definition max (x y : number) : number :=
  match x, y with
  | NaN, _ | _, NaN => NaN
  | _, _ => if ltb x y then y else x
  end.

(** [Math.min(x, y)] *)
Definition min (x y : number) : number :=
  match x, y with
  | NaN, _ | _, NaN => NaN
  | _, _ => if ltb y x then y else x
  end.

(** Quotients on which [div] is compared with the library's. *)
Definition sample_quotients : list (number * number) :=
  [ (of_Z 52, of_Z 10); (of_Z (-7), of_Z 2); (of_decimal 1 1, of_Z (-3));
    (zero, of_Z 5); (Inf false, of_Z (-2)); (of_Z 3, Inf true);
    (Inf true, Inf false); (NaN, of_Z 1); (zero, zero) ].

End JSMath.

(** ** The page controls, [pages/Transactions.tsx] *)

Module TransactionsPage.

(** [Math.ceil(totalTransactions / pageSize)] *)
Definition totalPages (totalTransactions pageSize : number) : option number :=
  JSMath.ceil <$> JSMath.div totalTransactions pageSize.

(** The page after a click on Previous: [Math.max(prev - 1, 1)]. *)
Definition previousPage (prev : number) : number :=
  JSMath.max (sub prev (of_Z 1)) (of_Z 1).

(** The page after a click on Next: [Math.min(prev + 1, totalPages)]. *)
Definition nextPage (prev totalPages : number) : number :=
  JSMath.min (add prev (of_Z 1)) totalPages.

(** [Array.from({ length: totalPages }, (_, i) => i + 1)]; [None] when the
    length is refused with a [RangeError]. *)
Definition pageNumbers (totalPages : number) : option (list number) :=
  match totalPages with
  | NaN | Inf true => Some []
  | Inf false => None
  | Fin z =>
      if z <? 0 then Some []
      else if z / unit_scale <? 2 ^ 32 then
        Some (map (λ i : nat, add (of_Z (Z.of_nat i)) (of_Z 1))
                (seq 0 (Z.to_nat (z / unit_scale))))
      else None
  end.

(** The pages that get a link: the first, the last, the current one and
    its two neighbours. *)
Definition pageLinks (currentPage totalPages : number)
  : option (list number) :=
  List.filter
    (λ page,
       JSMath.eqb page (of_Z 1) || JSMath.eqb page totalPages
       || (JSMath.geb page (sub currentPage (of_Z 1))
           && JSMath.leb page (add currentPage (of_Z 1))))
  <$> pageNumbers totalPages.

End TransactionsPage.

(** ** Visits

    What a visitor can do with the auth context, one action after the
    other.  [Reload] is the page loaded again: a new provider is mounted over
    the same [localStorage] and runs [checkAuth]. *)

Module AuthRun.

Inductive Action : Type :=
  | Login (email password : string)
  | Register (email name password : string)
  | Logout
  | UpdateSubscription (tier expiresAt : string)
  | Reload.

Definition step (a : Action) (s : Auth.Storage * Auth.AuthState)
  : Auth.Storage * Auth.AuthState :=
  match a with
  | Login e p => ((Auth.login e p s.1 s.2).1.2, (Auth.login e p s.1 s.2).2)
  | Register e n p => (s.1, (Auth.register e n p s.2).2)
  | Logout => Auth.logout s.1 s.2
  | UpdateSubscription t x => Auth.updateSubscription t x s.1 s.2
  | Reload => (s.1, Auth.checkAuth s.1 Auth.initialAuthState)
  end.

Definition run (actions : list Action) (s : Auth.Storage * Auth.AuthState)
  : Auth.Storage * Auth.AuthState :=
  fold_left (λ s a, step a s) actions s.

(** A first visit: nothing stored, the provider just mounted. *)
Definition firstVisit : Auth.Storage * Auth.AuthState :=
  (∅, Auth.checkAuth ∅ Auth.initialAuthState).

(** An object whose members are strings, booleans or [null], as every
    object that this program serialises. *)
Definition flat (fields : list (string * Auth.json)) : Prop :=
  Forall (λ kv, match kv.2 with Auth.JObject _ => False | _ => True end)
    fields.

(** The store and the provider agree: with a user signed in, a token is
    stored and the stored user is the text of that user; with none, no
    token is stored. *)
Definition consistent (s : Auth.Storage * Auth.AuthState) : Prop :=
  match Auth.currentUser s.2 with
  | Some u =>
      Auth.truthy (s.1 !! "fintech_token") = true
      /\ s.1 !! "fintech_user"
         = Some (Auth.stringify (Auth.json_of_user u))
  | None => s.1 !! "fintech_token" = None
  end.

End AuthRun.

(** ** [transferFunds] around its delay

    An [async] function runs without interruption up to its first [await]
    and again from there to its end, and other calls can run in between.
    [transferFunds] has one [await], between its checks and its updates.
    Its two parts: [start], the limiter and the checks, which holds on to
    the two account objects found, and [finish], the updates and the two
    records. *)

Module TransferSteps.

(** What a call holds on to during its delay: the places of the two
    account objects, and the amount. *)
Record Pending : Type := mkPending {
  fromAccount : nat;
  toAccount : nat;
  amount : number
}.

Definition start (now : Z) (fromAccountId toAccountId : string)
    (amount : number) (st : Store) : outcome Pending * Store :=
  let '(ok, st1) := enter now st in
  if negb ok then (Throw RateLimited, st1)
  else
    match findAccount fromAccountId (mockAccounts st1),
          findAccount toAccountId (mockAccounts st1) with
    | Some i, Some j =>
        if ltb (balanceAt i (mockAccounts st1)) amount
        then (Throw InsufficientFunds, st1)
        else (Return (mkPending i j amount), st1)
    | _, _ => (Throw NotFound, st1)
    end.

Definition finish (txDate txNow : Z) (p : Pending) (st : Store)
  : TransferResult * Store :=
  let accs1 :=
    alter (λ acc, Account.set_balance
                    (round2 (sub (Account.balance acc) (amount p))) acc)
          (fromAccount p) (mockAccounts st) in
  let accs2 :=
    alter (λ acc, Account.set_balance
                    (round2 (add (Account.balance acc) (amount p))) acc)
          (toAccount p) accs1 in
  let txId := ("tx-" +:+ pretty txNow)%string in
  let debitLeg :=
    Transaction.mk (txId +:+ "-debit") txDate Transaction.debit (amount p)
      ("Transfer to " +:+ nameAt (toAccount p) accs2) Transaction.completed
      "Transfer" in
  let creditLeg :=
    Transaction.mk (txId +:+ "-credit") txDate Transaction.credit (amount p)
      ("Transfer from " +:+ nameAt (fromAccount p) accs2)
      Transaction.completed "Transfer" in
  (mkTransferResult true (amount p) (nameAt (fromAccount p) accs2)
     (nameAt (toAccount p) accs2),
   mkStore (api st) accs2 (creditLeg :: debitLeg :: mockTransactions st)).

(** Two calls for the same two accounts, the second one made during the
    delay of the first: both start, then both finish.  [None] when one of
    them throws. *)
Definition overlapping (now1 now2 txDate1 txNow1 txDate2 txNow2 : Z)
    (fromAccountId toAccountId : string) (amount1 amount2 : number)
    (st : Store) : option Store :=
  match start now1 fromAccountId toAccountId amount1 st with
  | (Return p1, st1) =>
      match start now2 fromAccountId toAccountId amount2 st1 with
      | (Return p2, st2) =>
          Some (finish txDate2 txNow2 p2 (finish txDate1 txNow1 p1 st2).2).2
      | (Throw _, _) => None
      end
  | (Throw _, _) => None
  end.

End TransferSteps.

(** ** Facts about the arithmetic of numbers *)

Module JSNumberFacts.

(** The constants of the format, compared once and for all. *)
Lemma unit_scale_pos : 0 < unit_scale.
Proof. reflexivity. Qed.

Lemma unit_scale_large : 100 * 2 ^ 53 <= unit_scale.
Proof. vm_compute. discriminate. Qed.

Lemma overflow_threshold_large : 2 ^ 60 * unit_scale < overflow_threshold.
Proof. reflexivity. Qed.

Lemma half_even_bound (p q : Z) :
  0 <= p -> 0 < q ->
  0 <= half_even p q /\ 2 * Z.abs (half_even p q * q - p) <= q.
Proof.
  intros Hp Hq. unfold half_even.
  pose proof (Z.div_mod p q ltac:(lia)) as Hdm.
  pose proof (Z.mod_pos_bound p q Hq) as Hm.
  assert (0 <= p / q) as Hd by (apply Z.div_pos; lia).
  destruct (Z.compare_spec (2 * (p mod q)) q) as [He|Hl|Hg];
    [destruct (Z.even (p / q))| |]; split; lia.
Qed.

Lemma half_even_exact (p : Z) : half_even p 1 = p.
Proof.
  unfold half_even. rewrite Z.mod_1_r, Z.div_1_r. reflexivity.
Qed.

Lemma rnd_pos_nonneg (p q : Z) : 0 <= p -> 0 < q -> 0 <= rnd_pos p q.
Proof.
  intros Hp Hq. unfold rnd_pos.
  destruct (Z.leb_spec (Z.log2 (p / q) - 52) 0) as [Hd|Hd].
  - apply half_even_bound; lia.
  - apply Z.mul_nonneg_nonneg; [apply Z.pow_nonneg; lia|].
    apply half_even_bound; [lia|].
    apply Z.mul_pos_pos; [lia|apply Z.pow_pos_nonneg; lia].
Qed.

(** Rounding to 53 bits moves a value by at most [2^-53] of itself, for a
    sum of binary64 values ([q = 1]) and for any quotient in the normal
    range. *)
Lemma rnd_pos_rel (p q : Z) :
  0 <= p -> 0 < q -> q = 1 \/ 2 ^ 53 <= p / q ->
  2 ^ 53 * Z.abs (rnd_pos p q * q - p) <= p.
Proof.
  intros Hp Hq Hnorm. unfold rnd_pos.
  destruct (Z.leb_spec (Z.log2 (p / q) - 52) 0) as [Hd|Hd].
  - destruct Hnorm as [->|Hbig].
    + rewrite half_even_exact. replace (p * 1 - p) with 0 by lia.
      simpl Z.abs. lia.
    + exfalso.
      assert (0 < p / q) as Hpos by lia.
      apply (Z.log2_le_pow2 _ 53) in Hbig; lia.
  - assert (0 < p / q) as Hpos.
    { destruct (Z.le_gt_cases (p / q) 0) as [Hle|]; [|assumption].
      rewrite (Z.log2_nonpos _ Hle) in Hd. lia. }
    set (d := Z.log2 (p / q) - 52) in *.
    assert (0 < 2 ^ d) as H2d by (apply Z.pow_pos_nonneg; lia).
    assert (0 < q * 2 ^ d) as Hq' by (apply Z.mul_pos_pos; lia).
    destruct (half_even_bound p (q * 2 ^ d) Hp Hq') as [_ Hb].
    assert (2 ^ (d + 52) * q <= p) as Hlow.
    { destruct (Z.log2_spec _ Hpos) as [Hl _].
      replace (d + 52) with (Z.log2 (p / q)) by (subst d; lia).
      pose proof (Z.mul_div_le p q Hq) as Hfl.
      apply Z.le_trans with (q * (p / q)); [|exact Hfl].
      rewrite (Z.mul_comm q). apply Z.mul_le_mono_nonneg_r; lia. }
    rewrite Z.pow_add_r in Hlow by lia.
    replace (2 ^ d * half_even p (q * 2 ^ d) * q - p)
      with (half_even p (q * 2 ^ d) * (q * 2 ^ d) - p) by ring.
    change (2 ^ 52) with 4503599627370496 in Hlow.
    change (2 ^ 53) with 9007199254740992.
    lia.
Qed.

(** No overflow and a relative error of at most [2^-53], with the sign of
    the exact value. *)
Lemma round_fin (p q : Z) :
  0 < q -> q = 1 \/ 2 ^ 53 <= Z.abs p / q ->
  2 * Z.abs p < q * overflow_threshold ->
  exists a, round p q = Fin a
            /\ 2 ^ 53 * Z.abs (a * q - p) <= Z.abs p
            /\ (0 <= p -> 0 <= a) /\ (p <= 0 -> a <= 0).
Proof.
  intros Hq Hn Hov. unfold round.
  pose proof (rnd_pos_nonneg (Z.abs p) q ltac:(lia) Hq) as Hr0.
  pose proof (rnd_pos_rel (Z.abs p) q ltac:(lia) Hq Hn) as Hrel.
  set (r := rnd_pos (Z.abs p) q) in *.
  change (2 ^ 53) with 9007199254740992 in *.
  assert (r * q <= 2 * Z.abs p) as Hle by lia.
  assert (r < overflow_threshold) as Hlt.
  { destruct (Z.lt_ge_cases r overflow_threshold) as [|Hge]; [assumption|].
    pose proof (Z.mul_le_mono_nonneg_r _ _ q ltac:(lia) Hge). lia. }
  destruct (Z.leb_spec overflow_threshold r) as [|_]; [lia|].
  exists (Z.sgn p * r). split; [reflexivity|].
  destruct (Z.lt_trichotomy p 0) as [Hs|[Hs|Hs]].
  - rewrite (Z.sgn_neg _ Hs).
    replace (-1 * r * q - p) with (- (r * q - Z.abs p)) by lia.
    rewrite Z.abs_opp. lia.
  - subst p. simpl Z.sgn. simpl Z.abs in *. lia.
  - rewrite (Z.sgn_pos _ Hs).
    replace (1 * r * q - p) with (r * q - Z.abs p) by lia. lia.
Qed.

(** *** Signs *)

Lemma round_not_negative (p q : Z) :
  0 <= p -> 0 < q -> ltb (round p q) zero = false.
Proof.
  intros Hp Hq. unfold round.
  pose proof (rnd_pos_nonneg (Z.abs p) q ltac:(lia) Hq) as Hr0.
  destruct (Z.leb_spec overflow_threshold (rnd_pos (Z.abs p) q)).
  - destruct (Z.ltb_spec p 0); [lia|reflexivity].
  - unfold ltb, zero. apply Z.ltb_ge.
    apply Z.mul_nonneg_nonneg; [|assumption].
    destruct (Z.sgn_spec p) as [[? ->]|[[? ->]|[? ->]]]; lia.
Qed.

(** A difference is not negative when its left side is not below its right
    side. *)
Lemma sub_not_negative (x y : number) :
  ltb x y = false -> ltb (sub x y) zero = false.
Proof.
  destruct x as [|s|a], y as [|t|b]; simpl; try reflexivity.
  - destruct s, t; simpl; intros; congruence.
  - intros ->. reflexivity.
  - destruct t; simpl; intros; congruence.
  - intros H. apply Z.ltb_ge in H. apply round_not_negative; lia.
Qed.

Lemma add_not_negative (x y : number) :
  ltb x zero = false -> ltb y zero = false -> ltb (add x y) zero = false.
Proof.
  destruct x as [|s|a], y as [|t|b]; simpl; try reflexivity; try congruence.
  - intros -> ->. reflexivity.
  - intros Ha Hb. apply Z.ltb_ge in Ha, Hb. apply round_not_negative; lia.
Qed.

Lemma round2_not_negative (x : number) :
  ltb x zero = false -> ltb (round2 x) zero = false.
Proof.
  destruct x as [|s|z]; simpl; try (intros; assumption).
  intros Hz. unfold round2, toFixed2.
  destruct (10 ^ 21 * unit_scale <=? Z.abs z); [exact Hz|].
  rewrite Hz. simpl. unfold of_cents. apply round_not_negative; [|lia].
  apply Z.ltb_ge in Hz.
  apply Z.mul_nonneg_nonneg; [|pose proof unit_scale_pos; lia].
  apply Z.div_pos; pose proof unit_scale_pos; lia.
Qed.

(** *** Whole cents *)

Ltac pow_literals :=
  change (2 ^ 48) with 281474976710656 in *;
  change (2 ^ 49) with 562949953421312 in *;
  change (2 ^ 50) with 1125899906842624 in *;
  change (2 ^ 53) with 9007199254740992 in *;
  change (2 ^ 60) with 1152921504606846976 in *;
  change (10 ^ 21) with 1000000000000000000000 in *.

Lemma abs_mul_unit (n : Z) : Z.abs (n * unit_scale) = Z.abs n * unit_scale.
Proof.
  rewrite Z.abs_mul, (Z.abs_eq unit_scale); [reflexivity|].
  pose proof unit_scale_pos. lia.
Qed.

Lemma mul_unit_le (n b : Z) :
  Z.abs n <= b -> Z.abs n * unit_scale <= b * unit_scale.
Proof.
  intros. apply Z.mul_le_mono_nonneg_r; [pose proof unit_scale_pos; lia|lia].
Qed.

(** The binary64 value of a two-decimal literal is within [2^-53] of it. *)
Lemma of_cents_fin (n : Z) :
  Z.abs n <= 2 ^ 50 ->
  exists a, of_cents n = Fin a
            /\ 2 ^ 53 * Z.abs (100 * a - n * unit_scale)
               <= Z.abs n * unit_scale.
Proof.
  intros Hn. destruct (Z.eq_dec n 0) as [->|Hne].
  - exists 0. split; [reflexivity|]. rewrite Z.mul_0_l. simpl Z.abs. lia.
  - unfold of_cents.
    pose proof unit_scale_pos as HU. pose proof unit_scale_large as HUl.
    pose proof overflow_threshold_large as HT.
    pose proof (mul_unit_le n _ Hn) as Hb.
    pose proof (mul_unit_le 1 (Z.abs n) ltac:(lia)) as Hb1.
    destruct (round_fin (n * unit_scale) 100) as (a & Ha & Hrel & _).
    + lia.
    + right. rewrite abs_mul_unit. apply Z.div_le_lower_bound; [lia|].
      pow_literals. lia.
    + rewrite abs_mul_unit. pow_literals. lia.
    + exists a. split; [exact Ha|]. rewrite abs_mul_unit in Hrel.
      replace (100 * a) with (a * 100) by lia. exact Hrel.
Qed.

(** A sum of two binary64 values is within [2^-53] of the exact sum. *)
Lemma add_fin (a b : Z) :
  2 * Z.abs (a + b) < overflow_threshold ->
  exists c, add (Fin a) (Fin b) = Fin c
            /\ 2 ^ 53 * Z.abs (c - (a + b)) <= Z.abs (a + b).
Proof.
  intros Hov. simpl.
  destruct (round_fin (a + b) 1) as (c & Hc & Hrel & _); [lia|left; lia|lia|].
  exists c. split; [exact Hc|]. rewrite Z.mul_1_r in Hrel. exact Hrel.
Qed.

(** A value within half a cent of [j] cents prints as [j] cents. *)
Lemma round2_near (c j : Z) :
  Z.abs j <= 2 ^ 60 ->
  2 * Z.abs (100 * c - j * unit_scale) < unit_scale ->
  toFixed2 (Fin c) = NumFixed (c <? 0) (Z.abs j)
  /\ round2 (Fin c) = of_cents j /\ cents_of (Fin c) = j.
Proof.
  intros Hj Hnear.
  pose proof unit_scale_pos as HU.
  pose proof (mul_unit_le j _ Hj) as Hb.
  pose proof (abs_mul_unit j) as Habs.
  assert (j = 0 \/ unit_scale <= Z.abs j * unit_scale) as Hj0.
  { destruct (Z.eq_dec j 0) as [|Hne]; [left; assumption|right].
    pose proof (mul_unit_le 1 (Z.abs j) ltac:(lia)). lia. }
  assert (toFixed2 (Fin c) = NumFixed (c <? 0) (Z.abs j)) as Hfix.
  { unfold toFixed2.
    destruct (Z.leb_spec (10 ^ 21 * unit_scale) (Z.abs c)) as [Hbig|_].
    { exfalso. pow_literals. lia. }
    f_equal. symmetry.
    apply Z.div_unique
      with (r := 200 * Z.abs c + unit_scale - 2 * unit_scale * Z.abs j);
      [left|]; destruct Hj0 as [->|Hj0]; lia. }
  assert ((if c <? 0 then - Z.abs j else Z.abs j) = j) as Hsign.
  { destruct (Z.ltb_spec c 0); destruct Hj0 as [->|Hj0]; lia. }
  split; [exact Hfix|]. unfold round2, cents_of. rewrite Hfix. simpl.
  rewrite Hsign. split; reflexivity.
Qed.

Lemma cents_of_of_cents (n : Z) :
  Z.abs n <= 2 ^ 50 -> cents_of (of_cents n) = n.
Proof.
  intros Hn. destruct (of_cents_fin n Hn) as (a & -> & Hrel).
  pose proof unit_scale_pos as HU.
  pose proof (mul_unit_le n _ Hn) as Hb.
  apply round2_near; pow_literals; lia.
Qed.

(** Adding two whole-cent values and rounding to cents gives the whole-cent
    value of the exact sum. *)
Lemma round2_add_cents (n k : Z) :
  Z.abs n <= 2 ^ 49 -> Z.abs k <= 2 ^ 49 ->
  round2 (add (of_cents n) (of_cents k)) = of_cents (n + k).
Proof.
  intros Hn Hk.
  destruct (of_cents_fin n ltac:(pow_literals; lia)) as (a & -> & Ha).
  destruct (of_cents_fin k ltac:(pow_literals; lia)) as (b & -> & Hb).
  pose proof unit_scale_pos as HU.
  pose proof overflow_threshold_large as HT.
  pose proof (mul_unit_le n _ Hn) as Hbn.
  pose proof (mul_unit_le k _ Hk) as Hbk.
  pow_literals.
  destruct (add_fin a b) as (c & -> & Hc); [lia|].
  apply round2_near; pow_literals; lia.
Qed.

Lemma round2_sub_cents (n k : Z) :
  Z.abs n <= 2 ^ 49 -> Z.abs k <= 2 ^ 49 ->
  round2 (sub (of_cents n) (of_cents k)) = of_cents (n - k).
Proof.
  intros Hn Hk.
  destruct (of_cents_fin n ltac:(pow_literals; lia)) as (a & -> & Ha).
  destruct (of_cents_fin k ltac:(pow_literals; lia)) as (b & -> & Hb).
  pose proof unit_scale_pos as HU.
  pose proof overflow_threshold_large as HT.
  pose proof (mul_unit_le n _ Hn) as Hbn.
  pose proof (mul_unit_le k _ Hk) as Hbk.
  pow_literals. unfold sub, neg.
  destruct (add_fin a (- b)) as (c & -> & Hc); [lia|].
  apply round2_near; pow_literals; lia.
Qed.

(** Two-decimal literals are read in their order. *)
Lemma of_cents_lt (n k : Z) :
  Z.abs n <= 2 ^ 50 -> Z.abs k <= 2 ^ 50 -> n < k ->
  ltb (of_cents n) (of_cents k) = true.
Proof.
  intros Hn Hk Hlt.
  destruct (of_cents_fin n Hn) as (a & -> & Ha).
  destruct (of_cents_fin k Hk) as (b & -> & Hb).
  pose proof unit_scale_pos as HU.
  pose proof (mul_unit_le n _ Hn) as Hbn.
  pose proof (mul_unit_le k _ Hk) as Hbk.
  assert (unit_scale <= (k - n) * unit_scale) as Hgap.
  { replace unit_scale with (1 * unit_scale) at 1 by lia.
    apply Z.mul_le_mono_nonneg_r; lia. }
  simpl. apply Z.ltb_lt. pow_literals. lia.
Qed.

Lemma of_cents_not_lt (n k : Z) :
  Z.abs n <= 2 ^ 50 -> Z.abs k <= 2 ^ 50 ->
  ltb (of_cents n) (of_cents k) = false -> k <= n.
Proof.
  intros Hn Hk Hge. destruct (Z.le_gt_cases k n) as [|Hlt]; [assumption|].
  rewrite (of_cents_lt n k Hn Hk) in Hge by lia. discriminate.
Qed.

End JSNumberFacts.

(** *** Agreement with the Standard Library's [SpecFloat]

    On the values that the examples below go through, the operations above
    give what the library's specification of binary64 arithmetic gives. *)

Example scenario_agrees_with_SpecFloat :
  forallb is_binary64
    [ of_cents 524575; of_cents 1273540; of_decimal 5 3; of_Z (-20000) ]
  = true
  /\ to_spec (sub (of_cents 524575) (of_decimal 5 3))
     = SFsub 53 1024 (to_spec (of_cents 524575)) (to_spec (of_decimal 5 3))
  /\ to_spec (add (of_cents 1273540) (of_decimal 5 3))
     = SFadd 53 1024 (to_spec (of_cents 1273540)) (to_spec (of_decimal 5 3))
  /\ to_spec (sub (of_cents 524575) (of_Z (-20000)))
     = SFsub 53 1024 (to_spec (of_cents 524575)) (to_spec (of_Z (-20000)))
  /\ to_spec (add (of_cents 1273540) (of_Z (-20000)))
     = SFadd 53 1024 (to_spec (of_cents 1273540)) (to_spec (of_Z (-20000)))
  /\ ltb (of_cents 524575) (of_Z 10000)
     = SFltb (to_spec (of_cents 524575)) (to_spec (of_Z 10000))
  /\ to_spec (mul (of_Z 599) (of_decimal 1 2))
     = SFmul 53 1024 (to_spec (of_Z 599)) (to_spec (of_decimal 1 2)).
Proof. vm_compute. repeat split. Qed.

(** The scenario of the transfer of 100: 5245.75 and 12735.40 become
    5145.75 and 12835.40. *)
Example round2_scenario :
  round2 (sub (of_cents 524575) (of_Z 100)) = of_cents 514575
  /\ round2 (add (of_cents 1273540) (of_Z 100)) = of_cents 1283540.
Proof. vm_compute. split; reflexivity. Qed.

(** The same comparison on the sample pairs, and of two-decimal literals
    with the correctly rounded quotient by 100; the library's values are
    taken up to the sign of zero. *)
Example samples_agree_with_SpecFloat :
  forallb (λ p, is_binary64 p.1 && is_binary64 p.2) sample_pairs = true
  /\ map (λ p, to_spec (add p.1 p.2)) sample_pairs
     = map (λ p, forget_zero_sign (SFadd 53 1024 (to_spec p.1) (to_spec p.2)))
         sample_pairs
  /\ map (λ p, to_spec (sub p.1 p.2)) sample_pairs
     = map (λ p, forget_zero_sign (SFsub 53 1024 (to_spec p.1) (to_spec p.2)))
         sample_pairs
  /\ map (λ p, to_spec (mul p.1 p.2)) sample_pairs
     = map (λ p, forget_zero_sign (SFmul 53 1024 (to_spec p.1) (to_spec p.2)))
         sample_pairs
  /\ map (λ p, ltb p.1 p.2) sample_pairs
     = map (λ p, SFltb (to_spec p.1) (to_spec p.2)) sample_pairs
  /\ map (λ n, to_spec (of_cents n)) sample_cents
     = map (λ n, forget_zero_sign
                   (SFdiv 53 1024 (to_spec (of_Z n)) (to_spec (of_Z 100))))
         sample_cents.
Proof. vm_compute. repeat split. Qed.

(** *** Whole numbers, products and the unit interval *)

Module JSNumberMore.

Import JSNumberFacts.

Lemma unit_scale_pow : unit_scale = 2 ^ 1074.
Proof. reflexivity. Qed.

Lemma unit_scale_split : unit_scale = 2 ^ 1021 * 2 ^ 53.
Proof. rewrite <- Z.pow_add_r by lia. reflexivity. Qed.

(** A value with at most 53 significant bits is not rounded. *)
Lemma rnd_pos_exact (a e : Z) :
  0 <= a < 2 ^ 53 -> 0 <= e -> rnd_pos (a * 2 ^ e) 1 = a * 2 ^ e.
Proof.
  intros Ha He. unfold rnd_pos. rewrite Z.div_1_r, Z.mul_1_l.
  destruct (Z.leb_spec (Z.log2 (a * 2 ^ e) - 52) 0) as [Hd|Hd].
  - apply half_even_exact.
  - assert (0 < a) as Hpos.
    { destruct (Z.eq_dec a 0) as [->|]; [|lia].
      rewrite Z.mul_0_l in Hd. simpl in Hd. lia. }
    rewrite Z.log2_mul_pow2 in * by lia.
    assert (Z.log2 a < 53) as Hlog by (apply Z.log2_lt_pow2; lia).
    set (d := e + Z.log2 a - 52) in *.
    assert (a * 2 ^ e = a * 2 ^ (e - d) * 2 ^ d) as Hsplit.
    { rewrite <- Z.mul_assoc, <- Z.pow_add_r by lia. f_equal. f_equal. lia. }
    rewrite Hsplit. unfold half_even.
    assert (0 < 2 ^ d) as H2d by (apply Z.pow_pos_nonneg; lia).
    rewrite Z.div_mul, Z.mod_mul by lia.
    destruct (Z.compare_spec (2 * 0) (2 ^ d)); try lia.
Qed.

(** An integer below [2^53] is a number as it stands. *)
Lemma of_Z_exact (n : Z) : Z.abs n < 2 ^ 53 -> of_Z n = Fin (n * unit_scale).
Proof.
  intros Hn. unfold of_Z, round. rewrite abs_mul_unit, unit_scale_pow.
  rewrite rnd_pos_exact by lia.
  assert (Z.abs n * 2 ^ 1074 < overflow_threshold) as Hov.
  { unfold overflow_threshold.
    replace 2098 with (1024 + 1074) by lia. rewrite Z.pow_add_r by lia.
    apply Z.mul_lt_mono_pos_r; [reflexivity|].
    apply Z.lt_trans with (2 ^ 53); [exact Hn|reflexivity]. }
  destruct (Z.leb_spec overflow_threshold (Z.abs n * 2 ^ 1074)) as [Hge|_];
    [exfalso; exact (Z.lt_irrefl _ (Z.lt_le_trans _ _ _ Hov Hge))|].
  clear Hov Hn. f_equal.
  assert (0 < 2 ^ 1074) as HU by reflexivity.
  set (U := 2 ^ 1074) in *. clearbody U.
  destruct (Z.lt_trichotomy n 0) as [Hs|[->|Hs]].
  - rewrite Z.sgn_neg by nia. rewrite Z.abs_neq by lia. ring.
  - reflexivity.
  - rewrite Z.sgn_pos by nia. rewrite Z.abs_eq by lia. ring.
Qed.

(** Rounding does not depend on the scale of the fraction. *)
Lemma rnd_pos_scaled (a c : Z) :
  0 <= a -> 0 < c -> rnd_pos (a * c) c = rnd_pos a 1.
Proof.
  intros Ha Hc. unfold rnd_pos.
  rewrite Z.div_mul, Z.div_1_r by lia.
  destruct (Z.leb_spec (Z.log2 a - 52) 0) as [_|Hd].
  - rewrite half_even_exact. unfold half_even.
    rewrite Z.div_mul, Z.mod_mul by lia.
    destruct (Z.compare_spec (2 * 0) c); try lia.
  - set (d := Z.log2 a - 52) in *. f_equal. unfold half_even.
    assert (0 < 2 ^ d) as H2d by (apply Z.pow_pos_nonneg; lia).
    rewrite (Z.mul_comm c (2 ^ d)), Z.mul_1_l.
    rewrite Z.div_mul_cancel_r, Z.mul_mod_distr_r by lia.
    replace (2 * (a mod 2 ^ d * c)) with (2 * (a mod 2 ^ d) * c) by ring.
    rewrite <- Zmult_compare_compat_r by lia. reflexivity.
Qed.

Lemma round_scaled (a c : Z) : 0 < c -> round (a * c) c = round a 1.
Proof.
  intros Hc. unfold round.
  rewrite Z.abs_mul, (Z.abs_eq c) by lia.
  rewrite rnd_pos_scaled by lia.
  assert ((a * c <? 0) = (a <? 0)) as ->.
  { destruct (Z.ltb_spec a 0), (Z.ltb_spec (a * c) 0); try reflexivity; nia. }
  assert (Z.sgn (a * c) = Z.sgn a) as ->.
  { rewrite Z.sgn_mul, (Z.sgn_pos c) by lia. lia. }
  reflexivity.
Qed.

(** A binary64 value below 1 is at most [1 - 2^-53]. *)
Lemma below_one (z : Z) :
  is_binary64 (Fin z) = true -> 0 <= z < unit_scale ->
  z <= unit_scale - 2 ^ 1021.
Proof.
  intros Hbin Hz. simpl in Hbin. apply andb_prop in Hbin.
  destruct Hbin as [_ Hrep]. apply Z.eqb_eq in Hrep.
  rewrite (Z.abs_eq z) in Hrep by lia.
  unfold rnd_pos in Hrep. rewrite Z.div_1_r, Z.mul_1_l in Hrep.
  assert (2 ^ 1073 = 2 ^ 1021 * 4503599627370496) as H1073
    by (change 4503599627370496 with (2 ^ 52);
        rewrite <- Z.pow_add_r by lia; reflexivity).
  assert (2 ^ Z.succ 1073 = 2 ^ 1021 * 9007199254740992) as H1074
    by (change 9007199254740992 with (2 ^ 53);
        rewrite <- Z.pow_add_r by lia; reflexivity).
  assert (0 < 2 ^ 1021) as H21 by reflexivity.
  rewrite unit_scale_split in *.
  change (2 ^ 53) with 9007199254740992 in *.
  destruct (Z.lt_ge_cases z (2 ^ 1021 * 4503599627370496)) as [Hsmall|Hbig].
  - clear Hrep H1073 H1074.
    set (w := 2 ^ 1021) in *. clearbody w. lia.
  - assert (Z.log2 z = 1073) as Hlog.
    { apply Z.log2_unique; [lia|].
      rewrite H1073, H1074. clear Hrep H1073 H1074.
      set (w := 2 ^ 1021) in *. clearbody w. lia. }
    rewrite Hlog in Hrep. change (1073 - 52 <=? 0) with false in Hrep.
    change (1073 - 52) with 1021 in Hrep. clear H1073 H1074 Hlog.
    set (h := half_even z (2 ^ 1021)) in *.
    set (w := 2 ^ 1021) in *. cbv iota in Hrep. clearbody h w.
    assert (h < 9007199254740992) as Hh.
    { apply (Z.mul_lt_mono_pos_l w); lia. }
    assert (w * h <= w * 9007199254740991) as Hle.
    { apply Z.mul_le_mono_nonneg_l; lia. }
    lia.
Qed.

(** The product of a binary64 value in [0, 1) and a whole number [n] is
    below [n], also after rounding. *)
Lemma mul_below (z n : Z) :
  is_binary64 (Fin z) = true -> 0 <= z < unit_scale -> 0 < n < 2 ^ 53 ->
  exists e : Z,
    mul (Fin z) (of_Z n) = Fin e /\ 0 <= e < n * unit_scale.
Proof.
  intros Hbin Hz Hn.
  pose proof (below_one z Hbin Hz) as Hone.
  rewrite (of_Z_exact n) by lia. simpl.
  replace (z * (n * unit_scale)) with (z * n * unit_scale) by ring.
  pose proof unit_scale_pos as HU.
  rewrite round_scaled by exact HU. unfold round.
  assert (n * unit_scale <= 2 ^ 60 * unit_scale) as Hn60.
  { apply Z.mul_le_mono_nonneg_r; [lia|].
    apply Z.le_trans with (2 ^ 53); [lia|discriminate]. }
  pose proof overflow_threshold_large as Hlarge.
  pose proof unit_scale_split as Hsplit.
  assert (0 < 2 ^ 1021) as H21 by reflexivity.
  change (2 ^ 53) with 9007199254740992 in *.
  set (OT := overflow_threshold) in *.
  set (big := 2 ^ 60 * unit_scale) in *.
  set (w := 2 ^ 1021) in *. set (U := unit_scale) in *.
  clearbody OT big w U. clear Hbin.
  assert (0 <= z * n) as Hzn by nia.
  pose proof (rnd_pos_nonneg (z * n) 1 Hzn ltac:(lia)) as Hr0.
  pose proof (rnd_pos_rel (z * n) 1 Hzn ltac:(lia) ltac:(left; reflexivity))
    as Hrel.
  change (2 ^ 53) with 9007199254740992 in Hrel.
  rewrite (Z.abs_eq (z * n)) by lia.
  set (e := rnd_pos (z * n) 1) in *. rewrite Z.mul_1_r in Hrel.
  clearbody e.
  assert (e < n * U) as Hlt by nia.
  destruct (Z.leb_spec OT e); [lia|].
  exists (Z.sgn (z * n) * e). split; [reflexivity|].
  destruct (Z.eq_dec (z * n) 0) as [H0|Hne].
  - rewrite H0. simpl. nia.
  - rewrite Z.sgn_pos by lia. lia.
Qed.

(** [Math.floor(r * n)] for a binary64 [r] in [0, 1): a whole number from
    0 to [n - 1]. *)
Lemma floor_mul_below (z n : Z) :
  is_binary64 (Fin z) = true -> 0 <= z < unit_scale -> 0 < n < 2 ^ 53 ->
  exists q : Z,
    floor (mul (Fin z) (of_Z n)) = of_Z q /\ 0 <= q <= n - 1.
Proof.
  intros Hbin Hz Hn.
  destruct (mul_below z n Hbin Hz Hn) as (e & -> & He).
  pose proof unit_scale_pos as HU.
  exists (e / unit_scale).
  assert (0 <= e / unit_scale <= n - 1) as Hq.
  { split; [apply Z.div_pos; lia|].
    assert (e / unit_scale < n); [|lia].
    apply Z.div_lt_upper_bound; lia. }
  split; [|exact Hq].
  rewrite of_Z_exact by lia. reflexivity.
Qed.

(** The sum of two whole numbers. *)
Lemma add_of_Z (a b : Z) :
  Z.abs a < 2 ^ 52 -> Z.abs b < 2 ^ 52 ->
  add (of_Z a) (of_Z b) = of_Z (a + b).
Proof.
  intros Ha Hb. change (2 ^ 52) with 4503599627370496 in *.
  rewrite (of_Z_exact a), (of_Z_exact b)
    by (change (2 ^ 53) with 9007199254740992; lia).
  simpl. unfold of_Z. f_equal. ring.
Qed.

Lemma to_Z_of_Z (n : Z) : Z.abs n < 2 ^ 53 -> to_Z (of_Z n) = n.
Proof.
  intros Hn. rewrite of_Z_exact by exact Hn. simpl.
  apply Z.div_mul. pose proof unit_scale_pos. lia.
Qed.

(** *** Sums and products of amounts in cents *)

Lemma near_of_cents (c : Z) : Z.abs c <= 2 ^ 50 -> near (of_cents c) c (Z.abs c).
Proof.
  intros Hc. destruct (of_cents_fin c Hc) as (a & Ha & Hrel).
  exists a. split; assumption.
Qed.

Lemma near_zero : near zero 0 0.
Proof. exists 0. split; [reflexivity|]. simpl. lia. Qed.

(** The sum of two amounts, with the error it can carry. *)
Lemma near_add (x y : number) (s t w v : Z) :
  near x s w -> near y t v ->
  0 <= w -> 0 <= v -> Z.abs s + Z.abs t + w + v <= 2 ^ 50 ->
  near (add x y) (s + t) (w + v + Z.abs (s + t) + 1).
Proof.
  intros (a & -> & Ha) (b & -> & Hb) Hw Hv Hsum.
  pose proof unit_scale_pos as HU.
  pose proof overflow_threshold_large as HT.
  pose proof (mul_unit_le s (2 ^ 50) ltac:(pow_literals; lia)) as Hbs.
  pose proof (mul_unit_le t (2 ^ 50) ltac:(pow_literals; lia)) as Hbt.
  pose proof (abs_mul_unit s) as Has.
  pose proof (abs_mul_unit t) as Hat.
  pose proof (abs_mul_unit (s + t)) as Hast.
  assert (w * unit_scale <= 2 ^ 50 * unit_scale) as Hbw
    by (apply Z.mul_le_mono_nonneg_r; pow_literals; lia).
  assert (v * unit_scale <= 2 ^ 50 * unit_scale) as Hbv
    by (apply Z.mul_le_mono_nonneg_r; pow_literals; lia).
  assert (0 <= w * unit_scale) as Hw0 by (apply Z.mul_nonneg_nonneg; lia).
  assert (0 <= v * unit_scale) as Hv0 by (apply Z.mul_nonneg_nonneg; lia).
  pow_literals.
  destruct (add_fin a b) as (c & -> & Hc); [lia|].
  exists c. split; [reflexivity|].
  replace ((w + v + Z.abs (s + t) + 1) * unit_scale)
    with (w * unit_scale + v * unit_scale + Z.abs (s + t) * unit_scale
          + unit_scale) by ring.
  replace ((s + t) * unit_scale) with (s * unit_scale + t * unit_scale)
    in * by ring.
  pow_literals. lia.
Qed.

(** The product of a whole number and an amount. *)
Lemma near_mul (q : Z) (y : number) (c v : Z) :
  near y c v -> 0 <= q <= 2 ^ 20 -> 0 <= v <= 2 ^ 20 -> Z.abs c <= 2 ^ 20 ->
  near (mul (of_Z q) y) (q * c) (q * (Z.abs c + v + 1)).
Proof.
  intros (a & -> & Ha) Hq Hv Hc.
  pose proof unit_scale_pos as HU.
  pose proof overflow_threshold_large as HT.
  pow_literals.
  rewrite of_Z_exact by (change (2 ^ 53) with 9007199254740992; lia).
  simpl.
  replace (q * unit_scale * a) with (q * a * unit_scale) by ring.
  rewrite round_scaled by exact HU.
  pose proof (abs_mul_unit c) as Hac.
  pose proof (mul_unit_le c _ Hc) as Hbc.
  assert (0 <= v * unit_scale <= 1048576 * unit_scale) as Hbv.
  { split; [apply Z.mul_nonneg_nonneg; lia|].
    apply Z.mul_le_mono_nonneg_r; lia. }
  assert (100 * Z.abs a <= 1048577 * unit_scale) as Habs by lia.
  assert (Z.abs (q * a) = q * Z.abs a) as Hqa.
  { rewrite Z.abs_mul, (Z.abs_eq q) by lia. reflexivity. }
  assert (q * (100 * Z.abs a) <= 1048576 * (1048577 * unit_scale)) as Hqb.
  { apply Z.le_trans with (q * (1048577 * unit_scale)).
    - apply Z.mul_le_mono_nonneg_l; lia.
    - apply Z.mul_le_mono_nonneg_r; lia. }
  destruct (round_fin (q * a) 1) as (e & -> & Hrel & _);
    [lia|left; reflexivity|rewrite Hqa; lia|].
  exists e. split; [reflexivity|].
  rewrite Z.mul_1_r, Hqa in Hrel.
  assert (q * (9007199254740992 * Z.abs (100 * a - c * unit_scale))
          <= q * (v * unit_scale)) as Hqe.
  { apply Z.mul_le_mono_nonneg_l; lia. }
  assert (q * (100 * Z.abs a)
          <= q * (Z.abs c * unit_scale + unit_scale)) as Hqm.
  { apply Z.mul_le_mono_nonneg_l; lia. }
  assert (Z.abs (100 * e - q * c * unit_scale)
          <= 100 * Z.abs (e - q * a)
             + q * Z.abs (100 * a - c * unit_scale)) as Htri.
  { assert (Z.abs (q * (100 * a - c * unit_scale))
            = q * Z.abs (100 * a - c * unit_scale)) as <-.
    { rewrite Z.abs_mul, (Z.abs_eq q) by lia. reflexivity. }
    replace (100 * e - q * c * unit_scale)
      with (100 * (e - q * a) + q * (100 * a - c * unit_scale)) by ring.
    lia. }
  replace (q * (Z.abs c + v + 1) * unit_scale)
    with (q * (Z.abs c * unit_scale + unit_scale) + q * (v * unit_scale))
    by ring.
  lia.
Qed.

(** An amount known to within less than half a cent shows its cents. *)
Lemma near_cents (x : number) (s w : Z) :
  near x s w -> w < 2 ^ 52 -> Z.abs s <= 2 ^ 60 ->
  round2 x = of_cents s /\ cents_of x = s.
Proof.
  intros (a & -> & Ha) Hw Hs.
  pose proof unit_scale_pos as HU.
  assert (w * unit_scale < 2 ^ 52 * unit_scale) as Hbw
    by (apply Z.mul_lt_mono_pos_r; lia).
  change (2 ^ 52) with 4503599627370496 in *.
  apply round2_near; [exact Hs|]. pow_literals. lia.
Qed.

(** [parseFloat((r * 500 + 10).toFixed(2))] for a value [r] of
    [Math.random()]: a whole number of cents from 1000 to 51000. *)
Lemma random_amount (r : number) :
  unitInterval r ->
  exists c : Z,
    round2 (add (mul r (of_Z 500)) (of_Z 10)) = of_cents c
    /\ 1000 <= c <= 51000.
Proof.
  intros (z & -> & Hz & Hbin).
  destruct (mul_below z 500 Hbin Hz ltac:(split; [lia|reflexivity]))
    as (e & -> & He).
  pose proof unit_scale_pos as HU.
  pose proof unit_scale_large as HUl.
  pose proof overflow_threshold_large as HT.
  rewrite (of_Z_exact 10) by reflexivity.
  pow_literals.
  destruct (add_fin e (10 * unit_scale)) as (f & -> & Hf); [lia|].
  pow_literals.
  assert (0 <= f) as Hf0 by lia.
  exists ((200 * Z.abs f + unit_scale) / (2 * unit_scale)).
  split.
  - unfold round2, toFixed2.
    destruct (Z.leb_spec (10 ^ 21 * unit_scale) (Z.abs f)) as [Hbig|_];
      [pow_literals; lia|].
    destruct (Z.ltb_spec f 0); [lia|]. reflexivity.
  - rewrite (Z.abs_eq f) by lia. split.
    + apply Z.div_le_lower_bound; lia.
    + assert ((200 * f + unit_scale) / (2 * unit_scale) < 51001); [|lia].
      apply Z.div_lt_upper_bound; lia.
Qed.

(** A fraction and the same fraction with both terms multiplied. *)
Lemma rnd_pos_fraction (a b c : Z) :
  0 <= a -> 0 < b -> 0 < c -> rnd_pos (a * c) (b * c) = rnd_pos a b.
Proof.
  intros Ha Hb Hc. unfold rnd_pos.
  rewrite Z.div_mul_cancel_r by lia.
  assert (forall q : Z, 0 < q -> half_even (a * c) (q * c) = half_even a q)
    as Hhalf.
  { intros q Hq. unfold half_even.
    rewrite Z.div_mul_cancel_r, Z.mul_mod_distr_r by lia.
    replace (2 * (a mod q * c)) with (2 * (a mod q) * c) by ring.
    rewrite <- Zmult_compare_compat_r by lia. reflexivity. }
  destruct (Z.leb_spec (Z.log2 (a / b) - 52) 0) as [_|Hd].
  - apply Hhalf. exact Hb.
  - set (d := Z.log2 (a / b) - 52) in *. f_equal.
    assert (0 < 2 ^ d) as H2d by (apply Z.pow_pos_nonneg; lia).
    replace (b * c * 2 ^ d) with (b * 2 ^ d * c) by ring.
    apply Hhalf. apply Z.mul_pos_pos; lia.
Qed.

Lemma round_fraction (a b c : Z) :
  0 < b -> 0 < c -> round (a * c) (b * c) = round a b.
Proof.
  intros Hb Hc. unfold round.
  rewrite Z.abs_mul, (Z.abs_eq c) by lia.
  rewrite rnd_pos_fraction by lia.
  assert ((a * c <? 0) = (a <? 0)) as ->.
  { destruct (Z.ltb_spec a 0), (Z.ltb_spec (a * c) 0); try reflexivity; nia. }
  assert (Z.sgn (a * c) = Z.sgn a) as ->.
  { rewrite Z.sgn_mul, (Z.sgn_pos c) by lia. lia. }
  reflexivity.
Qed.

(** Literals with one decimal or none, as literals with two. *)
Lemma of_decimal_1 (m : Z) : of_decimal m 1 = of_cents (m * 10).
Proof.
  unfold of_decimal, of_cents. change (10 ^ Z.of_nat 1) with 10.
  replace (m * 10 * unit_scale) with (m * unit_scale * 10) by ring.
  change 100 with (10 * 10). apply eq_sym, round_fraction; lia.
Qed.

Lemma of_decimal_2 (m : Z) : of_decimal m 2 = of_cents m.
Proof. reflexivity. Qed.

Lemma of_Z_cents (n : Z) : of_Z n = of_cents (n * 100).
Proof.
  unfold of_Z, of_cents.
  replace (n * 100 * unit_scale) with (n * unit_scale * 100) by ring.
  change 100 with (1 * 100) at 2. apply eq_sym, round_fraction; lia.
Qed.

(** One half is a value of [Math.random()]. *)
Lemma half_unitInterval : unitInterval (Fin (2 ^ 1073)).
Proof.
  exists (2 ^ 1073). split; [reflexivity|].
  split; [split; [discriminate|reflexivity]|].
  vm_compute. reflexivity.
Qed.

End JSNumberMore.

(** On the sample quotients, [div] gives what the library's specification
    of binary64 division gives, up to the sign of zero. *)
Example div_agrees_with_SpecFloat :
  map (λ p, to_spec <$> JSMath.div p.1 p.2) JSMath.sample_quotients
  = map (λ p, Some (forget_zero_sign
                      (SFdiv 53 1024 (to_spec p.1) (to_spec p.2))))
      JSMath.sample_quotients.
Proof. vm_compute. reflexivity. Qed.

(** ** The rate limiter *)

Lemma checkRateLimit_state (now : Z) (s : ApiService) :
  lastRequestTime (checkRateLimit now s).2 = now
  /\ requestCount (checkRateLimit now s).2
     = (if now - lastRequestTime s >? 60000 then 0 else requestCount s) + 1
  /\ (checkRateLimit now s).1
     = negb (requestCount (checkRateLimit now s).2 >? 10).
Proof.
  unfold checkRateLimit.
  destruct (now - lastRequestTime s >? 60000); simpl.
  - auto.
  - destruct (requestCount s + 1 >? 10) eqn:E; simpl; rewrite ?E; auto.
Qed.

(** A rejected call leaves a counter above ten. *)
Lemma rejected_count (now : Z) (s : ApiService) :
  (checkRateLimit now s).1 = false ->
  10 < requestCount (checkRateLimit now s).2.
Proof.
  destruct (checkRateLimit_state now s) as (_ & _ & ->).
  destruct (Z.gtb_spec (requestCount (checkRateLimit now s).2) 10);
    simpl; [lia|discriminate].
Qed.

(** With a counter above ten, calls that come less than 60 seconds after
    the previous one are all rejected. *)
Lemma limiter_stays_closed (ts : list Z) :
  forall s : ApiService,
    10 < requestCount s -> closelySpaced (lastRequestTime s) ts ->
    Forall (λ ok, ok = false) (limiterAnswers ts s).
Proof.
  induction ts as [|t ts IH]; intros s Hcount Hts; simpl.
  - constructor.
  - destruct Hts as [Hgap Hrest].
    destruct (checkRateLimit_state t s) as (Hlast & Hcnt & Hok).
    destruct (checkRateLimit t s) as [ok s'] eqn:Hstep. simpl in *.
    destruct (Z.gtb_spec (t - lastRequestTime s) 60000) as [|_]; [lia|].
    constructor.
    + rewrite Hok. destruct (Z.gtb_spec (requestCount s') 10); [reflexivity|lia].
    + apply IH; [lia|]. rewrite Hlast. exact Hrest.
Qed.



(** C4, the code at a point where it leaves the documented limit of ten
    requests per minute: a client that calls once every 59 seconds has its
    eleventh call rejected, 590 seconds after the counter was last reset,
    and the twelfth one too. *)
Theorem limiter_rejects_one_call_per_59_seconds :
  limiterAnswers
    [ 1700000000000; 1700000059000; 1700000118000; 1700000177000;
      1700000236000; 1700000295000; 1700000354000; 1700000413000;
      1700000472000; 1700000531000; 1700000590000; 1700000649000 ]
    (api (initialStore []))
  = [ true; true; true; true; true; true; true; true; true; true;
      false; false ].
Proof. reflexivity. Qed.

(** ** Pagination *)

Lemma enter_lists (now : Z) (st : Store) :
  mockAccounts (enter now st).2 = mockAccounts st
  /\ mockTransactions (enter now st).2 = mockTransactions st
  /\ api (enter now st).2 = (checkRateLimit now (api st)).2
  /\ (enter now st).1 = (checkRateLimit now (api st)).1.
Proof.
  unfold enter. destruct (checkRateLimit now (api st)); simpl; auto.
Qed.

(** A slice between two places that are not negative. *)
Lemma slice_take_drop {A : Type} (start size : Z) (l : list A) :
  0 <= start -> 0 <= size ->
  slice start (start + size) l
  = take (Z.to_nat size) (drop (Z.to_nat start) l).
Proof.
  intros Hs Hz. unfold slice.
  destruct (Z.ltb_spec start 0) as [|_]; [lia|].
  destruct (Z.ltb_spec (start + size) 0) as [|_]; [lia|].
  set (len := Z.of_nat (length l)).
  destruct (Z.le_gt_cases len start) as [Hout|Hin].
  - rewrite (Z.min_r start len) by lia.
    rewrite !drop_ge by lia. rewrite !take_nil. reflexivity.
  - rewrite (Z.min_l start len) by lia.
    destruct (Z.le_gt_cases (start + size) len) as [Hfit|Hcut].
    + rewrite Z.min_l by lia. f_equal. lia.
    + rewrite Z.min_r by lia.
      rewrite !take_ge; [reflexivity| |]; rewrite length_drop; lia.
Qed.

(** ** Transfers *)

(** The shape of a transfer that went through. *)
Lemma transferFunds_Return (now txDate txNow : Z) (fromId toId : string)
    (amount : number) (st : Store) (r : TransferResult) (st' : Store) :
  transferFunds now txDate txNow fromId toId amount st = (Return r, st') ->
  exists i j : nat,
    (checkRateLimit now (api st)).1 = true
    /\ findAccount fromId (mockAccounts st) = Some i
    /\ findAccount toId (mockAccounts st) = Some j
    /\ ltb (balanceAt i (mockAccounts st)) amount = false
    /\ mockAccounts st'
       = alter (λ acc, Account.set_balance
                         (round2 (add (Account.balance acc) amount)) acc) j
           (alter (λ acc, Account.set_balance
                            (round2 (sub (Account.balance acc) amount)) acc)
                  i (mockAccounts st))
    /\ mockTransactions st'
       = Transaction.mk (("tx-" +:+ pretty txNow) +:+ "-credit") txDate
           Transaction.credit amount
           ("Transfer from " +:+ nameAt i (mockAccounts st'))
           Transaction.completed "Transfer"
         :: Transaction.mk (("tx-" +:+ pretty txNow) +:+ "-debit") txDate
              Transaction.debit amount
              ("Transfer to " +:+ nameAt j (mockAccounts st'))
              Transaction.completed "Transfer"
         :: mockTransactions st
    /\ success r = true.
Proof.
  destruct (enter_lists now st) as (Haccs & Hlog & _ & Hadm).
  unfold transferFunds.
  destruct (enter now st) as [ok st1]. simpl in *. rewrite Haccs, Hlog.
  destruct ok; simpl; [|discriminate].
  destruct (findAccount fromId (mockAccounts st)) as [i|];
    [|discriminate].
  destruct (findAccount toId (mockAccounts st)) as [j|]; [|discriminate].
  destruct (ltb (balanceAt i (mockAccounts st)) amount) eqn:Hlt;
    [discriminate|].
  intros H. injection H as <- <-. simpl.
  exists i, j. repeat split; auto.
Qed.

(** C6: a transfer that goes through puts exactly two records in front of
    the log, a debit leg and a credit leg, both with the transferred
    amount, the same date and ids made of one transaction id followed by
    [-debit] and [-credit]; the rest of the log is as before. *)
Theorem transfer_appends_pair (now txDate txNow : Z) (fromId toId : string)
    (amount : number) (st : Store) (r : TransferResult) (st' : Store) :
  transferFunds now txDate txNow fromId toId amount st = (Return r, st') ->
  exists (debitLeg creditLeg : Transaction.t) (txId : string),
    mockTransactions st' = creditLeg :: debitLeg :: mockTransactions st
    /\ length (mockTransactions st')
       = (length (mockTransactions st) + 2)%nat
    /\ Transaction.type debitLeg = Transaction.debit
    /\ Transaction.type creditLeg = Transaction.credit
    /\ Transaction.amount debitLeg = amount
    /\ Transaction.amount creditLeg = amount
    /\ Transaction.date debitLeg = txDate
    /\ Transaction.date creditLeg = txDate
    /\ Transaction.id debitLeg = txId +:+ "-debit"
    /\ Transaction.id creditLeg = txId +:+ "-credit".
Proof.
  intros H.
  destruct (transferFunds_Return _ _ _ _ _ _ _ _ _ H)
    as (i & j & _ & _ & _ & _ & _ & Hlog & _).
  rewrite Hlog. do 2 eexists. exists ("tx-" +:+ pretty txNow).
  split; [reflexivity|]. split; [simpl; lia|].
  repeat split.
Qed.

(** The transfer of 100 between the seeded accounts, on an empty log. *)
Lemma transfer_appends_pair_witness :
  exists (debitLeg creditLeg : Transaction.t) (txId : string),
    mockTransactions
      (transferFunds 1700000000000 1700000001000 1700000001001 "acc-1"
         "acc-2" (of_Z 100) (initialStore [])).2
    = [creditLeg; debitLeg]
    /\ Transaction.id debitLeg = txId +:+ "-debit"
    /\ Transaction.id creditLeg = txId +:+ "-credit".
Proof.
  destruct (transfer_appends_pair 1700000000000 1700000001000 1700000001001
              "acc-1" "acc-2" (of_Z 100) (initialStore [])
              (mkTransferResult true (of_Z 100) "Checking Account"
                 "Savings Account")
              (transferFunds 1700000000000 1700000001000 1700000001001
                 "acc-1" "acc-2" (of_Z 100) (initialStore [])).2)
    as (d & c & txId & Hlog & _ & _ & _ & _ & _ & _ & _ & Hd & Hc).
  - vm_compute. reflexivity.
  - exists d, c, txId. split; [exact Hlog|]. split; assumption.
Defined.

(** A transfer that throws: nothing but the limiter has moved, and the
    error is one of three. *)
Lemma transferFunds_Throw (now txDate txNow : Z) (fromId toId : string)
    (amount : number) (st : Store) (e : Error) (st' : Store) :
  transferFunds now txDate txNow fromId toId amount st = (Throw e, st') ->
  mockAccounts st' = mockAccounts st
  /\ mockTransactions st' = mockTransactions st
  /\ (e = RateLimited \/ e = NotFound \/ e = InsufficientFunds).
Proof.
  destruct (enter_lists now st) as (Haccs & Hlog & _ & _).
  unfold transferFunds.
  destruct (enter now st) as [ok st1]. simpl in *.
  destruct ok; simpl.
  - destruct (findAccount fromId (mockAccounts st1)) as [i|].
    + destruct (findAccount toId (mockAccounts st1)) as [j|].
      * destruct (ltb (balanceAt i (mockAccounts st1)) amount);
          [|discriminate].
        intros H. injection H as <- <-. auto.
      * intros H. injection H as <- <-. auto.
    + intros H. injection H as <- <-. auto.
  - intros H. injection H as <- <-. auto.
Qed.

Lemma first_call_admitted (now : Z) (generated : list Transaction.t) :
  (checkRateLimit now (api (initialStore generated))).1 = true.
Proof.
  unfold checkRateLimit, initialStore. simpl.
  destruct (now - 0 >? 60000); reflexivity.
Qed.

Lemma seeded_checking_below_10000 :
  findAccount "acc-1" seededAccounts = Some 0%nat
  /\ findAccount "acc-2" seededAccounts = Some 1%nat
  /\ balanceAt 0 seededAccounts = of_cents 524575
  /\ ltb (of_cents 524575) (of_Z 10000) = true.
Proof. vm_compute. auto. Qed.

(** C8: a transfer call that fails, for whatever reason, leaves every
    account and the whole transaction log as they were; and a transfer of
    10000 from the checking account of the seeded ledger, whose balance is
    5245.75, to the savings account fails with "Insufficient funds" and
    leaves the balances and the log as they were. *)
Theorem failed_transfer_changes_nothing :
  (forall (now txDate txNow : Z) (fromId toId : string) (amount : number)
          (st : Store) (e : Error) (st' : Store),
      transferFunds now txDate txNow fromId toId amount st
      = (Throw e, st') ->
      mockAccounts st' = mockAccounts st
      /\ mockTransactions st' = mockTransactions st)
  /\ (forall (generated : list Transaction.t) (now txDate txNow : Z),
         exists st' : Store,
           transferFunds now txDate txNow "acc-1" "acc-2" (of_Z 10000)
             (initialStore generated)
           = (Throw InsufficientFunds, st')
           /\ mockAccounts st' = seededAccounts
           /\ mockTransactions st' = generated).
Proof.
  split.
  - intros now txDate txNow fromId toId amount st e st' H.
    destruct (transferFunds_Throw _ _ _ _ _ _ _ _ _ H) as (Ha & Hl & _).
    split; assumption.
  - intros generated now txDate txNow.
    destruct (enter_lists now (initialStore generated))
      as (Haccs & Hlog & _ & Hadm).
    rewrite first_call_admitted in Hadm.
    destruct seeded_checking_below_10000 as (Hf1 & Hf2 & Hbal & Hlt).
    unfold transferFunds.
    destruct (enter now (initialStore generated)) as [ok st1].
    simpl in Haccs, Hlog, Hadm. subst ok.
    change (mockAccounts (initialStore generated)) with seededAccounts
      in Haccs.
    cbv beta iota. rewrite Haccs, Hf1, Hf2, Hbal, Hlt. cbv beta iota.
    change (negb true) with false. cbv beta iota.
    exists st1. split; [reflexivity|]. split; assumption.
Qed.

(** A transfer to an account that does not exist leaves the seeded
    accounts as they are. *)
Lemma failed_transfer_changes_nothing_witness :
  mockAccounts
    (transferFunds 1700000000000 1700000001000 1700000001001 "acc-1" "acc-9"
       (of_Z 100) (initialStore [])).2
  = seededAccounts.
Proof.
  apply (proj1 failed_transfer_changes_nothing 1700000000000 1700000001000
           1700000001001 "acc-1" "acc-9" (of_Z 100) (initialStore [])
           NotFound).
  vm_compute. reflexivity.
Defined.

(** An id is in the ledger exactly when [find] answers. *)
Lemma findAccount_None (accId : string) (accs : list Account.t) :
  findAccount accId accs = None <-> accId ∉ map Account.id accs.
Proof.
  unfold findAccount. rewrite fmap_None, list_find_None.
  rewrite Forall_forall. split.
  - intros H Hin. apply list_elem_of_In, in_map_iff in Hin.
    destruct Hin as (acc & Hid & Hacc).
    exact (H acc (proj2 (list_elem_of_In _ _) Hacc) Hid).
  - intros H acc Hacc Hid. apply H. apply list_elem_of_In, in_map_iff.
    exists acc. apply list_elem_of_In in Hacc. auto.
Qed.

Lemma findAccount_Some (accId : string) (accs : list Account.t) (i : nat)
    (acc : Account.t) :
  list_find (λ acc, Account.id acc = accId) accs = Some (i, acc) ->
  findAccount accId accs = Some i /\ balanceAt i accs = Account.balance acc.
Proof.
  intros H. unfold findAccount, balanceAt. rewrite H. simpl.
  apply list_find_Some in H. destruct H as (-> & _). auto.
Qed.

(** C2, as the service does it: a call refused by the limiter fails with
    "Rate limit exceeded"; an admitted call fails with "One or both
    accounts not found" when either id is missing from the ledger, else
    with "Insufficient funds" when the balance of the source account is
    below the amount, and else goes through, whether or not the two ids
    are the same and whatever the sign of the amount. *)
Theorem transferFunds_outcome (now txDate txNow : Z) (fromId toId : string)
    (amount : number) (st : Store) :
  ((checkRateLimit now (api st)).1 = false ->
   (transferFunds now txDate txNow fromId toId amount st).1
   = Throw RateLimited)
  /\ ((checkRateLimit now (api st)).1 = true ->
      (fromId ∉ map Account.id (mockAccounts st)
       \/ toId ∉ map Account.id (mockAccounts st) ->
       (transferFunds now txDate txNow fromId toId amount st).1
       = Throw NotFound)
      /\ (forall (i : nat) (fromAccount : Account.t),
             list_find (λ acc, Account.id acc = fromId) (mockAccounts st)
             = Some (i, fromAccount) ->
             toId ∈ map Account.id (mockAccounts st) ->
             (ltb (Account.balance fromAccount) amount = true ->
              (transferFunds now txDate txNow fromId toId amount st).1
              = Throw InsufficientFunds)
             /\ (ltb (Account.balance fromAccount) amount = false ->
                 exists r : TransferResult,
                   (transferFunds now txDate txNow fromId toId amount st).1
                   = Return r
                   /\ success r = true))).
Proof.
  destruct (enter_lists now st) as (Haccs & _ & _ & Hadm).
  unfold transferFunds.
  destruct (enter now st) as [ok st1]. simpl in Haccs, Hadm.
  rewrite <- Hadm, Haccs. split; [intros ->; reflexivity|].
  intros ->. cbv beta iota. change (negb true) with false. cbv beta iota.
  split.
  - intros [Hfrom|Hto].
    + apply findAccount_None in Hfrom. rewrite Hfrom. reflexivity.
    + apply findAccount_None in Hto. rewrite Hto.
      destruct (findAccount fromId (mockAccounts st)); reflexivity.
  - intros i fromAccount Hfind Hto.
    destruct (findAccount_Some _ _ _ _ Hfind) as (-> & ->).
    destruct (findAccount toId (mockAccounts st)) as [j|] eqn:Hj.
    + split; intros ->; [reflexivity|]. eexists. split; reflexivity.
    + apply findAccount_None in Hj. contradiction.
Qed.

(** A transfer of -5 from the checking account to itself goes through. *)
Lemma transferFunds_outcome_witness :
  exists r : TransferResult,
    (transferFunds 1700000000000 1700000001000 1700000001001 "acc-1" "acc-1"
       (of_Z (-5)) (initialStore [])).1
    = Return r
    /\ success r = true.
Proof.
  apply (proj2 (proj2 (transferFunds_outcome 1700000000000 1700000001000
                         1700000001001 "acc-1" "acc-1" (of_Z (-5))
                         (initialStore []))
                  ltac:(reflexivity)) 0%nat
           (Account.mk "acc-1" "Checking Account" (of_cents 524575) "USD"
              "9374846271" "072403952")).
  - vm_compute. reflexivity.
  - vm_compute. apply list_elem_of_In. left. reflexivity.
  - vm_compute. reflexivity.
Defined.

(** C2, where the claim fails: from the seeded ledger a transfer of 100
    from the checking account to itself goes through, and so does a
    transfer of -5 from the checking to the savings account. *)
Lemma transferFunds_accepts_same_account_and_negative_amount :
  (transferFunds 1700000000000 1700000001000 1700000001001 "acc-1" "acc-1"
     (of_Z 100) (initialStore [])).1
  = Return (mkTransferResult true (of_Z 100) "Checking Account"
              "Checking Account")
  /\ (transferFunds 1700000000000 1700000001000 1700000001001 "acc-1"
        "acc-2" (of_Z (-5)) (initialStore [])).1
     = Return (mkTransferResult true (of_Z (-5)) "Checking Account"
                 "Savings Account")
  /\ ltb (of_Z (-5)) zero = true.
Proof. vm_compute. auto. Qed.

(** ** Invoices *)

(** C7, as the service does it: the method returns an invoice for every
    pair of dates, in whichever order they are, as soon as the limiter
    admits the call; its only failure is "Rate limit exceeded".  The dates
    are not used: with any other two dates in their place the module-level
    generator returns the same invoice and the method the same answer and
    the same state.  Nothing of the ledger or the log is changed. *)
Theorem apiGenerateInvoice_any_range (now : Z) (r1 r2 r3 : number)
    (currentDate nowId : Z) (startDate endDate : string) (st : Store) :
  ((checkRateLimit now (api st)).1 = true ->
   (apiGenerateInvoice now r1 r2 r3 currentDate nowId startDate endDate
      st).1
   = Return (generateInvoice r1 r2 r3 currentDate nowId startDate endDate))
  /\ ((checkRateLimit now (api st)).1 = false ->
      (apiGenerateInvoice now r1 r2 r3 currentDate nowId startDate endDate
         st).1
      = Throw RateLimited)
  /\ (forall startDate' endDate' : string,
         generateInvoice r1 r2 r3 currentDate nowId startDate endDate
         = generateInvoice r1 r2 r3 currentDate nowId startDate' endDate'
         /\ apiGenerateInvoice now r1 r2 r3 currentDate nowId startDate
              endDate st
            = apiGenerateInvoice now r1 r2 r3 currentDate nowId startDate'
                endDate' st)
  /\ mockAccounts
       (apiGenerateInvoice now r1 r2 r3 currentDate nowId startDate endDate
          st).2
     = mockAccounts st
  /\ mockTransactions
       (apiGenerateInvoice now r1 r2 r3 currentDate nowId startDate endDate
          st).2
     = mockTransactions st.
Proof.
  destruct (enter_lists now st) as (Haccs & Hlog & _ & Hadm).
  unfold apiGenerateInvoice.
  destruct (enter now st) as [ok st1]. simpl in Haccs, Hlog, Hadm.
  rewrite <- Hadm.
  split; [intros ->; reflexivity|]. split; [intros ->; reflexivity|].
  split; [intros startDate' endDate'; split; reflexivity|].
  destruct ok; simpl; auto.
Qed.

(** The first call of a fresh service, for January 2024. *)
Lemma apiGenerateInvoice_any_range_witness :
  (apiGenerateInvoice 1700000000000 (of_decimal 7 1) (of_decimal 3 1)
     (of_decimal 99 2) 1700000001200 1700000001200 "2024-01-01T00:00:00"
     "2024-01-31T00:00:00" (initialStore [])).1
  = Return (generateInvoice (of_decimal 7 1) (of_decimal 3 1)
              (of_decimal 99 2) 1700000001200 1700000001200
              "2024-01-01T00:00:00" "2024-01-31T00:00:00").
Proof.
  apply (proj1 (apiGenerateInvoice_any_range 1700000000000 (of_decimal 7 1)
                  (of_decimal 3 1) (of_decimal 99 2) 1700000001200
                  1700000001200 "2024-01-01T00:00:00" "2024-01-31T00:00:00"
                  (initialStore []))).
  reflexivity.
Defined.

(** C7, where the claim fails: with a start date after the end date the
    method still returns an invoice. *)
Lemma apiGenerateInvoice_accepts_reversed_range :
  String.compare "2024-02-01T00:00:00" "2024-01-01T00:00:00" = Gt
  /\ (apiGenerateInvoice 1700000000000 (of_decimal 7 1) (of_decimal 3 1)
        (of_decimal 99 2) 1700000001200 1700000001200 "2024-02-01T00:00:00"
        "2024-01-01T00:00:00" (initialStore [])).1
     = Return (generateInvoice (of_decimal 7 1) (of_decimal 3 1)
                 (of_decimal 99 2) 1700000001200 1700000001200
                 "2024-02-01T00:00:00" "2024-01-01T00:00:00").
Proof. split; reflexivity. Qed.

(** ** Balances that are not negative *)

Lemma balanceAt_lookup (i : nat) (accs : list Account.t) (acc : Account.t) :
  accs !! i = Some acc -> balanceAt i accs = Account.balance acc.
Proof. intros H. unfold balanceAt. rewrite H. reflexivity. Qed.

(** One call with an amount that is not negative keeps every balance not
    negative. *)
Lemma transferFunds_keeps_not_negative (now txDate txNow : Z)
    (fromId toId : string) (amount : number) (st : Store) :
  negative amount = false ->
  Forall (λ acc, negative (Account.balance acc) = false) (mockAccounts st) ->
  Forall (λ acc, negative (Account.balance acc) = false)
    (mockAccounts (transferFunds now txDate txNow fromId toId amount st).2).
Proof.
  intros Hamount Hinv.
  destruct (transferFunds now txDate txNow fromId toId amount st)
    as [[r|e] st'] eqn:Hcall; simpl.
  - destruct (transferFunds_Return _ _ _ _ _ _ _ _ _ Hcall)
      as (i & j & _ & _ & _ & Hlt & -> & _).
    apply Forall_alter.
    + apply Forall_alter; [exact Hinv|].
      intros acc Hacc _. simpl. unfold negative.
      apply JSNumberFacts.round2_not_negative,
            JSNumberFacts.sub_not_negative.
      rewrite <- (balanceAt_lookup _ _ _ Hacc). exact Hlt.
    + intros acc _ Hpos. simpl. unfold negative.
      apply JSNumberFacts.round2_not_negative,
            JSNumberFacts.add_not_negative; assumption.
  - destruct (transferFunds_Throw _ _ _ _ _ _ _ _ _ Hcall) as (-> & _).
    exact Hinv.
Qed.

Lemma runTransfers_keeps_not_negative (calls : list TransferCall) :
  forall st : Store,
    Forall (λ c, negative (call_amount c) = false) calls ->
    Forall (λ acc, negative (Account.balance acc) = false)
      (mockAccounts st) ->
    Forall (λ acc, negative (Account.balance acc) = false)
      (mockAccounts (runTransfers calls st)).
Proof.
  induction calls as [|c calls IH]; intros st Hcalls Hinv; simpl.
  - exact Hinv.
  - inversion Hcalls as [|? ? Hc Hrest]; subst.
    apply IH; [exact Hrest|].
    apply transferFunds_keeps_not_negative; assumption.
Qed.

Lemma seeded_not_negative :
  Forall (λ acc, negative (Account.balance acc) = false) seededAccounts.
Proof. repeat constructor. Qed.

(** C3, as the service does it: starting from the seeded ledger, after each
    call of any sequence of transfer calls whose amounts are not negative
    (zero included), with whatever account ids, no balance is negative. *)
Theorem balances_never_negative (generated : list Transaction.t)
    (calls : list TransferCall) (k : nat) :
  Forall (λ c, negative (call_amount c) = false) calls ->
  Forall (λ acc, negative (Account.balance acc) = false)
    (mockAccounts (runTransfers (take k calls) (initialStore generated))).
Proof.
  intros Hcalls. apply runTransfers_keeps_not_negative.
  - apply Forall_take. exact Hcalls.
  - exact seeded_not_negative.
Qed.

(** The first two of three calls: the whole checking balance, then one
    cent more, which fails. *)
Lemma balances_never_negative_witness :
  Forall (λ acc, negative (Account.balance acc) = false)
    (mockAccounts
       (runTransfers
          (take 2
             [ mkTransferCall 1700000000000 1700000001000 1700000001001
                 "acc-1" "acc-2" (of_cents 524575);
               mkTransferCall 1700000002000 1700000003000 1700000003001
                 "acc-1" "acc-2" (of_cents 1);
               mkTransferCall 1700000004000 1700000005000 1700000005001
                 "acc-2" "acc-2" zero ])
          (initialStore []))).
Proof.
  apply balances_never_negative.
  repeat constructor.
Defined.

(** C3, where the claim fails: one transfer of -20000 from the checking to
    the savings account of the seeded ledger goes through and leaves the
    savings account at -7264.60. *)
Lemma negative_amount_makes_balance_negative :
  negative (of_Z (-20000)) = true
  /\ map (λ acc, negative (Account.balance acc))
       (mockAccounts
          (runTransfers
             [ mkTransferCall 1700000000000 1700000001000 1700000001001
                 "acc-1" "acc-2" (of_Z (-20000)) ]
             (initialStore [])))
     = [false; true]
  /\ map Account.balance
       (mockAccounts
          (runTransfers
             [ mkTransferCall 1700000000000 1700000001000 1700000001001
                 "acc-1" "acc-2" (of_Z (-20000)) ]
             (initialStore [])))
     = [of_cents 2524575; of_cents (-726460)].
Proof. vm_compute. auto. Qed.

(** ** Conservation of the total *)

Lemma alter_as_insert {A : Type} (f : A -> A) (l : list A) (i : nat) (x : A) :
  l !! i = Some x -> alter f i l = <[i := f x]> l.
Proof.
  intros Hx. rewrite list_insert_alter.
  apply list_alter_ext; [|reflexivity]. intros y Hy. congruence.
Qed.

Lemma totalCents_insert (accs : list Account.t) (acc' : Account.t) :
  forall (i : nat) (acc : Account.t),
    accs !! i = Some acc ->
    totalCents (<[i := acc']> accs)
    = totalCents accs - cents_of (Account.balance acc)
      + cents_of (Account.balance acc').
Proof.
  unfold totalCents.
  induction accs as [|a accs IH]; intros [|i] acc Hacc;
    try discriminate; simpl in *.
  - injection Hacc as ->. lia.
  - change (list_insert i acc' accs) with (<[i := acc']> accs).
    rewrite (IH i acc Hacc). lia.
Qed.

Lemma findAccount_lookup (accId : string) (accs : list Account.t) (i : nat) :
  findAccount accId accs = Some i -> exists acc, accs !! i = Some acc.
Proof.
  unfold findAccount. intros H. apply fmap_Some in H.
  destruct H as ([i' acc] & Hfind & ->). apply list_find_Some in Hfind.
  exists acc. apply Hfind.
Qed.

Lemma wholeCents_cents (x : number) (n : Z) :
  Z.abs n <= 2 ^ 49 -> x = of_cents n -> cents_of x = n.
Proof.
  intros Hn ->. apply JSNumberFacts.cents_of_of_cents.
  JSNumberFacts.pow_literals. lia.
Qed.

(** A transfer of whole cents between whole-cent balances, read in cents:
    the source account [x] held [n] cents and the amount is [k <= n]; with
    one and the same account on both sides the ledger is as before, else
    [x] holds [n - k] and the destination [y], which held [m], holds
    [m + k]. *)
Lemma transferFunds_whole_cents (now txDate txNow : Z) (fromId toId : string)
    (k : Z) (st : Store) (r : TransferResult) (st' : Store) :
  Forall (λ acc, wholeCents (Account.balance acc)) (mockAccounts st) ->
  Z.abs k <= 2 ^ 48 ->
  transferFunds now txDate txNow fromId toId (of_cents k) st
  = (Return r, st') ->
  exists (i j : nat) (x y : Account.t) (n m : Z),
    mockAccounts st !! i = Some x /\ mockAccounts st !! j = Some y
    /\ Account.balance x = of_cents n /\ Z.abs n <= 2 ^ 48
    /\ Account.balance y = of_cents m /\ Z.abs m <= 2 ^ 48
    /\ k <= n
    /\ ((i = j /\ mockAccounts st' = mockAccounts st)
        \/ (i <> j
            /\ mockAccounts st'
               = <[j := Account.set_balance (of_cents (m + k)) y]>
                   (<[i := Account.set_balance (of_cents (n - k)) x]>
                      (mockAccounts st)))).
Proof.
  intros Hledger Hk Hcall.
  destruct (transferFunds_Return _ _ _ _ _ _ _ _ _ Hcall)
    as (i & j & _ & Hi & Hj & Hlt & -> & _).
  destruct (findAccount_lookup _ _ _ Hi) as (x & Hx).
  destruct (findAccount_lookup _ _ _ Hj) as (y & Hy).
  destruct (Forall_lookup_1 _ _ _ _ Hledger Hx) as (n & Hn & Hbx).
  destruct (Forall_lookup_1 _ _ _ _ Hledger Hy) as (m & Hm & Hby).
  rewrite (balanceAt_lookup _ _ _ Hx), Hbx in Hlt.
  assert (k <= n) as Hkn.
  { apply JSNumberFacts.of_cents_not_lt;
      [JSNumberFacts.pow_literals; lia..|exact Hlt]. }
  exists i, j, x, y, n, m. repeat (split; [assumption|]).
  JSNumberFacts.pow_literals.
  rewrite (alter_as_insert _ _ _ _ Hx). cbv beta. rewrite Hbx.
  rewrite JSNumberFacts.round2_sub_cents
    by (JSNumberFacts.pow_literals; lia).
  destruct (decide (i = j)) as [<-|Hij];
    [left; split; [reflexivity|]|right; split; [exact Hij|]].
  - rewrite (alter_as_insert _ _ i (Account.set_balance (of_cents (n - k)) x))
      by (apply list_lookup_insert_eq, (lookup_lt_Some _ _ _ Hx)).
    cbv beta.
    change (Account.balance (Account.set_balance (of_cents (n - k)) x))
      with (of_cents (n - k)).
    rewrite JSNumberFacts.round2_add_cents
      by (JSNumberFacts.pow_literals; lia).
    rewrite list_insert_insert_eq. apply list_insert_id.
    rewrite Hx. f_equal. destruct x as [xi xn xb xc xa xr].
    simpl in Hbx. subst xb. unfold Account.set_balance. simpl.
    f_equal. f_equal. lia.
  - rewrite (alter_as_insert _ _ j y)
      by (rewrite list_lookup_insert_ne by exact Hij; exact Hy).
    cbv beta. rewrite Hby.
    rewrite JSNumberFacts.round2_add_cents
      by (JSNumberFacts.pow_literals; lia).
    reflexivity.
Qed.

(** C1, as the service does it: when every balance of the ledger and the
    amount are values with two decimals, of at most [2^48] cents, a
    transfer that goes through leaves the sum of the balances, counted in
    cents, as it was. *)
Theorem transfer_conserves_total_cents (now txDate txNow : Z)
    (fromId toId : string) (amount : number) (st : Store)
    (r : TransferResult) (st' : Store) :
  Forall (λ acc, wholeCents (Account.balance acc)) (mockAccounts st) ->
  wholeCents amount ->
  transferFunds now txDate txNow fromId toId amount st = (Return r, st') ->
  totalCents (mockAccounts st') = totalCents (mockAccounts st).
Proof.
  intros Hledger (k & Hk & ->) Hcall.
  destruct (transferFunds_whole_cents _ _ _ _ _ _ _ _ _ Hledger Hk Hcall)
    as (i & j & x & y & n & m & Hx & Hy & Hbx & Hn & Hby & Hm & Hkn & Hst').
  JSNumberFacts.pow_literals.
  destruct Hst' as [[_ ->]|[Hij ->]]; [reflexivity|].
  assert (<[i := Account.set_balance (of_cents (n - k)) x]> (mockAccounts st)
          !! j = Some y) as Hy1.
  { rewrite list_lookup_insert_ne by exact Hij. exact Hy. }
  rewrite (totalCents_insert _ _ _ _ Hy1), (totalCents_insert _ _ _ _ Hx).
  change (Account.balance (Account.set_balance (of_cents (m + k)) y))
    with (of_cents (m + k)).
  change (Account.balance (Account.set_balance (of_cents (n - k)) x))
    with (of_cents (n - k)).
  rewrite (wholeCents_cents _ n ltac:(JSNumberFacts.pow_literals; lia) Hbx).
  rewrite (wholeCents_cents _ m ltac:(JSNumberFacts.pow_literals; lia) Hby).
  rewrite !JSNumberFacts.cents_of_of_cents
    by (JSNumberFacts.pow_literals; lia).
  lia.
Qed.

(** The transfer of 100 between the seeded accounts. *)
Lemma transfer_conserves_total_cents_witness :
  totalCents
    (mockAccounts
       (transferFunds 1700000000000 1700000001000 1700000001001 "acc-1"
          "acc-2" (of_Z 100) (initialStore [])).2)
  = totalCents (mockAccounts (initialStore [])).
Proof.
  apply (transfer_conserves_total_cents 1700000000000 1700000001000
           1700000001001 "acc-1" "acc-2" (of_Z 100) (initialStore [])
           (mkTransferResult true (of_Z 100) "Checking Account"
              "Savings Account")).
  - constructor; [exists 524575; split; [lia|reflexivity]|].
    constructor; [exists 1273540; split; [lia|reflexivity]|].
    constructor.
  - exists 10000. split; [lia|]. vm_compute. reflexivity.
  - vm_compute. reflexivity.
Defined.

(** C1, where the claim fails: a transfer of 0.005 from the checking to the
    savings account of the seeded ledger goes through; the checking account
    goes from 5245.75 to 5245.74 and the savings account stays at 12735.40,
    so the sum of the balances is one cent lower than before. *)
Lemma half_cent_transfer_loses_a_cent :
  is_binary64 (of_decimal 5 3) = true
  /\ (transferFunds 1700000000000 1700000001000 1700000001001 "acc-1"
        "acc-2" (of_decimal 5 3) (initialStore [])).1
     = Return (mkTransferResult true (of_decimal 5 3) "Checking Account"
                 "Savings Account")
  /\ map Account.balance
       (mockAccounts
          (transferFunds 1700000000000 1700000001000 1700000001001 "acc-1"
             "acc-2" (of_decimal 5 3) (initialStore [])).2)
     = [of_cents 524574; of_cents 1273540]
  /\ totalCents (mockAccounts (initialStore [])) = 1798115
  /\ totalCents
       (mockAccounts
          (transferFunds 1700000000000 1700000001000 1700000001001 "acc-1"
             "acc-2" (of_decimal 5 3) (initialStore [])).2)
     = 1798114
  /\ ltb
       (sumBalances
          (mockAccounts
             (transferFunds 1700000000000 1700000001000 1700000001001
                "acc-1" "acc-2" (of_decimal 5 3) (initialStore [])).2))
       (sumBalances (mockAccounts (initialStore [])))
     = true.
Proof. vm_compute. repeat split. Qed.

(** The sum is counted in cents because the sum that the language computes
    depends on how the total is split: 0.10 + 0.20 is above 0.05 + 0.25,
    though both ledgers hold thirty cents. *)
Example float_sum_depends_on_the_split :
  ltb (add (add zero (of_cents 5)) (of_cents 25))
      (add (add zero (of_cents 10)) (of_cents 20))
  = true
  /\ cents_of (of_cents 5) + cents_of (of_cents 25)
     = cents_of (of_cents 10) + cents_of (of_cents 20).
Proof. vm_compute. split; reflexivity. Qed.

(** ** The session round trip *)

(** What a successful login leaves behind. *)
Lemma login_successful (email_ password_ : string) (ls : Auth.Storage)
    (st : Auth.AuthState) (welcome : string) (ls' : Auth.Storage)
    (st' : Auth.AuthState) :
  Auth.login email_ password_ ls st
  = (Auth.mkToast "Login successful" welcome, ls', st') ->
  exists found : Auth.MockUser,
    In found Auth.MOCK_USERS
    /\ Auth.email (Auth.account found) = email_
    /\ Auth.password found = password_
    /\ st' = Auth.mkAuthState (Some (Auth.account found)) false
    /\ ls' = <["fintech_user" :=
                 Auth.stringify (Auth.json_of_user (Auth.account found))]>
               (<["fintech_token" :=
                    Auth.btoa
                      (Auth.stringify
                         (Auth.JObject
                            [ ("id",
                               Auth.JString (Auth.id (Auth.account found)));
                              ("email",
                               Auth.JString
                                 (Auth.email (Auth.account found)));
                              ("role",
                               Auth.JString
                                 (Auth.role_text
                                    (Auth.role (Auth.account found)))) ]))]>
                  ls).
Proof.
  unfold Auth.login.
  destruct (List.find _ Auth.MOCK_USERS) as [found|] eqn:Hfind;
    [|discriminate].
  intros H. injection H as _ <- <-.
  apply find_some in Hfind. destruct Hfind as (Hin & Hmatch).
  apply andb_prop in Hmatch. destruct Hmatch as (He & Hp).
  apply String.eqb_eq in He, Hp.
  exists found. repeat split; assumption.
Qed.

(** C9: after a successful login, a provider that starts again on the same
    session store finds the token, so that [checkToken()] is true, and
    restores from the stored text the very user that the login had set. *)
Theorem session_round_trip (email_ password_ : string) (ls : Auth.Storage)
    (st : Auth.AuthState) (welcome : string) (ls' : Auth.Storage)
    (st' : Auth.AuthState) :
  Auth.login email_ password_ ls st
  = (Auth.mkToast "Login successful" welcome, ls', st') ->
  Auth.checkToken ls' = true
  /\ is_Some (Auth.currentUser st')
  /\ Auth.currentUser (Auth.checkAuth ls' Auth.initialAuthState)
     = Auth.currentUser st'.
Proof.
  intros H.
  destruct (login_successful _ _ _ _ _ _ _ H)
    as (found & Hin & _ & _ & -> & ->).
  unfold Auth.checkToken, Auth.checkAuth.
  rewrite lookup_insert_ne by discriminate.
  rewrite !lookup_insert_eq.
  destruct Hin as [<-|[<-|[]]]; vm_compute; repeat split; eauto.
Qed.

(** The demo user logs in on an empty store. *)
Lemma session_round_trip_witness :
  Auth.checkToken
    (Auth.login "demo@example.com" "password" ∅ Auth.initialAuthState).1.2
  = true
  /\ Auth.currentUser
       (Auth.checkAuth
          (Auth.login "demo@example.com" "password" ∅
             Auth.initialAuthState).1.2
          Auth.initialAuthState)
     = Some (Auth.mkUser "user-1" "demo@example.com" "Demo User" Auth.user
               false None None).
Proof.
  destruct (session_round_trip "demo@example.com" "password" ∅
              Auth.initialAuthState "Welcome back, Demo User!"
              (Auth.login "demo@example.com" "password" ∅
                 Auth.initialAuthState).1.2
              (Auth.mkAuthState
                 (Some (Auth.mkUser "user-1" "demo@example.com" "Demo User"
                          Auth.user false None None))
                 false))
    as (Htoken & _ & Huser).
  - vm_compute. reflexivity.
  - split; [exact Htoken|exact Huser].
Defined.

(** ** The order of the log *)

Lemma insertNewestFirst_head (tx : Transaction.t) (l : list Transaction.t) :
  exists z rest,
    insertNewestFirst tx l = z :: rest
    /\ (z = tx \/ exists rest', l = z :: rest').
Proof.
  destruct l as [|y l]; simpl.
  - exists tx, []. auto.
  - destruct (Transaction.date tx <? Transaction.date y).
    + exists y, (insertNewestFirst tx l). split; [reflexivity|].
      right. exists l. reflexivity.
    + exists tx, (y :: l). auto.
Qed.

Lemma insertNewestFirst_sorted (tx : Transaction.t) (l : list Transaction.t) :
  newestFirst l -> newestFirst (insertNewestFirst tx l).
Proof.
  induction l as [|y l IH]; intros Hl; simpl.
  - auto.
  - destruct (Z.ltb_spec (Transaction.date tx) (Transaction.date y)) as [Hlt|Hge].
    + destruct Hl as [Hy Hl]. specialize (IH Hl).
      destruct (insertNewestFirst_head tx l) as (z & rest & Heq & Hz).
      rewrite Heq in *. split; [|exact IH].
      destruct Hz as [->|[rest' ->]]; [lia|exact Hy].
    + split; [lia|exact Hl].
Qed.

Lemma insertNewestFirst_perm (tx : Transaction.t) (l : list Transaction.t) :
  insertNewestFirst tx l ≡ₚ tx :: l.
Proof.
  induction l as [|y l IH]; simpl; [reflexivity|].
  destruct (Transaction.date tx <? Transaction.date y); [|reflexivity].
  rewrite IH. apply Permutation_swap.
Qed.

(** The generated history is sorted newest first and holds one transaction
    for each turn of the loop. *)
Lemma generateTransactions_sorted (draws : list Draws) :
  newestFirst (generateTransactions draws)
  /\ generateTransactions draws ≡ₚ imap generatedTransaction draws
  /\ length (generateTransactions draws) = length draws.
Proof.
  unfold generateTransactions, sortNewestFirst.
  assert (forall l : list Transaction.t,
             newestFirst (foldr insertNewestFirst [] l)
             /\ foldr insertNewestFirst [] l ≡ₚ l) as Hsort.
  { induction l as [|x l [IHs IHp]]; simpl; [auto|]. split.
    - apply insertNewestFirst_sorted. exact IHs.
    - rewrite insertNewestFirst_perm, IHp. reflexivity. }
  destruct (Hsort (imap generatedTransaction draws)) as [Hs Hp].
  split; [exact Hs|]. split; [exact Hp|].
  rewrite Hp. apply length_imap.
Qed.

(** A transfer whose date is not before the newest date of the log keeps
    the log sorted. *)
Lemma transferFunds_keeps_newest_first (now txDate txNow : Z)
    (fromId toId : string) (amount : number) (st : Store) :
  newestFirst (mockTransactions st) ->
  (forall tx, head (mockTransactions st) = Some tx ->
              Transaction.date tx <= txDate) ->
  newestFirst
    (mockTransactions
       (transferFunds now txDate txNow fromId toId amount st).2).
Proof.
  intros Hsorted Hclock.
  destruct (transferFunds now txDate txNow fromId toId amount st)
    as [[r|e] st'] eqn:Hcall; simpl.
  - destruct (transferFunds_Return _ _ _ _ _ _ _ _ _ Hcall)
      as (i & j & _ & _ & _ & _ & _ & -> & _).
    simpl. split; [lia|]. split; [|exact Hsorted].
    destruct (mockTransactions st) as [|tx l]; [exact I|].
    apply Hclock. reflexivity.
  - destruct (transferFunds_Throw _ _ _ _ _ _ _ _ _ Hcall) as (_ & -> & _).
    exact Hsorted.
Qed.

(** A page of a log that is sorted newest first is sorted newest first. *)
Lemma newestFirst_page (n k : nat) (l : list Transaction.t) :
  newestFirst l -> newestFirst (take n (drop k l)).
Proof.
  intros Hl.
  assert (newestFirst (drop k l)) as Hd.
  { revert l Hl. induction k as [|k IH]; intros [|x l] Hl; simpl; auto.
    apply IH. apply Hl. }
  revert n. induction (drop k l) as [|x l' IH]; intros [|n]; simpl; auto.
  destruct Hd as [Hx Hd]. split; [|apply IH; exact Hd].
  destruct l' as [|y l'']; [destruct n; exact I|].
  destruct n; simpl; [exact I|exact Hx].
Qed.

(** ** The total of the seeded ledger *)

Lemma totalCents_ge (accs : list Account.t) :
  Forall (λ acc, 0 <= cents_of (Account.balance acc)) accs ->
  forall (j : nat) (y : Account.t),
    accs !! j = Some y -> cents_of (Account.balance y) <= totalCents accs.
Proof.
  unfold totalCents.
  induction 1 as [|a accs Ha Haccs IH]; intros [|j] y Hy;
    try discriminate; simpl in *.
  - injection Hy as ->.
    assert (0 <= foldr (λ acc sum, cents_of (Account.balance acc) + sum)
                   0 accs) as Hsum.
    { clear IH. induction Haccs; simpl; lia. }
    lia.
  - specialize (IH j y Hy). lia.
Qed.

Lemma ledgerInCents_cents (total : Z) (accs : list Account.t) (i : nat)
    (x : Account.t) :
  total <= 2 ^ 48 -> ledgerInCents total accs -> accs !! i = Some x ->
  0 <= cents_of (Account.balance x) <= total
  /\ Account.balance x = of_cents (cents_of (Account.balance x)).
Proof.
  intros Htotal [Hall _] Hx.
  destruct (Forall_lookup_1 _ _ _ _ Hall Hx) as (n & Hn & Hb).
  JSNumberFacts.pow_literals.
  rewrite (wholeCents_cents _ n ltac:(JSNumberFacts.pow_literals; lia) Hb).
  split; [exact Hn|exact Hb].
Qed.

(** One call with a whole-cent amount that is not negative keeps the
    ledger in whole cents, between 0 and the total, with the same total. *)
Lemma transferFunds_keeps_ledgerInCents (total : Z) (now txDate txNow : Z)
    (fromId toId : string) (amount : number) (st : Store) :
  total <= 2 ^ 48 ->
  (exists k : Z, 0 <= k <= 2 ^ 48 /\ amount = of_cents k) ->
  ledgerInCents total (mockAccounts st) ->
  ledgerInCents total
    (mockAccounts (transferFunds now txDate txNow fromId toId amount st).2).
Proof.
  intros Htotal (k & Hk & ->) Hinv.
  destruct (transferFunds now txDate txNow fromId toId (of_cents k) st)
    as [[r|e] st'] eqn:Hcall; simpl.
  2:{ destruct (transferFunds_Throw _ _ _ _ _ _ _ _ _ Hcall) as (-> & _).
      exact Hinv. }
  assert (Forall (λ acc, wholeCents (Account.balance acc)) (mockAccounts st))
    as Hwhole.
  { destruct Hinv as [Hall _]. eapply Forall_impl; [exact Hall|].
    intros acc (n & Hn & Hb). exists n. split; [lia|exact Hb]. }
  destruct (transferFunds_whole_cents _ _ _ _ _ k _ _ _ Hwhole
              ltac:(lia) Hcall)
    as (i & j & x & y & n & m & Hx & Hy & Hbx & Hn & Hby & Hm & Hkn & Hst').
  destruct Hst' as [[_ ->]|[Hij ->]]; [exact Hinv|].
  destruct (ledgerInCents_cents _ _ _ _ Htotal Hinv Hx) as (Hcx & _).
  destruct (ledgerInCents_cents _ _ _ _ Htotal Hinv Hy) as (Hcy & _).
  JSNumberFacts.pow_literals.
  rewrite (wholeCents_cents _ n ltac:(JSNumberFacts.pow_literals; lia) Hbx)
    in Hcx.
  rewrite (wholeCents_cents _ m ltac:(JSNumberFacts.pow_literals; lia) Hby)
    in Hcy.
  destruct Hinv as [Hall Htot].
  set (x0 := Account.set_balance (of_cents 0) x).
  assert (n + m <= total) as Hsum.
  { assert (totalCents (<[i := x0]> (mockAccounts st)) = total - n) as Ht0.
    { rewrite (totalCents_insert _ _ _ _ Hx), Htot.
      change (Account.balance x0) with (of_cents 0).
      rewrite (wholeCents_cents _ n
                 ltac:(JSNumberFacts.pow_literals; lia) Hbx).
      rewrite JSNumberFacts.cents_of_of_cents
        by (JSNumberFacts.pow_literals; lia).
      lia. }
    assert (cents_of (Account.balance y)
            <= totalCents (<[i := x0]> (mockAccounts st))) as Hle.
    { apply totalCents_ge with (j := j).
      - apply Forall_insert.
        + eapply Forall_impl; [exact Hall|].
          intros acc (c & Hc & Hb).
          rewrite (wholeCents_cents _ c
                     ltac:(JSNumberFacts.pow_literals; lia) Hb).
          lia.
        + change (Account.balance x0) with (of_cents 0).
          rewrite JSNumberFacts.cents_of_of_cents
            by (JSNumberFacts.pow_literals; lia).
          lia.
      - rewrite list_lookup_insert_ne by exact Hij. exact Hy. }
    rewrite (wholeCents_cents _ m
               ltac:(JSNumberFacts.pow_literals; lia) Hby) in Hle.
    lia. }
  split.
  - apply Forall_insert; [apply Forall_insert; [exact Hall|]|].
    + exists (n - k). split; [lia|reflexivity].
    + exists (m + k). split; [lia|reflexivity].
  - assert (<[i := Account.set_balance (of_cents (n - k)) x]>
              (mockAccounts st) !! j = Some y) as Hy1.
    { rewrite list_lookup_insert_ne by exact Hij. exact Hy. }
    rewrite (totalCents_insert _ _ _ _ Hy1), (totalCents_insert _ _ _ _ Hx).
    change (Account.balance (Account.set_balance (of_cents (m + k)) y))
      with (of_cents (m + k)).
    change (Account.balance (Account.set_balance (of_cents (n - k)) x))
      with (of_cents (n - k)).
    rewrite (wholeCents_cents _ n
               ltac:(JSNumberFacts.pow_literals; lia) Hbx).
    rewrite (wholeCents_cents _ m
               ltac:(JSNumberFacts.pow_literals; lia) Hby).
    rewrite !JSNumberFacts.cents_of_of_cents
      by (JSNumberFacts.pow_literals; lia).
    lia.
Qed.

Lemma seeded_ledgerInCents : ledgerInCents 1798115 seededAccounts.
Proof.
  split; [|vm_compute; reflexivity].
  constructor; [exists 524575; split; [lia|reflexivity]|].
  constructor; [exists 1273540; split; [lia|reflexivity]|].
  constructor.
Qed.

(** From the seeded ledger, whatever transfers of whole-cent amounts that
    are not negative are called, with whatever account ids, after each call
    the two balances are two-decimal values between 0 and 17981.15 that add
    up to 17981.15. *)
Theorem seeded_ledger_keeps_its_total (generated : list Transaction.t)
    (calls : list TransferCall) (k : nat) :
  Forall (λ c, exists n : Z,
                 0 <= n <= 2 ^ 48 /\ call_amount c = of_cents n) calls ->
  ledgerInCents 1798115
    (mockAccounts (runTransfers (take k calls) (initialStore generated))).
Proof.
  intros Hcalls.
  assert (forall (cs : list TransferCall) (st : Store),
             Forall (λ c, exists n : Z,
                            0 <= n <= 2 ^ 48 /\ call_amount c = of_cents n)
                    cs ->
             ledgerInCents 1798115 (mockAccounts st) ->
             ledgerInCents 1798115 (mockAccounts (runTransfers cs st)))
    as Hrun.
  { induction cs as [|c cs IH]; intros st Hcs Hinv; simpl; [exact Hinv|].
    inversion Hcs as [|? ? Hc Hrest]; subst.
    apply IH; [exact Hrest|].
    apply transferFunds_keeps_ledgerInCents;
      [JSNumberFacts.pow_literals; lia|exact Hc|exact Hinv]. }
  apply Hrun; [apply Forall_take; exact Hcalls|exact seeded_ledgerInCents].
Qed.

(** ** Pages of the log *)

(** No call but a transfer that goes through touches the log. *)
Lemma runCall_log (c : ServiceCall) (st : Store) :
  match c with
  | CallTransferFunds _ => True
  | _ => mockTransactions (runCall c st) = mockTransactions st
  end.
Proof.
  destruct c as [t| |now|now page pageSize|c|now r1 r2 r3 d i s e];
    try reflexivity; try exact I; cbn [runCall].
  - unfold getBalance. destruct (enter_lists now st) as (_ & Hlog & _).
    destruct (enter now st) as [[] st1]; exact Hlog.
  - unfold getTransactions. destruct (enter_lists now st) as (_ & Hlog & _).
    destruct (enter now st) as [[] st1]; exact Hlog.
  - unfold apiGenerateInvoice.
    destruct (enter_lists now st) as (_ & Hlog & _).
    destruct (enter now st) as [[] st1]; exact Hlog.
Qed.

(** With a clock that does not run backwards the log stays sorted, newest
    first, whatever the calls and whether they return or throw. *)
Lemma runCalls_newest_first (calls : list ServiceCall) :
  forall st : Store,
    newestFirst (mockTransactions st) -> clockNotBehind calls st ->
    newestFirst (mockTransactions (runCalls calls st)).
Proof.
  induction calls as [|c calls IH]; intros st Hsorted Hclock;
    [exact Hsorted|].
  destruct Hclock as (Hc & Hrest). apply IH; [|exact Hrest].
  pose proof (runCall_log c st) as Hlog.
  destruct c as [t| |now|now page pageSize|c|now r1 r2 r3 d i s e];
    try (rewrite Hlog; exact Hsorted).
  apply transferFunds_keeps_newest_first; assumption.
Qed.

(** A transfer that goes through with a date before the newest record
    leaves a log that is not sorted: the condition on the clock is
    needed. *)
Lemma transfer_dated_before_newest_breaks_order (now txDate txNow : Z)
    (fromId toId : string) (amount : number) (st : Store)
    (r : TransferResult) (tx : Transaction.t) :
  (transferFunds now txDate txNow fromId toId amount st).1 = Return r ->
  head (mockTransactions st) = Some tx ->
  txDate < Transaction.date tx ->
  ~ newestFirst
      (mockTransactions
         (transferFunds now txDate txNow fromId toId amount st).2).
Proof.
  intros Hret Hhead Hbefore.
  destruct (transferFunds now txDate txNow fromId toId amount st)
    as [o st'] eqn:Hcall.
  cbn [fst snd] in *. subst o.
  destruct (transferFunds_Return _ _ _ _ _ _ _ _ _ Hcall)
    as (i & j & _ & _ & _ & _ & _ & -> & _).
  destruct (mockTransactions st) as [|tx' l]; [discriminate|].
  injection Hhead as ->.
  cbn [newestFirst Transaction.date]. intros (_ & Hdebit & _). lia.
Qed.

(** C5, as the service does it.  For [page >= 1] and [pageSize >= 1], a
    call that the limiter refuses throws "Rate limit exceeded"; a call that
    it admits returns [total], the length of the log, and [data], the
    elements of the log from place [(page-1)*pageSize] up to, not
    including, place [(page-1)*pageSize + pageSize], so [data] has
    [min(pageSize, max(0, total - (page-1)*pageSize))] elements, and none on
    a page past the end; the page of a log that is sorted newest first is
    sorted newest first.  The log itself is not changed.  And the log is
    sorted newest first in every state that calls of the service lead to
    from the generated history, as long as the clock does not run
    backwards. *)
Theorem getTransactions_page (now page pageSize : Z) (st : Store) :
  1 <= page -> 1 <= pageSize ->
  ((checkRateLimit now (api st)).1 = false ->
   (getTransactions now page pageSize st).1 = Throw RateLimited)
  /\ ((checkRateLimit now (api st)).1 = true ->
      exists p : Page,
        (getTransactions now page pageSize st).1 = Return p
        /\ total p = Z.of_nat (length (mockTransactions st))
        /\ data p = take (Z.to_nat pageSize)
                      (drop (Z.to_nat ((page - 1) * pageSize))
                         (mockTransactions st))
        /\ Z.of_nat (length (data p))
           = Z.min pageSize (Z.max 0 (total p - (page - 1) * pageSize))
        /\ (total p <= (page - 1) * pageSize -> data p = [])
        /\ (newestFirst (mockTransactions st) -> newestFirst (data p)))
  /\ mockTransactions (getTransactions now page pageSize st).2
     = mockTransactions st
  /\ (forall (draws : list Draws) (calls : list ServiceCall),
         st = runCalls calls (initialStore (generateTransactions draws)) ->
         clockNotBehind calls (initialStore (generateTransactions draws)) ->
         newestFirst (mockTransactions st)).
Proof.
  intros Hpage Hsize.
  destruct (enter_lists now st) as (_ & Hlog & _ & Hadm).
  split; [|split; [|split]].
  - intros Hno. unfold getTransactions.
    destruct (enter now st) as [ok st1]. cbn [fst] in Hadm.
    rewrite Hadm, Hno. reflexivity.
  - intros Hok. unfold getTransactions.
    destruct (enter now st) as [ok st1]. cbn [fst snd] in *.
    rewrite Hadm, Hok. cbn [negb fst]. rewrite Hlog.
    eexists. split; [reflexivity|]. cbn [total data].
    assert (0 <= (page - 1) * pageSize) as Hstart by nia.
    rewrite slice_take_drop by lia.
    split; [reflexivity|]. split; [reflexivity|].
    split; [|split].
    + rewrite length_take, length_drop. lia.
    + intros Hout. rewrite drop_ge by lia. apply take_nil.
    + apply newestFirst_page.
  - pose proof (runCall_log (CallGetTransactions now page pageSize) st)
      as Hkeep.
    exact Hkeep.
  - intros draws calls -> Hclock.
    apply runCalls_newest_first; [|exact Hclock].
    apply generateTransactions_sorted.
Qed.

(** The second page of two of a log of three records: one record, and a
    total of three. *)
Lemma getTransactions_page_witness :
  exists p : Page,
    (getTransactions 1700000000000 2 2
       (initialStore
          [ Transaction.mk "tx-3" 1699990000000 Transaction.debit
              (of_cents 1050) "Transfer" Transaction.completed "Dining";
            Transaction.mk "tx-1" 1699980000000 Transaction.credit
              (of_cents 2599) "Bill payment" Transaction.completed "Travel";
            Transaction.mk "tx-2" 1699970000000 Transaction.debit
              (of_cents 99900) "Service fee" Transaction.pending "Health"
          ])).1 = Return p
    /\ total p = 3 /\ length (data p) = 1%nat.
Proof.
  destruct (getTransactions_page 1700000000000 2 2
              (initialStore
                 [ Transaction.mk "tx-3" 1699990000000 Transaction.debit
                     (of_cents 1050) "Transfer" Transaction.completed
                     "Dining";
                   Transaction.mk "tx-1" 1699980000000 Transaction.credit
                     (of_cents 2599) "Bill payment" Transaction.completed
                     "Travel";
                   Transaction.mk "tx-2" 1699970000000 Transaction.debit
                     (of_cents 99900) "Service fee" Transaction.pending
                     "Health" ]))
    as (_ & Hpage & _); [lia|lia|].
  destruct (Hpage eq_refl) as (p & Hp & Htotal & Hdata & _).
  exists p. split; [exact Hp|]. split; [exact Htotal|].
  rewrite Hdata. reflexivity.
Defined.

(** C5, where the claim fails: the eleventh call within a minute, for the
    first page of ten of a log of three records, returns no page; it throws
    "Rate limit exceeded". *)
Lemma getTransactions_eleventh_call_is_refused :
  (getTransactions 1700000010000 1 10
     (runCalls
        (repeat (CallGetTransactions 1700000000000 1 10) 10)
        (initialStore
           [ Transaction.mk "tx-3" 1699990000000 Transaction.debit
               (of_cents 1050) "Transfer" Transaction.completed "Dining";
             Transaction.mk "tx-1" 1699980000000 Transaction.credit
               (of_cents 2599) "Bill payment" Transaction.completed "Travel";
             Transaction.mk "tx-2" 1699970000000 Transaction.debit
               (of_cents 99900) "Service fee" Transaction.pending "Health"
           ]))).1
  = Throw RateLimited.
Proof. reflexivity. Qed.

(** ** More on the rate limiter *)

(** While the counter has room, calls are admitted whatever their times. *)
Lemma limiter_room (ts : list Z) :
  forall s : ApiService,
    0 <= requestCount s ->
    requestCount s + Z.of_nat (length ts) <= 10 ->
    Forall (λ ok, ok = true) (limiterAnswers ts s).
Proof.
  induction ts as [|t ts IH]; intros s H0 Hroom; simpl; [constructor|].
  destruct (checkRateLimit_state t s) as (_ & Hcnt & Hok).
  destruct (checkRateLimit t s) as [ok s'] eqn:Hstep. simpl in *.
  assert (1 <= requestCount s' <= requestCount s + 1) as Hs'.
  { rewrite Hcnt. destruct (t - lastRequestTime s >? 60000); lia. }
  constructor.
  - rewrite Hok. destruct (Z.gtb_spec (requestCount s') 10); [lia|reflexivity].
  - apply IH; lia.
Qed.

(** X1: a call that comes more than 60 seconds after the previous call is
    admitted, whatever the counter was, and so are the nine calls after it,
    whatever their times. *)
Theorem limiter_reopens_after_idle_minute (s : ApiService) (t : Z)
    (ts : list Z) :
  t - lastRequestTime s > 60000 ->
  (length ts <= 9)%nat ->
  Forall (λ ok, ok = true) (limiterAnswers (t :: ts) s).
Proof.
  intros Hidle Hlen. simpl.
  destruct (checkRateLimit_state t s) as (_ & Hcnt & Hok).
  destruct (checkRateLimit t s) as [ok s'] eqn:Hstep. simpl in *.
  destruct (Z.gtb_spec (t - lastRequestTime s) 60000) as [_|]; [|lia].
  constructor.
  - rewrite Hok, Hcnt. reflexivity.
  - apply limiter_room; lia.
Qed.

(** A limiter blocked for good lets a client in again after a pause. *)
Lemma limiter_reopens_after_idle_minute_witness :
  Forall (λ ok, ok = true)
    (limiterAnswers
       [ 1700000100001; 1700000100002; 1700000100003; 1700000900000 ]
       (mkApi None 250 1700000040000 1700000060000)).
Proof.
  apply limiter_reopens_after_idle_minute; [simpl; lia|simpl; lia].
Defined.

(** Without a reset the counter only grows. *)
Lemma limiter_counts_up (ts : list Z) :
  forall (s : ApiService) (c : Z) (j : nat) (ok : bool),
    c <= requestCount s ->
    closelySpaced (lastRequestTime s) ts ->
    limiterAnswers ts s !! j = Some ok ->
    10 <= c + Z.of_nat j ->
    ok = false.
Proof.
  induction ts as [|t ts IH]; intros s c j ok Hc Hts Hj Hlate;
    simpl in *; [discriminate|].
  destruct Hts as [Hgap Hrest].
  destruct (checkRateLimit_state t s) as (Hlast & Hcnt & Hok).
  destruct (checkRateLimit t s) as [ok' s'] eqn:Hstep. simpl in *.
  destruct (Z.gtb_spec (t - lastRequestTime s) 60000) as [|_]; [lia|].
  destruct j as [|j]; simpl in Hj.
  - injection Hj as <-. rewrite Hok.
    destruct (Z.gtb_spec (requestCount s') 10); [reflexivity|lia].
  - apply (IH s' (c + 1) j ok); [lia| |exact Hj|lia].
    rewrite Hlast. exact Hrest.
Qed.

(** X2: when each call comes less than 60 seconds after the one before it,
    the eleventh call and every later one are rejected, whatever the state
    of the limiter was before the first of them (its counter is never
    negative). *)
Theorem limiter_rejects_from_the_eleventh (s : ApiService) (t : Z)
    (ts : list Z) :
  0 <= requestCount s ->
  closelySpaced t ts ->
  Forall (λ ok, ok = false) (drop 10 (limiterAnswers (t :: ts) s)).
Proof.
  intros H0 Hts. simpl.
  destruct (checkRateLimit_state t s) as (Hlast & Hcnt & _).
  destruct (checkRateLimit t s) as [ok s'] eqn:Hstep. simpl in *.
  assert (1 <= requestCount s') as H1.
  { rewrite Hcnt. destruct (t - lastRequestTime s >? 60000); lia. }
  apply Forall_lookup. intros j ok' Hj.
  rewrite lookup_drop in Hj.
  apply (limiter_counts_up ts s' 1 (9 + j) ok'); [lia| |exact Hj|lia].
  rewrite Hlast. exact Hts.
Qed.

(** Twelve calls one second apart on a fresh service. *)
Lemma limiter_rejects_from_the_eleventh_witness :
  Forall (λ ok, ok = false)
    (drop 10
       (limiterAnswers
          [ 1700000000000; 1700000001000; 1700000002000; 1700000003000;
            1700000004000; 1700000005000; 1700000006000; 1700000007000;
            1700000008000; 1700000009000; 1700000010000; 1700000011000 ]
          (api (initialStore [])))).
Proof.
  apply limiter_rejects_from_the_eleventh; [simpl; lia|simpl; lia].
Defined.

Lemma checkRateLimit_sameLimiter (now : Z) (s s' : ApiService) :
  sameLimiter s s' ->
  (checkRateLimit now s).1 = (checkRateLimit now s').1
  /\ sameLimiter (checkRateLimit now s).2 (checkRateLimit now s').2.
Proof.
  destruct s as [tk c l r], s' as [tk' c' l' r'].
  intros [Hc Hl]. simpl in Hc, Hl. subst c' l'.
  unfold checkRateLimit, sameLimiter. simpl.
  destruct (now - l >? 60000); simpl.
  - split; [reflexivity|split; reflexivity].
  - destruct (c + 1 >? 10); simpl;
      (split; [reflexivity|split; reflexivity]).
Qed.

Lemma enter_sameButTokenAndReset (now : Z) (st st' : Store) :
  sameButTokenAndReset st st' ->
  (enter now st).1 = (enter now st').1
  /\ sameButTokenAndReset (enter now st).2 (enter now st').2.
Proof.
  intros (Hlim & Haccs & Hlog).
  destruct (checkRateLimit_sameLimiter now _ _ Hlim) as (Hok & Hlim').
  unfold enter, sameButTokenAndReset.
  destruct (checkRateLimit now (api st)) as [ok s],
           (checkRateLimit now (api st')) as [ok' s']. simpl in *.
  auto.
Qed.

(** X3: no operation reads the token or the reset time: on two stores that
    differ at most in these two fields, each of the four operations gives
    the same outcome and leaves stores that again differ at most in these
    two fields. *)
Theorem operations_never_read_token_or_reset (now : Z) (st st' : Store) :
  sameButTokenAndReset st st' ->
  ((getBalance now st).1 = (getBalance now st').1
   /\ sameButTokenAndReset (getBalance now st).2 (getBalance now st').2)
  /\ (forall page pageSize,
         (getTransactions now page pageSize st).1
         = (getTransactions now page pageSize st').1
         /\ sameButTokenAndReset (getTransactions now page pageSize st).2
              (getTransactions now page pageSize st').2)
  /\ (forall txDate txNow fromId toId amount,
         (transferFunds now txDate txNow fromId toId amount st).1
         = (transferFunds now txDate txNow fromId toId amount st').1
         /\ sameButTokenAndReset
              (transferFunds now txDate txNow fromId toId amount st).2
              (transferFunds now txDate txNow fromId toId amount st').2)
  /\ (forall r1 r2 r3 currentDate nowId startDate endDate,
         (apiGenerateInvoice now r1 r2 r3 currentDate nowId startDate
            endDate st).1
         = (apiGenerateInvoice now r1 r2 r3 currentDate nowId startDate
              endDate st').1
         /\ sameButTokenAndReset
              (apiGenerateInvoice now r1 r2 r3 currentDate nowId startDate
                 endDate st).2
              (apiGenerateInvoice now r1 r2 r3 currentDate nowId startDate
                 endDate st').2).
Proof.
  intros Hsame.
  destruct (enter_sameButTokenAndReset now _ _ Hsame) as (Hok & Hsame').
  unfold getBalance, getTransactions, transferFunds, apiGenerateInvoice.
  destruct (enter now st) as [ok st1], (enter now st') as [ok' st1'].
  simpl in Hok, Hsame'. subst ok'.
  destruct Hsame' as (Hlim & Haccs & Hlog).
  destruct ok; simpl.
  2:{ repeat split; intros; try reflexivity; try assumption;
        try apply Hlim. }
  rewrite <- Haccs, <- Hlog.
  split; [split; [reflexivity|repeat split; try apply Hlim; assumption]|].
  split; [intros; split; [reflexivity|
                          repeat split; try apply Hlim; assumption]|].
  split; [|intros; split; [reflexivity|
                           repeat split; try apply Hlim; assumption]].
  intros txDate txNow fromId toId amount.
  destruct (findAccount fromId (mockAccounts st1)) as [i|];
    [|split; [reflexivity|repeat split; try apply Hlim; assumption]].
  destruct (findAccount toId (mockAccounts st1)) as [j|];
    [|split; [reflexivity|repeat split; try apply Hlim; assumption]].
  destruct (ltb (balanceAt i (mockAccounts st1)) amount);
    (split; [reflexivity|]); repeat split; simpl;
    try apply Hlim; try assumption; try reflexivity.
Qed.

(** A store with a token set, against the same store without. *)
Lemma operations_never_read_token_or_reset_witness :
  (transferFunds 1700000000000 1700000001000 1700000001001 "acc-1" "acc-2"
     (of_Z 100)
     (mkStore (setToken "eyJpZCI6InVzZXItMSJ9" (api (initialStore [])))
        seededAccounts [])).1
  = (transferFunds 1700000000000 1700000001000 1700000001001 "acc-1" "acc-2"
       (of_Z 100) (initialStore [])).1
  /\ sameButTokenAndReset
       (transferFunds 1700000000000 1700000001000 1700000001001 "acc-1"
          "acc-2" (of_Z 100)
          (mkStore (setToken "eyJpZCI6InVzZXItMSJ9" (api (initialStore [])))
             seededAccounts [])).2
       (transferFunds 1700000000000 1700000001000 1700000001001 "acc-1"
          "acc-2" (of_Z 100) (initialStore [])).2.
Proof.
  exact (proj1 (proj2 (proj2 (operations_never_read_token_or_reset
                                1700000000000
                                (mkStore
                                   (setToken "eyJpZCI6InVzZXItMSJ9"
                                      (api (initialStore [])))
                                   seededAccounts [])
                                (initialStore [])
                                ltac:(repeat split)))) 1700000001000
           1700000001001 "acc-1" "acc-2" (of_Z 100)).
Defined.

(** ** More on transfers *)

Lemma holder_alter (g : Account.t -> number) (accs : list Account.t) :
  forall i : nat,
    map holder (alter (λ acc, Account.set_balance (g acc) acc) i accs)
    = map holder accs.
Proof.
  induction accs as [|a accs IH]; intros [|i]; simpl; try reflexivity.
  change (list_alter (λ acc, Account.set_balance (g acc) acc) i accs)
    with (alter (λ acc, Account.set_balance (g acc) acc) i accs).
  rewrite IH. reflexivity.
Qed.

Lemma transferFunds_holders (now txDate txNow : Z) (fromId toId : string)
    (amount : number) (st : Store) :
  map holder
    (mockAccounts (transferFunds now txDate txNow fromId toId amount st).2)
  = map holder (mockAccounts st).
Proof.
  destruct (transferFunds now txDate txNow fromId toId amount st)
    as [[r|e] st'] eqn:Hcall; simpl.
  - destruct (transferFunds_Return _ _ _ _ _ _ _ _ _ Hcall)
      as (i & j & _ & _ & _ & _ & -> & _).
    rewrite !holder_alter. reflexivity.
  - destruct (transferFunds_Throw _ _ _ _ _ _ _ _ _ Hcall) as (-> & _).
    reflexivity.
Qed.

(** X4: transfers never add, remove, reorder or rename an account: after
    any sequence of transfer calls, with whatever arguments, the ledger
    holds the same accounts in the same order, with the same ids, names,
    currencies and numbers; only balances can differ. *)
Theorem transfers_keep_the_accounts (calls : list TransferCall) :
  forall st : Store,
    map holder (mockAccounts (runTransfers calls st))
    = map holder (mockAccounts st).
Proof.
  induction calls as [|c calls IH]; intros st; simpl; [reflexivity|].
  rewrite IH. apply transferFunds_holders.
Qed.

(** X5: a transfer call leaves untouched every account whose id is
    neither the source id nor the destination id. *)
Theorem transfer_leaves_other_accounts (now txDate txNow : Z)
    (fromId toId : string) (amount : number) (st : Store) (p : nat)
    (acc : Account.t) :
  mockAccounts st !! p = Some acc ->
  Account.id acc <> fromId -> Account.id acc <> toId ->
  mockAccounts (transferFunds now txDate txNow fromId toId amount st).2 !! p
  = Some acc.
Proof.
  intros Hp Hfrom Hto.
  destruct (transferFunds now txDate txNow fromId toId amount st)
    as [[r|e] st'] eqn:Hcall; simpl.
  - destruct (transferFunds_Return _ _ _ _ _ _ _ _ _ Hcall)
      as (i & j & _ & Hi & Hj & _ & -> & _).
    assert (forall accId k, findAccount accId (mockAccounts st) = Some k ->
                            Account.id acc <> accId -> k <> p) as Hne.
    { intros accId k Hk Hid ->. unfold findAccount in Hk.
      apply fmap_Some in Hk. destruct Hk as ([k' a] & Hfind & Heq).
      simpl in Heq. subst k'. apply list_find_Some in Hfind.
      destruct Hfind as (Ha & Hida & _). congruence. }
    rewrite list_lookup_alter_ne by exact (Hne _ _ Hj Hto).
    rewrite list_lookup_alter_ne by exact (Hne _ _ Hi Hfrom).
    exact Hp.
  - destruct (transferFunds_Throw _ _ _ _ _ _ _ _ _ Hcall) as (-> & _).
    exact Hp.
Qed.

(** A third account next to the two seeded ones. *)
Lemma transfer_leaves_other_accounts_witness :
  mockAccounts
    (transferFunds 1700000000000 1700000001000 1700000001001 "acc-1" "acc-2"
       (of_cents 100)
       (mkStore (mkApi None 0 0 0)
          (Account.mk "acc-3" "Travel Account" zero "USD" "1111111111"
             "072403952" :: seededAccounts) [])).2 !! 0%nat
  = Some (Account.mk "acc-3" "Travel Account" zero "USD" "1111111111"
            "072403952").
Proof.
  apply transfer_leaves_other_accounts;
    [reflexivity|discriminate|discriminate].
Defined.

(** Two-decimal literals and the comparison that guards a transfer. *)
Lemma of_cents_covers (n k : Z) :
  Z.abs n <= 2 ^ 48 -> Z.abs k <= 2 ^ 48 ->
  ltb (of_cents n) (of_cents k) = negb (k <=? n).
Proof.
  intros Hn Hk. JSNumberFacts.pow_literals.
  destruct (Z.leb_spec k n) as [Hle|Hlt]; simpl.
  - destruct (Z.eq_dec n k) as [->|Hne].
    + destruct (JSNumberFacts.of_cents_fin k
                  ltac:(JSNumberFacts.pow_literals; lia)) as (b & -> & _).
      simpl. apply Z.ltb_irrefl.
    + assert (ltb (of_cents k) (of_cents n) = true) as Hkn.
      { apply JSNumberFacts.of_cents_lt;
          JSNumberFacts.pow_literals; lia. }
      destruct (JSNumberFacts.of_cents_fin k
                  ltac:(JSNumberFacts.pow_literals; lia)) as (b & Hb & _).
      destruct (JSNumberFacts.of_cents_fin n
                  ltac:(JSNumberFacts.pow_literals; lia)) as (a & Ha & _).
      rewrite Ha, Hb in *. simpl in *.
      apply Z.ltb_lt in Hkn. apply Z.ltb_ge. lia.
  - apply JSNumberFacts.of_cents_lt; JSNumberFacts.pow_literals; lia.
Qed.

(** The two updates of a transfer of [k] cents from [x], which holds [n]
    cents, to [y], which holds [m] cents. *)
Lemma transfer_updates_in_cents (accs : list Account.t) (i j : nat)
    (x y : Account.t) (n m k : Z) :
  accs !! i = Some x -> accs !! j = Some y ->
  Account.balance x = of_cents n -> Account.balance y = of_cents m ->
  Z.abs n <= 2 ^ 48 -> Z.abs m <= 2 ^ 48 -> Z.abs k <= 2 ^ 48 ->
  alter (λ acc, Account.set_balance
                  (round2 (add (Account.balance acc) (of_cents k))) acc) j
    (alter (λ acc, Account.set_balance
                     (round2 (sub (Account.balance acc) (of_cents k))) acc)
           i accs)
  = if decide (i = j) then accs
    else <[j := Account.set_balance (of_cents (m + k)) y]>
           (<[i := Account.set_balance (of_cents (n - k)) x]> accs).
Proof.
  intros Hx Hy Hbx Hby Hn Hm Hk. JSNumberFacts.pow_literals.
  rewrite (alter_as_insert _ _ _ _ Hx). cbv beta. rewrite Hbx.
  rewrite JSNumberFacts.round2_sub_cents
    by (JSNumberFacts.pow_literals; lia).
  destruct (decide (i = j)) as [<-|Hij].
  - rewrite (alter_as_insert _ _ i (Account.set_balance (of_cents (n - k)) x))
      by (apply list_lookup_insert_eq, (lookup_lt_Some _ _ _ Hx)).
    cbv beta.
    change (Account.balance (Account.set_balance (of_cents (n - k)) x))
      with (of_cents (n - k)).
    rewrite JSNumberFacts.round2_add_cents
      by (JSNumberFacts.pow_literals; lia).
    rewrite list_insert_insert_eq. apply list_insert_id.
    rewrite Hx. f_equal. destruct x as [xi xn xb xc xa xr].
    simpl in Hbx. subst xb. unfold Account.set_balance. simpl.
    f_equal. f_equal. lia.
  - rewrite (alter_as_insert _ _ j y)
      by (rewrite list_lookup_insert_ne by exact Hij; exact Hy).
    cbv beta. rewrite Hby.
    rewrite JSNumberFacts.round2_add_cents
      by (JSNumberFacts.pow_literals; lia).
    reflexivity.
Qed.

(** An admitted transfer of [k] cents between two accounts that exist,
    spelled out. *)
Lemma transferFunds_in_cents (now txDate txNow : Z) (fromId toId : string)
    (st : Store) (i j : nat) (x y : Account.t) (n m k : Z) :
  (checkRateLimit now (api st)).1 = true ->
  list_find (λ acc, Account.id acc = fromId) (mockAccounts st)
  = Some (i, x) ->
  list_find (λ acc, Account.id acc = toId) (mockAccounts st) = Some (j, y) ->
  Account.balance x = of_cents n -> Account.balance y = of_cents m ->
  Z.abs n <= 2 ^ 48 -> Z.abs m <= 2 ^ 48 -> Z.abs k <= 2 ^ 48 ->
  transferFunds now txDate txNow fromId toId (of_cents k) st
  = if k <=? n
    then
      (Return (mkTransferResult true (of_cents k) (Account.name x)
                 (Account.name y)),
       mkStore (checkRateLimit now (api st)).2
         (if decide (i = j) then mockAccounts st
          else <[j := Account.set_balance (of_cents (m + k)) y]>
                 (<[i := Account.set_balance (of_cents (n - k)) x]>
                    (mockAccounts st)))
         (Transaction.mk (("tx-" +:+ pretty txNow) +:+ "-credit") txDate
            Transaction.credit (of_cents k)
            ("Transfer from " +:+ Account.name x) Transaction.completed
            "Transfer"
          :: Transaction.mk (("tx-" +:+ pretty txNow) +:+ "-debit") txDate
               Transaction.debit (of_cents k)
               ("Transfer to " +:+ Account.name y) Transaction.completed
               "Transfer"
          :: mockTransactions st))
    else
      (Throw InsufficientFunds,
       mkStore (checkRateLimit now (api st)).2 (mockAccounts st)
         (mockTransactions st)).
Proof.
  intros Hadm Hfx Hfy Hbx Hby Hn Hm Hk.
  destruct (findAccount_Some _ _ _ _ Hfx) as (Hi & Hbi).
  destruct (findAccount_Some _ _ _ _ Hfy) as (Hj & _).
  apply list_find_Some in Hfx, Hfy.
  destruct Hfx as (Hx & _), Hfy as (Hy & _).
  unfold transferFunds, enter.
  destruct (checkRateLimit now (api st)) as [ok s1]. simpl in Hadm.
  subst ok. cbn [negb mockAccounts mockTransactions api fst snd].
  rewrite Hi, Hj, Hbi, Hbx, (of_cents_covers n k Hn Hk).
  destruct (k <=? n); cbn [negb]; [|reflexivity].
  rewrite (transfer_updates_in_cents _ _ _ _ _ _ _ _ Hx Hy Hbx Hby Hn Hm Hk).
  assert (forall p z, mockAccounts st !! p = Some z ->
            nameAt p
              (if decide (i = j) then mockAccounts st
               else <[j := Account.set_balance (of_cents (m + k)) y]>
                      (<[i := Account.set_balance (of_cents (n - k)) x]>
                         (mockAccounts st)))
            = nameAt p (mockAccounts st)) as Hname.
  { intros p z Hp. unfold nameAt. destruct (decide (i = j)); [reflexivity|].
    rewrite !list_lookup_insert.
    pose proof (lookup_lt_Some _ _ _ Hx). pose proof (lookup_lt_Some _ _ _ Hy).
    rewrite length_insert.
    repeat case_decide; try reflexivity; try lia.
    - destruct H1 as [-> _]. rewrite Hy. reflexivity.
    - destruct H2 as [-> _]. rewrite Hx. reflexivity. }
  rewrite (Hname _ _ Hx), (Hname _ _ Hy).
  unfold nameAt. rewrite Hx, Hy. reflexivity.
Qed.







Lemma findAccount_is_Some (accId : string) (accs : list Account.t) :
  accId ∈ map Account.id accs ->
  exists (i : nat) (acc : Account.t),
    findAccount accId accs = Some i /\ accs !! i = Some acc.
Proof.
  intros Hin. destruct (findAccount accId accs) as [i|] eqn:Hi.
  - destruct (findAccount_lookup _ _ _ Hi) as (acc & Hacc). eauto.
  - apply findAccount_None in Hi. contradiction.
Qed.

(** X9: an amount that is not a number passes the only guard: an admitted
    transfer of NaN between two accounts that exist goes through and
    leaves both of them with a balance of NaN. *)
Theorem transfer_of_NaN_poisons_balances (now txDate txNow : Z)
    (fromId toId : string) (st : Store) :
  (checkRateLimit now (api st)).1 = true ->
  fromId ∈ map Account.id (mockAccounts st) ->
  toId ∈ map Account.id (mockAccounts st) ->
  exists (i j : nat) (r : TransferResult),
    findAccount fromId (mockAccounts st) = Some i
    /\ findAccount toId (mockAccounts st) = Some j
    /\ (transferFunds now txDate txNow fromId toId NaN st).1 = Return r
    /\ balanceAt i
         (mockAccounts (transferFunds now txDate txNow fromId toId NaN st).2)
       = NaN
    /\ balanceAt j
         (mockAccounts (transferFunds now txDate txNow fromId toId NaN st).2)
       = NaN.
Proof.
  intros Hadm Hfrom Hto.
  destruct (findAccount_is_Some _ _ Hfrom) as (i & x & Hi & Hx).
  destruct (findAccount_is_Some _ _ Hto) as (j & y & Hj & Hy).
  exists i, j.
  destruct (enter_lists now st) as (Haccs & _ & _ & Hent).
  unfold transferFunds.
  destruct (enter now st) as [ok st1]. simpl in Haccs, Hent.
  rewrite Hent, Hadm, Haccs, Hi, Hj. cbn [negb].
  assert (ltb (balanceAt i (mockAccounts st)) NaN = false) as ->.
  { destruct (balanceAt i (mockAccounts st)); reflexivity. }
  eexists. split; [reflexivity|]. split; [reflexivity|].
  split; [reflexivity|]. cbn [snd mockAccounts].
  assert (forall b : number, round2 (sub b NaN) = NaN) as Hsub.
  { intros [| |]; reflexivity. }
  assert (forall b : number, round2 (add b NaN) = NaN) as Hadd.
  { intros [| |]; reflexivity. }
  unfold balanceAt. rewrite !list_lookup_alter.
  split.
  - destruct (decide (j = i)) as [->|Hji].
    + rewrite decide_True by reflexivity. rewrite Hx. simpl.
      apply Hadd.
    + rewrite decide_True by reflexivity. rewrite Hx. simpl. apply Hsub.
  - rewrite decide_True by reflexivity.
    destruct (decide (i = j)) as [->|Hij].
    + rewrite Hx. simpl. apply Hadd.
    + rewrite Hy. simpl. apply Hadd.
Qed.

(** The first call on the seeded store, between its two accounts. *)
Lemma transfer_of_NaN_poisons_balances_witness :
  exists (i j : nat) (r : TransferResult),
    findAccount "acc-1" seededAccounts = Some i
    /\ findAccount "acc-2" seededAccounts = Some j
    /\ (transferFunds 1700000000000 1700000001000 1700000001001 "acc-1"
          "acc-2" NaN (initialStore [])).1 = Return r
    /\ balanceAt i
         (mockAccounts
            (transferFunds 1700000000000 1700000001000 1700000001001 "acc-1"
               "acc-2" NaN (initialStore [])).2)
       = NaN
    /\ balanceAt j
         (mockAccounts
            (transferFunds 1700000000000 1700000001000 1700000001001 "acc-1"
               "acc-2" NaN (initialStore [])).2)
       = NaN.
Proof.
  apply (transfer_of_NaN_poisons_balances 1700000000000 1700000001000
           1700000001001 "acc-1" "acc-2" (initialStore []));
    [reflexivity| |];
    apply list_elem_of_In; simpl; auto.
Defined.

(** ** More on the generated history *)

(** With a value of [Math.random()] the place picked exists. *)
Lemma pick_in (arr : list string) (r : number) :
  unitInterval r ->
  0 < Z.of_nat (length arr) < 2 ^ 53 ->
  pick arr r ∈ arr.
Proof.
  intros (z & -> & Hz & Hbin) Hlen. unfold pick.
  destruct (JSNumberMore.floor_mul_below z (Z.of_nat (length arr)) Hbin Hz
              Hlen) as (q & -> & Hq).
  rewrite JSNumberMore.to_Z_of_Z
    by (apply Z.le_lt_trans with (Z.of_nat (length arr)); lia).
  destruct (lookup_lt_is_Some_2 arr (Z.to_nat q) ltac:(lia)) as (x & Hx).
  rewrite Hx. change (x ∈ arr). apply list_elem_of_lookup. eauto.
Qed.

(** One generated transaction, for draws that are values of
    [Math.random()]. *)
Lemma generatedTransaction_in_range (i : nat) (d : Draws) :
  validDraws d ->
  (exists c : Z,
      Transaction.amount (generatedTransaction i d) = of_cents c
      /\ 1000 <= c <= 51000)
  /\ clock d - 29 * 86400000
     <= Transaction.date (generatedTransaction i d) <= clock d
  /\ Transaction.category (generatedTransaction i d) ∈ categories
  /\ Transaction.description (generatedTransaction i d) ∈ descriptions
  /\ Transaction.status (generatedTransaction i d) <> Transaction.failed.
Proof.
  intros (Hdays & Hamount & Hcat & Hdesc). unfold generatedTransaction.
  cbn [Transaction.amount Transaction.date Transaction.category
       Transaction.description Transaction.status].
  split; [|split; [|split; [|split]]].
  - apply JSNumberMore.random_amount. exact Hamount.
  - destruct Hdays as (z & -> & Hz & Hbin).
    destruct (JSNumberMore.floor_mul_below z 30 Hbin Hz
                ltac:(split; [lia|reflexivity])) as (q & -> & Hq).
    rewrite JSNumberMore.to_Z_of_Z
      by (apply Z.le_lt_trans with 30; [lia|reflexivity]).
    lia.
  - apply pick_in; [exact Hcat|]. split; [reflexivity|reflexivity].
  - apply pick_in; [exact Hdesc|]. split; [reflexivity|reflexivity].
  - destruct (gtb (r_status d) (of_decimal 9 1)); discriminate.
Qed.

(** X10: [generateTransactions] returns one transaction for each turn of
    its loop, the same transactions that the loop built, sorted by date
    with the newest first, and their ids are pairwise different. *)
Theorem generateTransactions_sorted_and_distinct (draws : list Draws) :
  newestFirst (generateTransactions draws)
  /\ generateTransactions draws ≡ₚ imap generatedTransaction draws
  /\ length (generateTransactions draws) = length draws
  /\ NoDup (map Transaction.id (generateTransactions draws)).
Proof.
  destruct (generateTransactions_sorted draws) as (Hs & Hp & Hl).
  split; [exact Hs|]. split; [exact Hp|]. split; [exact Hl|].
  rewrite Hp.
  assert (forall (l : list Draws) (k : nat),
             map Transaction.id (imap (generatedTransaction ∘ Nat.add k) l)
             = map (λ i : nat, "tx-" +:+ pretty (Z.of_nat i + 1))
                 (seq k (length l))) as Hids.
  { induction l as [|d l IH]; intros k; simpl; [reflexivity|].
    f_equal.
    - rewrite Nat.add_0_r. reflexivity.
    - rewrite <- IH. f_equal. apply imap_ext. intros j x _. simpl.
      f_equal. lia. }
  specialize (Hids draws 0%nat).
  rewrite (imap_ext _ generatedTransaction) in Hids
    by (intros; reflexivity).
  rewrite Hids. apply NoDup_fmap_2; [|apply NoDup_seq].
  intros a b Heq. apply (inj (String.app "tx-")) in Heq.
  apply (inj pretty) in Heq. lia.
Qed.



(** ** More on pages *)

(** The answer of a call that the limiter admits. *)
Lemma getTransactions_admitted (now page pageSize : Z) (st : Store) :
  (checkRateLimit now (api st)).1 = true ->
  (getTransactions now page pageSize st).1
  = Return
      (mkPage
         (slice ((page - 1) * pageSize) ((page - 1) * pageSize + pageSize)
            (mockTransactions st))
         (Z.of_nat (length (mockTransactions st)))).
Proof.
  intros Hok.
  destruct (enter_lists now st) as (_ & Hlog & _ & Hadm).
  unfold getTransactions.
  destruct (enter now st) as [ok st1].
  cbn [fst snd] in Hlog, Hadm. rewrite Hadm, Hok. cbn [negb fst].
  rewrite Hlog. reflexivity.
Qed.

Lemma chunks_take {A : Type} (s n : nat) (l : list A) :
  concat (map (λ p, take s (drop ((p - 1) * s) l)) (seq 1 n))
  = take (n * s) l.
Proof.
  induction n as [|n IH]; [reflexivity|].
  rewrite seq_S, map_app, concat_app, IH.
  cbn [map concat Nat.add]. rewrite app_nil_r.
  replace (S n - 1)%nat with n by lia.
  rewrite take_take_drop. f_equal. lia.
Qed.

(** X14: pages [1] to [n] of size [pageSize >= 1], asked one after the
    other of stores with the same log by calls that the limiter admits,
    together are the first [n * pageSize] records of the log in order; when
    [n * pageSize] reaches the length of the log they are the whole log,
    each record once. *)
Theorem pages_cover_the_log (pageSize : Z) (n : nat)
    (log : list Transaction.t) (nows : nat -> Z) (sts : nat -> Store) :
  1 <= pageSize ->
  (forall p : nat,
      mockTransactions (sts p) = log
      /\ (checkRateLimit (nows p) (api (sts p))).1 = true) ->
  concat
    (map (λ p : nat,
            pageData
              (getTransactions (nows p) (Z.of_nat p) pageSize (sts p)).1)
       (seq 1 n))
  = take (n * Z.to_nat pageSize) log
  /\ (Z.of_nat (length log) <= Z.of_nat n * pageSize ->
      concat
        (map (λ p : nat,
                pageData
                  (getTransactions (nows p) (Z.of_nat p) pageSize (sts p)).1)
           (seq 1 n))
      = log).
Proof.
  intros Hsize Hsts.
  assert (concat
            (map (λ p : nat,
                    pageData
                      (getTransactions (nows p) (Z.of_nat p) pageSize
                         (sts p)).1)
               (seq 1 n))
          = take (n * Z.to_nat pageSize) log) as Heq.
  { rewrite <- chunks_take. f_equal. apply map_ext_in.
    intros p Hp. apply in_seq in Hp.
    destruct (Hsts p) as (Hlog & Hadm).
    rewrite (getTransactions_admitted _ _ _ _ Hadm). cbn [pageData data].
    rewrite Hlog, slice_take_drop by nia.
    do 2 f_equal. nia. }
  split; [exact Heq|].
  intros Hall. rewrite Heq. apply take_ge. nia.
Qed.

(** A log of three records read in two pages of two. *)
Lemma pages_cover_the_log_witness :
  concat
    (map (λ p : nat,
            pageData
              (getTransactions 1700000000000 (Z.of_nat p) 2
                 (initialStore
                    [ Transaction.mk "tx-3" 1699990000000 Transaction.debit
                        (of_cents 1050) "Transfer" Transaction.completed
                        "Dining";
                      Transaction.mk "tx-1" 1699980000000 Transaction.credit
                        (of_cents 2599) "Bill payment"
                        Transaction.completed "Travel";
                      Transaction.mk "tx-2" 1699970000000 Transaction.debit
                        (of_cents 99900) "Service fee" Transaction.pending
                        "Health" ])).1)
       (seq 1 2))
  = take (2 * Z.to_nat 2)
      [ Transaction.mk "tx-3" 1699990000000 Transaction.debit
          (of_cents 1050) "Transfer" Transaction.completed "Dining";
        Transaction.mk "tx-1" 1699980000000 Transaction.credit
          (of_cents 2599) "Bill payment" Transaction.completed "Travel";
        Transaction.mk "tx-2" 1699970000000 Transaction.debit
          (of_cents 99900) "Service fee" Transaction.pending "Health" ].
Proof.
  refine (proj1 (pages_cover_the_log 2 2
           [ Transaction.mk "tx-3" 1699990000000 Transaction.debit
               (of_cents 1050) "Transfer" Transaction.completed "Dining";
             Transaction.mk "tx-1" 1699980000000 Transaction.credit
               (of_cents 2599) "Bill payment" Transaction.completed "Travel";
             Transaction.mk "tx-2" 1699970000000 Transaction.debit
               (of_cents 99900) "Service fee" Transaction.pending "Health" ]
           (λ _, 1700000000000)
           (λ _,
              initialStore
                [ Transaction.mk "tx-3" 1699990000000 Transaction.debit
                    (of_cents 1050) "Transfer" Transaction.completed
                    "Dining";
                  Transaction.mk "tx-1" 1699980000000 Transaction.credit
                    (of_cents 2599) "Bill payment" Transaction.completed
                    "Travel";
                  Transaction.mk "tx-2" 1699970000000 Transaction.debit
                    (of_cents 99900) "Service fee" Transaction.pending
                    "Health" ]) _ _));
    [lia|intros p; split; reflexivity].
Defined.

(** X15: [getTransactions] does not check its arguments.  A call that the
    limiter admits never throws for them and reports the length of the log;
    page [0] (with a size that is not negative) and size [0] give no
    record; a negative page gives records counted from the end of the log:
    for [page < 0], [pageSize >= 1] and a log of at least
    [(1 - page) * pageSize] records, the [pageSize] records that end
    [- page * pageSize] places before the end. *)
Theorem getTransactions_outside_pages (now page pageSize : Z) (st : Store) :
  (checkRateLimit now (api st)).1 = true ->
  (exists p : Page,
      (getTransactions now page pageSize st).1 = Return p
      /\ total p = Z.of_nat (length (mockTransactions st)))
  /\ (pageSize = 0 -> pageData (getTransactions now page pageSize st).1 = [])
  /\ (page = 0 -> 0 <= pageSize ->
      pageData (getTransactions now page pageSize st).1 = [])
  /\ (page < 0 -> 1 <= pageSize ->
      (1 - page) * pageSize <= Z.of_nat (length (mockTransactions st)) ->
      pageData (getTransactions now page pageSize st).1
      = take (Z.to_nat pageSize)
          (drop (length (mockTransactions st)
                 - Z.to_nat ((1 - page) * pageSize))
             (mockTransactions st))
      /\ length (pageData (getTransactions now page pageSize st).1)
         = Z.to_nat pageSize).
Proof.
  intros Hadm. rewrite (getTransactions_admitted _ _ _ _ Hadm).
  cbn [pageData data total].
  split; [eexists; split; reflexivity|].
  set (log := mockTransactions st).
  split; [|split].
  - intros ->. unfold slice. cbv zeta.
    rewrite Z.mul_0_r, Z.add_0_r, Z.sub_diag. reflexivity.
  - intros -> Hsize. unfold slice. cbv zeta.
    replace ((0 - 1) * pageSize + pageSize) with 0 by lia.
    change (0 <? 0) with false. cbv iota.
    replace (Z.to_nat (Z.min 0 (Z.of_nat (length log)) - _)) with 0%nat.
    + reflexivity.
    + destruct (Z.ltb_spec ((0 - 1) * pageSize) 0); lia.
  - intros Hpage Hsize Hlen. unfold slice. cbv zeta.
    destruct (Z.ltb_spec ((page - 1) * pageSize) 0) as [_|]; [|nia].
    destruct (Z.ltb_spec ((page - 1) * pageSize + pageSize) 0) as [_|];
      [|nia].
    replace (Z.to_nat
               (Z.max (Z.of_nat (length log)
                       + ((page - 1) * pageSize + pageSize)) 0
                - Z.max (Z.of_nat (length log) + (page - 1) * pageSize) 0))
      with (Z.to_nat pageSize) by nia.
    replace (Z.to_nat
               (Z.max (Z.of_nat (length log) + (page - 1) * pageSize) 0))
      with (length log - Z.to_nat ((1 - page) * pageSize))%nat by nia.
    split; [reflexivity|].
    rewrite length_take, length_drop. nia.
Qed.

(** Page [-1] of size [1] of a log of three records: the record before the
    last one. *)
Lemma getTransactions_outside_pages_witness :
  pageData
    (getTransactions 1700000000000 (-1) 1
       (initialStore
          [ Transaction.mk "tx-3" 1699990000000 Transaction.debit
              (of_cents 1050) "Transfer" Transaction.completed "Dining";
            Transaction.mk "tx-1" 1699980000000 Transaction.credit
              (of_cents 2599) "Bill payment" Transaction.completed "Travel";
            Transaction.mk "tx-2" 1699970000000 Transaction.debit
              (of_cents 99900) "Service fee" Transaction.pending "Health"
          ])).1
  = take (Z.to_nat 1)
      (drop (length
               (mockTransactions
                  (initialStore
                     [ Transaction.mk "tx-3" 1699990000000 Transaction.debit
                         (of_cents 1050) "Transfer" Transaction.completed
                         "Dining";
                       Transaction.mk "tx-1" 1699980000000
                         Transaction.credit (of_cents 2599) "Bill payment"
                         Transaction.completed "Travel";
                       Transaction.mk "tx-2" 1699970000000 Transaction.debit
                         (of_cents 99900) "Service fee" Transaction.pending
                         "Health" ]))
             - Z.to_nat ((1 - -1) * 1))
         (mockTransactions
            (initialStore
               [ Transaction.mk "tx-3" 1699990000000 Transaction.debit
                   (of_cents 1050) "Transfer" Transaction.completed "Dining";
                 Transaction.mk "tx-1" 1699980000000 Transaction.credit
                   (of_cents 2599) "Bill payment" Transaction.completed
                   "Travel";
                 Transaction.mk "tx-2" 1699970000000 Transaction.debit
                   (of_cents 99900) "Service fee" Transaction.pending
                   "Health" ]))).
Proof.
  refine (proj1 (proj2 (proj2 (proj2 (getTransactions_outside_pages
                                        1700000000000 (-1) 1
                                        (initialStore _) _))) _ _ _));
    [reflexivity|lia|lia|simpl; lia].
Defined.

(** ** More on invoices *)

(** [Math.floor(r * n) + base] for a value [r] of [Math.random()]. *)
Lemma random_quantity (r : number) (n base : Z) :
  unitInterval r -> 0 < n <= 2 ^ 20 -> 0 <= base <= 2 ^ 20 ->
  exists q : Z,
    add (floor (mul r (of_Z n))) (of_Z base) = of_Z q
    /\ base <= q <= base + n - 1.
Proof.
  intros (z & -> & Hz & Hbin) Hn Hbase.
  JSNumberFacts.pow_literals.
  destruct (JSNumberMore.floor_mul_below z n Hbin Hz
              ltac:(change (2 ^ 53) with 9007199254740992; lia))
    as (q & -> & Hq).
  exists (q + base). split; [|lia].
  apply JSNumberMore.add_of_Z;
    change (2 ^ 52) with 4503599627370496; lia.
Qed.

(** The amount of a line: a whole quantity times a price in cents. *)
Lemma line_amount (q c : Z) :
  0 <= q <= 2 ^ 20 -> Z.abs c <= 2 ^ 19 ->
  round2 (mul (of_Z q) (of_cents c)) = of_cents (q * c)
  /\ near (of_cents (q * c)) (q * c) (Z.abs (q * c)).
Proof.
  intros Hq Hc. JSNumberFacts.pow_literals.
  assert (Z.abs (q * c) <= 1048576 * 524288) as Hqc.
  { rewrite Z.abs_mul, (Z.abs_eq q) by lia.
    apply Z.mul_le_mono_nonneg; lia. }
  split.
  - pose proof (JSNumberMore.near_of_cents c
                  ltac:(JSNumberFacts.pow_literals; lia)) as Hnear.
    pose proof (JSNumberMore.near_mul q _ c (Z.abs c) Hnear
                  ltac:(JSNumberFacts.pow_literals; lia)
                  ltac:(JSNumberFacts.pow_literals; lia)
                  ltac:(JSNumberFacts.pow_literals; lia)) as Hmul.
    apply (JSNumberMore.near_cents _ _ _ Hmul).
    + change (2 ^ 52) with 4503599627370496.
      assert (q * (Z.abs c + Z.abs c + 1) <= 1048576 * 1048577)
        by (apply Z.mul_le_mono_nonneg; lia).
      lia.
    + JSNumberFacts.pow_literals. lia.
  - apply JSNumberMore.near_of_cents. JSNumberFacts.pow_literals. lia.
Qed.

(** For draws that are values of [Math.random()], the invoice has four
    lines: between 100 and 599 API calls at 0.01, one premium access at
    29.99, between 5 and 24 GB at 0.50 and between 0 and 4 support requests
    at 15; the amount of each line is its quantity times its unit price,
    to the cent. *)
Lemma generateInvoice_items (r1 r2 r3 : number) (currentDate nowId : Z)
    (startDate endDate : string) :
  unitInterval r1 -> unitInterval r2 -> unitInterval r3 ->
  exists q1 q3 q4 : Z,
    100 <= q1 <= 599 /\ 5 <= q3 <= 24 /\ 0 <= q4 <= 4
    /\ Invoice.items
         (generateInvoice r1 r2 r3 currentDate nowId startDate endDate)
       = [ Invoice.mk_item "API Calls - Basic Tier" (of_Z q1)
             (of_decimal 1 2) (of_cents q1);
           Invoice.mk_item "Premium Features Access" (of_Z 1)
             (of_decimal 2999 2) (of_cents 2999);
           Invoice.mk_item "Data Storage (GB)" (of_Z q3) (of_decimal 5 1)
             (of_cents (50 * q3));
           Invoice.mk_item "Support Requests" (of_Z q4) (of_Z 15)
             (of_cents (1500 * q4)) ].
Proof.
  intros H1 H2 H3.
  destruct (random_quantity r1 500 100 H1 ltac:(split; [lia|discriminate])
              ltac:(split; [lia|discriminate])) as (q1 & Hq1 & Hb1).
  destruct (random_quantity r2 20 5 H2 ltac:(split; [lia|discriminate])
              ltac:(split; [lia|discriminate])) as (q3 & Hq3 & Hb3).
  destruct (random_quantity r3 5 0 H3 ltac:(split; [lia|discriminate])
              ltac:(split; [lia|discriminate])) as (q4 & Hq4 & Hb4).
  exists q1, q3, q4.
  split; [lia|]. split; [lia|]. split; [lia|].
  unfold generateInvoice. cbn [Invoice.items map Invoice.description
    Invoice.quantity Invoice.unitPrice].
  rewrite Hq1, Hq3.
  assert (floor (mul r3 (of_Z 5)) = of_Z q4) as ->.
  { rewrite <- Hq4.
    destruct H3 as (z & -> & Hz & Hbin).
    destruct (JSNumberMore.floor_mul_below z 5 Hbin Hz
                ltac:(split; [lia|reflexivity])) as (q & -> & Hq).
    change (of_Z 0) with (of_Z (0 + 0)) at 1.
    rewrite JSNumberMore.add_of_Z
      by (change (2 ^ 52) with 4503599627370496; lia).
    f_equal. lia. }
  rewrite !JSNumberMore.of_decimal_2.
  rewrite (JSNumberMore.of_decimal_1 5). change (5 * 10) with 50.
  rewrite (JSNumberMore.of_Z_cents 15). change (15 * 100) with 1500.
  rewrite (proj1 (line_amount q1 1 ltac:(JSNumberFacts.pow_literals; lia)
                    ltac:(JSNumberFacts.pow_literals; lia))).
  rewrite (proj1 (line_amount 1 2999 ltac:(JSNumberFacts.pow_literals; lia)
                    ltac:(JSNumberFacts.pow_literals; lia))).
  rewrite (proj1 (line_amount q3 50 ltac:(JSNumberFacts.pow_literals; lia)
                    ltac:(JSNumberFacts.pow_literals; lia))).
  rewrite (proj1 (line_amount q4 1500 ltac:(JSNumberFacts.pow_literals; lia)
                    ltac:(JSNumberFacts.pow_literals; lia))).
  replace (q1 * 1) with q1 by lia. replace (q3 * 50) with (50 * q3) by lia.
  replace (q4 * 1500) with (1500 * q4) by lia.
  reflexivity.
Qed.

(** X12: for draws that are values of [Math.random()], the invoice has
    four lines: between 100 and 599 API calls at 0.01, one premium access at
    29.99, between 5 and 24 GB at 0.50 and between 0 and 4 support requests
    at 15; the amount of each line is its quantity times its unit price,
    to the cent. *)
Theorem generateInvoice_lines (r1 r2 r3 : number) (currentDate nowId : Z)
    (startDate endDate : string) :
  unitInterval r1 -> unitInterval r2 -> unitInterval r3 ->
  exists q1 q3 q4 : Z,
    100 <= q1 <= 599 /\ 5 <= q3 <= 24 /\ 0 <= q4 <= 4
    /\ Invoice.items
         (generateInvoice r1 r2 r3 currentDate nowId startDate endDate)
       = [ Invoice.mk_item "API Calls - Basic Tier" (of_Z q1)
             (of_decimal 1 2) (of_cents q1);
           Invoice.mk_item "Premium Features Access" (of_Z 1)
             (of_decimal 2999 2) (of_cents 2999);
           Invoice.mk_item "Data Storage (GB)" (of_Z q3) (of_decimal 5 1)
             (of_cents (50 * q3));
           Invoice.mk_item "Support Requests" (of_Z q4) (of_Z 15)
             (of_cents (1500 * q4)) ].
Proof. apply generateInvoice_items. Qed.

(** The invoice for three draws of one half. *)
Lemma generateInvoice_lines_witness :
  exists q1 q3 q4 : Z,
    100 <= q1 <= 599 /\ 5 <= q3 <= 24 /\ 0 <= q4 <= 4
    /\ Invoice.items
         (generateInvoice (Fin (2 ^ 1073)) (Fin (2 ^ 1073)) (Fin (2 ^ 1073))
            1700000000000 1700000000000 "2024-01-01" "2024-01-31")
       = [ Invoice.mk_item "API Calls - Basic Tier" (of_Z q1)
             (of_decimal 1 2) (of_cents q1);
           Invoice.mk_item "Premium Features Access" (of_Z 1)
             (of_decimal 2999 2) (of_cents 2999);
           Invoice.mk_item "Data Storage (GB)" (of_Z q3) (of_decimal 5 1)
             (of_cents (50 * q3));
           Invoice.mk_item "Support Requests" (of_Z q4) (of_Z 15)
             (of_cents (1500 * q4)) ].
Proof.
  apply (generateInvoice_lines (Fin (2 ^ 1073)) (Fin (2 ^ 1073))
           (Fin (2 ^ 1073)));
    exact JSNumberMore.half_unitInterval.
Defined.

(** X13: for draws that are values of [Math.random()], the total of the
    invoice read to the cent is the sum of the amounts of its lines read to
    the cent, and lies between 33.49 and 107.98. *)
Theorem generateInvoice_total (r1 r2 r3 : number) (currentDate nowId : Z)
    (startDate endDate : string) :
  unitInterval r1 -> unitInterval r2 -> unitInterval r3 ->
  cents_of
    (Invoice.total
       (generateInvoice r1 r2 r3 currentDate nowId startDate endDate))
  = linesInCents
      (generateInvoice r1 r2 r3 currentDate nowId startDate endDate)
  /\ 3349
     <= cents_of
          (Invoice.total
             (generateInvoice r1 r2 r3 currentDate nowId startDate endDate))
     <= 10798.
Proof.
  intros H1 H2 H3.
  destruct (generateInvoice_items r1 r2 r3 currentDate nowId startDate
              endDate H1 H2 H3) as (q1 & q3 & q4 & Hq1 & Hq3 & Hq4 & Hitems).
  assert (Invoice.total
            (generateInvoice r1 r2 r3 currentDate nowId startDate endDate)
          = fold_left (λ sum item, add sum (Invoice.amount item))
              (Invoice.items
                 (generateInvoice r1 r2 r3 currentDate nowId startDate
                    endDate)) zero) as -> by reflexivity.
  unfold linesInCents. rewrite Hitems.
  cbn [fold_left foldr Invoice.amount].
  rewrite !JSNumberFacts.cents_of_of_cents
    by (JSNumberFacts.pow_literals; lia).
  assert (forall (x : number) (s w c : Z),
             near x s w -> 0 <= s <= 20000 -> 0 <= w <= 200000 ->
             0 <= c <= 10000 ->
             near (add x (of_cents c)) (s + c) (w + c + (s + c) + 1))
    as Hstep.
  { intros x s w c Hx Hs Hw Hc.
    pose proof (JSNumberMore.near_add x (of_cents c) s c w (Z.abs c) Hx
                  (JSNumberMore.near_of_cents c
                     ltac:(JSNumberFacts.pow_literals; lia))
                  ltac:(lia) ltac:(lia)
                  ltac:(JSNumberFacts.pow_literals; lia)) as Hadd.
    replace (w + c + (s + c) + 1)
      with (w + Z.abs c + Z.abs (s + c) + 1) by lia.
    exact Hadd. }
  pose proof (Hstep _ _ _ q1 JSNumberMore.near_zero ltac:(lia) ltac:(lia)
                ltac:(lia)) as N1.
  pose proof (Hstep _ _ _ 2999 N1 ltac:(lia) ltac:(lia) ltac:(lia)) as N2.
  pose proof (Hstep _ _ _ (50 * q3) N2 ltac:(lia) ltac:(lia) ltac:(lia))
    as N3.
  pose proof (Hstep _ _ _ (1500 * q4) N3 ltac:(lia) ltac:(lia) ltac:(lia))
    as N4.
  destruct (JSNumberMore.near_cents _ _ _ N4
              ltac:(change (2 ^ 52) with 4503599627370496; lia)
              ltac:(JSNumberFacts.pow_literals; lia)) as (_ & ->).
  lia.
Qed.

(** The total of the invoice for three draws of one half. *)
Lemma generateInvoice_total_witness :
  3349
  <= cents_of
       (Invoice.total
          (generateInvoice (Fin (2 ^ 1073)) (Fin (2 ^ 1073))
             (Fin (2 ^ 1073)) 1700000000000 1700000000000 "2024-01-01"
             "2024-01-31"))
  <= 10798.
Proof.
  apply (generateInvoice_total (Fin (2 ^ 1073)) (Fin (2 ^ 1073))
           (Fin (2 ^ 1073)));
    exact JSNumberMore.half_unitInterval.
Defined.

(** ** The page controls *)

Lemma of_Z_fin (n : Z) : Z.abs n < 2 ^ 52 -> of_Z n = Fin (n * unit_scale).
Proof.
  intros Hn. apply JSNumberMore.of_Z_exact.
  change (2 ^ 52) with 4503599627370496 in Hn.
  change (2 ^ 53) with 9007199254740992. lia.
Qed.

Lemma sub_of_Z (a b : Z) :
  Z.abs a < 2 ^ 52 -> Z.abs b < 2 ^ 52 ->
  sub (of_Z a) (of_Z b) = of_Z (a - b).
Proof.
  intros Ha Hb. unfold sub. rewrite (of_Z_fin b Hb). cbn [neg].
  replace (- (b * unit_scale)) with (- b * unit_scale) by ring.
  rewrite <- of_Z_fin by lia.
  rewrite JSNumberMore.add_of_Z by lia. f_equal.
Qed.

Lemma ltb_of_Z (a b : Z) :
  Z.abs a < 2 ^ 52 -> Z.abs b < 2 ^ 52 -> ltb (of_Z a) (of_Z b) = (a <? b).
Proof.
  intros Ha Hb. rewrite !of_Z_fin by assumption. cbn [ltb].
  pose proof JSNumberFacts.unit_scale_pos.
  destruct (Z.ltb_spec a b), (Z.ltb_spec (a * unit_scale) (b * unit_scale));
    try reflexivity; nia.
Qed.

Lemma eqb_of_Z (a b : Z) :
  Z.abs a < 2 ^ 52 -> Z.abs b < 2 ^ 52 ->
  JSMath.eqb (of_Z a) (of_Z b) = (a =? b).
Proof.
  intros Ha Hb. rewrite !of_Z_fin by assumption. cbn [JSMath.eqb].
  pose proof JSNumberFacts.unit_scale_pos.
  destruct (Z.eqb_spec a b), (Z.eqb_spec (a * unit_scale) (b * unit_scale));
    try reflexivity; nia.
Qed.

Lemma leb_of_Z (a b : Z) :
  Z.abs a < 2 ^ 52 -> Z.abs b < 2 ^ 52 ->
  JSMath.leb (of_Z a) (of_Z b) = (a <=? b).
Proof.
  intros Ha Hb. pose proof (ltb_of_Z b a Hb Ha) as Hlt.
  rewrite !of_Z_fin in * by assumption. cbn [JSMath.leb]. rewrite Hlt.
  destruct (Z.ltb_spec b a), (Z.leb_spec a b); try reflexivity; lia.
Qed.

Lemma max_of_Z (a b : Z) :
  Z.abs a < 2 ^ 52 -> Z.abs b < 2 ^ 52 ->
  JSMath.max (of_Z a) (of_Z b) = of_Z (Z.max a b).
Proof.
  intros Ha Hb. pose proof (ltb_of_Z a b Ha Hb) as Hlt.
  rewrite (of_Z_fin a), (of_Z_fin b) in * by assumption.
  cbn [JSMath.max]. rewrite Hlt.
  destruct (Z.ltb_spec a b).
  - rewrite Z.max_r by lia. rewrite of_Z_fin by assumption. reflexivity.
  - rewrite Z.max_l by lia. rewrite of_Z_fin by assumption. reflexivity.
Qed.

Lemma min_of_Z (a b : Z) :
  Z.abs a < 2 ^ 52 -> Z.abs b < 2 ^ 52 ->
  JSMath.min (of_Z a) (of_Z b) = of_Z (Z.min a b).
Proof.
  intros Ha Hb. pose proof (ltb_of_Z b a Hb Ha) as Hlt.
  rewrite (of_Z_fin a), (of_Z_fin b) in * by assumption.
  cbn [JSMath.min]. rewrite Hlt.
  destruct (Z.ltb_spec b a).
  - rewrite Z.min_r by lia. rewrite of_Z_fin by assumption. reflexivity.
  - rewrite Z.min_l by lia. rewrite of_Z_fin by assumption. reflexivity.
Qed.

(** The quotient of two whole numbers is the correctly rounded fraction. *)
Lemma div_of_Z (t s : Z) :
  Z.abs t < 2 ^ 52 -> 1 <= s < 2 ^ 52 ->
  JSMath.div (of_Z t) (of_Z s) = Some (round (t * unit_scale) s).
Proof.
  intros Ht Hs. rewrite (of_Z_fin t), (of_Z_fin s) by lia.
  pose proof JSNumberFacts.unit_scale_pos as HU.
  cbn [JSMath.div].
  destruct (Z.eqb_spec (s * unit_scale) 0) as [|_]; [nia|].
  rewrite Z.sgn_pos, Z.abs_eq by nia. f_equal.
  rewrite Z.mul_1_l. apply JSNumberMore.round_fraction; lia.
Qed.

(** Rounding the quotient does not carry it across a whole number: its
    ceiling is the ceiling of the exact quotient. *)
Lemma totalPages_of_Z (t s : Z) :
  0 <= t < 2 ^ 52 -> 1 <= s < 2 ^ 52 ->
  TransactionsPage.totalPages (of_Z t) (of_Z s)
  = Some (of_Z ((t + s - 1) / s)).
Proof.
  intros Ht Hs. unfold TransactionsPage.totalPages.
  rewrite div_of_Z by lia. cbn [fmap option_fmap option_map]. f_equal.
  pose proof JSNumberFacts.unit_scale_pos as HU.
  assert (2 ^ 106 <= unit_scale) as Hroom
    by (rewrite JSNumberMore.unit_scale_pow; apply Z.pow_le_mono_r; lia).
  pose proof JSNumberFacts.overflow_threshold_large as Hover.
  change (2 ^ 52) with 4503599627370496 in *.
  change (2 ^ 53) with 9007199254740992 in *.
  change (2 ^ 60) with 1152921504606846976 in *.
  change (2 ^ 106) with 81129638414606681695789005144064 in *.
  set (m := t / s). set (rho := t mod s).
  assert (t = s * m + rho) as Ht' by (apply Z.div_mod; lia).
  assert (0 <= rho < s) as Hrho by (apply Z.mod_pos_bound; lia).
  assert (0 <= m <= t) as Hm.
  { split; [apply Z.div_pos; lia|].
    apply Z.div_le_upper_bound; [lia|nia]. }
  destruct (Z.eq_dec rho 0) as [Hzero|Hpos].
  - (* the quotient is whole *)
    assert ((t + s - 1) / s = m) as ->.
    { symmetry. apply Z.div_unique with (s - 1); lia. }
    replace (t * unit_scale) with (m * unit_scale * s) by nia.
    replace s with (1 * s) at 2 by lia.
    rewrite JSNumberMore.round_fraction by lia.
    change (round (m * unit_scale) 1) with (of_Z m).
    rewrite of_Z_fin by (change (2 ^ 52) with 4503599627370496; lia).
    cbn [JSMath.ceil]. f_equal.
    replace (- (m * unit_scale)) with (- m * unit_scale) by ring.
    rewrite Z.div_mul by lia. ring.
  - assert ((t + s - 1) / s = m + 1) as ->.
    { symmetry. apply Z.div_unique with (rho - 1); lia. }
    assert (1 <= t) as Ht1 by lia.
    destruct (JSNumberFacts.round_fin (t * unit_scale) s) as
      (a & -> & Hrel & Ha & _).
    + lia.
    + right. rewrite Z.abs_eq by nia.
      apply Z.div_le_lower_bound; [lia|].
      change (2 ^ 53) with 9007199254740992. nia.
    + rewrite Z.abs_eq by nia. nia.
    + change (2 ^ 53) with 9007199254740992 in Hrel.
      rewrite (Z.abs_eq (t * unit_scale)) in Hrel by nia.
      rewrite of_Z_fin by (change (2 ^ 52) with 4503599627370496; lia).
      cbn [JSMath.ceil]. f_equal.
      assert (m * unit_scale < a <= (m + 1) * unit_scale) as Hbetween.
      { assert (s * (m * unit_scale) < s * a
                /\ s * a <= s * ((m + 1) * unit_scale)) as [Hlo Hhi].
        { assert (t * unit_scale < 9007199254740992 * unit_scale) as Htu
            by nia.
          assert (unit_scale <= rho * unit_scale) as Hru by nia.
          assert (rho * unit_scale + unit_scale <= s * unit_scale) as Hsu
            by nia.
          replace (s * (m * unit_scale))
            with (t * unit_scale - rho * unit_scale) by nia.
          replace (s * ((m + 1) * unit_scale))
            with (t * unit_scale - rho * unit_scale + s * unit_scale)
            by nia.
          lia. }
        split; [apply Z.mul_lt_mono_pos_l with s; lia|].
        apply Z.mul_le_mono_pos_l with s; lia. }
      assert (- a / unit_scale = - (m + 1)) as ->.
      { symmetry. apply Z.div_unique with (- a + (m + 1) * unit_scale); lia. }
      ring.
Qed.

(** X16: the number of pages that the page of transactions computes from
    an answer of [getTransactions], [Math.ceil(total / pageSize)], is the
    whole number [(total + pageSize - 1) / pageSize]: the rounding of the
    quotient never moves it across a whole number.  A page [page >= 1] of
    the service holds a record exactly when [page] is at most that
    number. *)
Theorem totalPages_counts_the_pages (now page pageSize : Z) (st : Store) :
  (checkRateLimit now (api st)).1 = true ->
  1 <= page -> 1 <= pageSize < 2 ^ 52 ->
  Z.of_nat (length (mockTransactions st)) < 2 ^ 52 ->
  exists p : Page,
    (getTransactions now page pageSize st).1 = Return p
    /\ TransactionsPage.totalPages (of_Z (total p)) (of_Z pageSize)
       = Some (of_Z ((total p + pageSize - 1) / pageSize))
    /\ (data p <> [] <-> page <= (total p + pageSize - 1) / pageSize).
Proof.
  intros Hadm Hpage Hsize Hlen.
  rewrite (getTransactions_admitted _ _ _ _ Hadm).
  eexists. split; [reflexivity|]. cbn [total data].
  set (log := mockTransactions st) in *.
  split; [apply totalPages_of_Z; lia|].
  rewrite slice_take_drop by nia.
  set (len := Z.of_nat (length log)) in *.
  pose proof (Z.mul_div_le (len + pageSize - 1) pageSize ltac:(lia)) as Hlo.
  pose proof (Z.mul_succ_div_gt (len + pageSize - 1) pageSize ltac:(lia))
    as Hhi.
  set (n := (len + pageSize - 1) / pageSize) in *.
  assert (page <= n <-> (page - 1) * pageSize < len) as -> by nia.
  rewrite <- length_zero_iff_nil, length_take, length_drop.
  subst len. nia.
Qed.

(** The second page of two of a log of three records. *)
Lemma totalPages_counts_the_pages_witness :
  exists p : Page,
    (getTransactions 1700000000000 2 2
       (initialStore
          [ Transaction.mk "tx-3" 1699990000000 Transaction.debit
              (of_cents 1050) "Transfer" Transaction.completed "Dining";
            Transaction.mk "tx-1" 1699980000000 Transaction.credit
              (of_cents 2599) "Bill payment" Transaction.completed "Travel";
            Transaction.mk "tx-2" 1699970000000 Transaction.debit
              (of_cents 99900) "Service fee" Transaction.pending "Health"
          ])).1 = Return p
    /\ TransactionsPage.totalPages (of_Z (total p)) (of_Z 2)
       = Some (of_Z ((total p + 2 - 1) / 2))
    /\ (data p <> [] <-> 2 <= (total p + 2 - 1) / 2).
Proof.
  apply (totalPages_counts_the_pages 1700000000000 2 2
           (initialStore
              [ Transaction.mk "tx-3" 1699990000000 Transaction.debit
                  (of_cents 1050) "Transfer" Transaction.completed "Dining";
                Transaction.mk "tx-1" 1699980000000 Transaction.credit
                  (of_cents 2599) "Bill payment" Transaction.completed
                  "Travel";
                Transaction.mk "tx-2" 1699970000000 Transaction.debit
                  (of_cents 99900) "Service fee" Transaction.pending
                  "Health" ]));
    [reflexivity|lia|split; [lia|reflexivity]|reflexivity].
Defined.

Lemma pageNumbers_of_Z (T : Z) :
  0 <= T < 2 ^ 32 ->
  TransactionsPage.pageNumbers (of_Z T)
  = Some (map of_Z (map (λ i : nat, Z.of_nat i + 1) (seq 0 (Z.to_nat T)))).
Proof.
  intros HT. change (2 ^ 32) with 4294967296 in HT.
  pose proof JSNumberFacts.unit_scale_pos as HU.
  rewrite of_Z_fin by (change (2 ^ 52) with 4503599627370496; lia).
  cbn [TransactionsPage.pageNumbers].
  destruct (Z.ltb_spec (T * unit_scale) 0) as [|_]; [nia|].
  rewrite Z.div_mul by lia.
  destruct (Z.ltb_spec T (2 ^ 32)) as [_|];
    [|change (2 ^ 32) with 4294967296 in *; lia].
  f_equal. rewrite map_map. apply map_ext_in.
  intros i Hi. apply in_seq in Hi.
  apply JSNumberMore.add_of_Z;
    change (2 ^ 52) with 4503599627370496; lia.
Qed.

(** X17: on page [c] of [T] pages, [1 <= c <= T], a click on Previous
    leads to page [c - 1], and to page 1 from page 1; a click on Next leads
    to page [c + 1], and to page [T] from page [T]; the links shown are
    those of the pages from 1 to [T] that are the first, the last, the
    current one or next to it, so at most five, and each of them leads to a
    page from 1 to [T]. *)
Theorem page_controls_stay_in_range (c T : Z) :
  1 <= c <= T -> T < 2 ^ 32 ->
  TransactionsPage.previousPage (of_Z c) = of_Z (Z.max (c - 1) 1)
  /\ TransactionsPage.nextPage (of_Z c) (of_Z T) = of_Z (Z.min (c + 1) T)
  /\ exists links : list Z,
       TransactionsPage.pageLinks (of_Z c) (of_Z T) = Some (map of_Z links)
       /\ (forall p : Z,
              In p links
              <-> 1 <= p <= T /\ (p = 1 \/ p = T \/ c - 1 <= p <= c + 1))
       /\ (length links <= 5)%nat.
Proof.
  intros Hc HT. change (2 ^ 32) with 4294967296 in HT.
  assert (forall n : Z, Z.abs n <= 4294967297 -> Z.abs n < 2 ^ 52) as Hsmall
    by (intros n Hn; change (2 ^ 52) with 4503599627370496; lia).
  split; [|split].
  - unfold TransactionsPage.previousPage.
    rewrite sub_of_Z, max_of_Z by (apply Hsmall; lia). reflexivity.
  - unfold TransactionsPage.nextPage.
    rewrite JSNumberMore.add_of_Z, min_of_Z by (apply Hsmall; lia).
    reflexivity.
  - set (pages := map (λ i : nat, Z.of_nat i + 1) (seq 0 (Z.to_nat T))).
    assert (forall p : Z, In p pages <-> 1 <= p <= T) as Hpages.
    { intros p. unfold pages. rewrite in_map_iff. split.
      - intros (i & <- & Hi). apply in_seq in Hi. lia.
      - intros Hp. exists (Z.to_nat (p - 1)). split; [lia|].
        apply in_seq. lia. }
    assert (NoDup pages) as Hnodup.
    { assert (Inj eq eq (λ i : nat, Z.of_nat i + 1)) as Hinj
        by (intros i j Hij; lia).
      unfold pages. apply (NoDup_fmap_2 _), NoDup_seq. }
    set (shown := λ p : Z,
           (p =? 1) || (p =? T) || ((c - 1 <=? p) && (p <=? c + 1))).
    exists (List.filter shown pages). split; [|split].
    + unfold TransactionsPage.pageLinks.
      rewrite pageNumbers_of_Z
        by (change (2 ^ 32) with 4294967296; lia).
      fold pages. cbn [fmap option_fmap option_map]. f_equal.
      rewrite filter_map_swap. f_equal.
      apply filter_ext_in. intros p Hp. apply Hpages in Hp.
      unfold JSMath.geb.
      rewrite sub_of_Z, JSNumberMore.add_of_Z by (apply Hsmall; lia).
      rewrite !eqb_of_Z, !leb_of_Z by (apply Hsmall; lia).
      reflexivity.
    + intros p. rewrite filter_In, Hpages. unfold shown.
      rewrite !orb_true_iff, andb_true_iff, !Z.eqb_eq, !Z.leb_le.
      tauto.
    + apply (NoDup_incl_length (l' := [1; T; c - 1; c; c + 1])).
      * apply List.NoDup_filter, NoDup_ListNoDup. exact Hnodup.
      * intros p Hp. apply filter_In in Hp. destruct Hp as (_ & Hp).
        unfold shown in Hp.
        rewrite !orb_true_iff, andb_true_iff, !Z.eqb_eq, !Z.leb_le in Hp.
        cbn [In]. lia.
Qed.

(** Page 3 of 7. *)
Lemma page_controls_stay_in_range_witness :
  TransactionsPage.previousPage (of_Z 3) = of_Z (Z.max (3 - 1) 1)
  /\ TransactionsPage.nextPage (of_Z 3) (of_Z 7) = of_Z (Z.min (3 + 1) 7).
Proof.
  destruct (page_controls_stay_in_range 3 7 ltac:(lia) ltac:(reflexivity))
    as (Hprev & Hnext & _).
  split; [exact Hprev|exact Hnext].
Defined.

(** ** More on the session *)

(** A string literal is read back as the characters that were written. *)
Lemma parse_chars_escape (cs rest : list ascii) :
  Auth.parse_chars (flat_map Auth.escape_char cs ++ Auth.quote :: rest)
  = Some (cs, rest).
Proof.
  induction cs as [|c cs IH]; [reflexivity|].
  cbn [flat_map]. rewrite <- app_assoc.
  set (tail := flat_map Auth.escape_char cs ++ Auth.quote :: rest) in *.
  clearbody tail.
  destruct c as [[] [] [] [] [] [] [] []]; simpl; rewrite IH; reflexivity.
Qed.

Lemma quoteJSON_app (s : string) (rest : list ascii) :
  Auth.quoteJSON s ++ rest
  = Auth.quote
    :: flat_map Auth.escape_char (list_ascii_of_string s)
       ++ Auth.quote :: rest.
Proof.
  unfold Auth.quoteJSON. cbn [app]. rewrite <- app_assoc. reflexivity.
Qed.

(** A string, a boolean or [null] is read back as it was written. *)
Lemma parse_value_flat (v : Auth.json) (fuel : nat) (rest : list ascii) :
  match v with Auth.JObject _ => False | _ => True end ->
  Auth.parse_value (S fuel) (Auth.stringify_chars v ++ rest) = Some (v, rest).
Proof.
  intros Hflat. destruct v as [|[]|s|fields]; [| | | |contradiction].
  - reflexivity.
  - reflexivity.
  - reflexivity.
  - cbn [Auth.stringify_chars]. rewrite quoteJSON_app.
    cbn [Auth.parse_value].
    change (Auth.skip_space (Auth.quote :: ?l)) with (Auth.quote :: l).
    change (Nat.eqb (nat_of_ascii Auth.quote) 34) with true. cbv iota.
    rewrite parse_chars_escape, string_of_list_ascii_of_string.
    reflexivity.
Qed.

(** One member of an object, and what follows it. *)
Lemma parse_members_step (fuel : nat) (k : string) (v : Auth.json)
    (r : list ascii) :
  match v with Auth.JObject _ => False | _ => True end ->
  Auth.parse_members (S (S fuel))
    (Auth.quoteJSON k ++ ":"%char :: Auth.stringify_chars v ++ r)
  = match Auth.skip_space r with
    | d :: r3 =>
        if (nat_of_ascii d =? 125)%nat then Some ([(k, v)], r3)
        else if (nat_of_ascii d =? 44)%nat then
          match Auth.parse_members (S fuel) (Auth.skip_space r3) with
          | Some (fields, r4) => Some ((k, v) :: fields, r4)
          | None => None
          end
        else None
    | [] => None
    end.
Proof.
  intros Hflat. rewrite quoteJSON_app.
  cbn [Auth.parse_members].
  change (Nat.eqb (nat_of_ascii Auth.quote) 34) with true. cbv iota.
  rewrite parse_chars_escape.
  change (Auth.skip_space (":"%char :: ?l)) with (":"%char :: l).
  change (Nat.eqb (nat_of_ascii ":"%char) 58) with true. cbv iota.
  rewrite (parse_value_flat v fuel r Hflat).
  rewrite string_of_list_ascii_of_string. reflexivity.
Qed.

(** The text of the members of an object, as [stringify_chars] writes
    it. *)
Lemma stringify_chars_object (fields : list (string * Auth.json)) :
  Auth.stringify_chars (Auth.JObject fields)
  = "{"%char
    :: Auth.join_with [","%char]
         (map (λ kv, Auth.quoteJSON kv.1
                     ++ ":"%char :: Auth.stringify_chars kv.2) fields)
    ++ ["}"%char].
Proof.
  cbn [Auth.stringify_chars]. do 3 f_equal.
  apply map_ext. intros [k v]. reflexivity.
Qed.

Lemma parse_members_flat (fields : list (string * Auth.json)) :
  AuthRun.flat fields -> fields <> [] ->
  forall (fuel : nat) (rest : list ascii),
    (length fields < fuel)%nat ->
    Auth.parse_members fuel
      (Auth.join_with [","%char]
         (map (λ kv, Auth.quoteJSON kv.1
                     ++ ":"%char :: Auth.stringify_chars kv.2) fields)
       ++ "}"%char :: rest)
    = Some (fields, rest).
Proof.
  intros Hflat. induction Hflat as [|[k v] fields Hv Hrest IH];
    [contradiction|].
  intros _ fuel rest Hfuel. cbn [length] in Hfuel.
  destruct fuel as [|[|fuel]]; [lia|lia|].
  destruct fields as [|kv fields].
  - cbn [map Auth.join_with fst snd].
    rewrite <- app_assoc. cbn [app].
    rewrite parse_members_step by exact Hv. reflexivity.
  - change (Auth.join_with [","%char]
              (map (λ kv0, Auth.quoteJSON kv0.1
                           ++ ":"%char :: Auth.stringify_chars kv0.2)
                 ((k, v) :: kv :: fields)))
      with ((Auth.quoteJSON k ++ ":"%char :: Auth.stringify_chars v)
            ++ [","%char]
            ++ Auth.join_with [","%char]
                 (map (λ kv0, Auth.quoteJSON kv0.1
                              ++ ":"%char :: Auth.stringify_chars kv0.2)
                    (kv :: fields))).
    rewrite <- !app_assoc. cbn [app].
    rewrite parse_members_step by exact Hv.
    change (Auth.skip_space (","%char :: ?l)) with (","%char :: l).
    cbv iota.
    change (Nat.eqb (nat_of_ascii ","%char) 125) with false.
    change (Nat.eqb (nat_of_ascii ","%char) 44) with true. cbv iota.
    assert (forall l : list ascii,
               Auth.skip_space
                 (Auth.join_with [","%char]
                    (map (λ kv0, Auth.quoteJSON kv0.1
                                 ++ ":"%char :: Auth.stringify_chars kv0.2)
                       (kv :: fields)) ++ l)
               = Auth.join_with [","%char]
                   (map (λ kv0, Auth.quoteJSON kv0.1
                                ++ ":"%char :: Auth.stringify_chars kv0.2)
                      (kv :: fields)) ++ l) as Hskip.
    { intros l. destruct fields; reflexivity. }
    rewrite Hskip, IH; [reflexivity|discriminate|cbn [length] in *; lia].
Qed.

Lemma members_start_with_quote (fields : list (string * Auth.json))
    (l : list ascii) :
  fields <> [] ->
  exists t : list ascii,
    Auth.join_with [","%char]
      (map (λ kv, Auth.quoteJSON kv.1
                  ++ ":"%char :: Auth.stringify_chars kv.2) fields) ++ l
    = Auth.quote :: t.
Proof.
  intros Hne. destruct fields as [|[k v] [|kv fields]]; [contradiction| |].
  - cbn [map Auth.join_with fst snd]. rewrite <- app_assoc, quoteJSON_app.
    eauto.
  - cbn [map Auth.join_with fst snd]. rewrite <- !app_assoc, quoteJSON_app.
    eauto.
Qed.

Lemma members_length (fields : list (string * Auth.json)) :
  (length fields
   <= length
        (Auth.join_with [","%char]
           (map (λ kv, Auth.quoteJSON kv.1
                       ++ ":"%char :: Auth.stringify_chars kv.2) fields)))%nat.
Proof.
  induction fields as [|[k v] [|kv fields] IH]; [cbn; lia| |].
  - cbn [map Auth.join_with fst snd length]. unfold Auth.quoteJSON.
    cbn [length app]. lia.
  - change (Auth.join_with [","%char]
              (map (λ kv0, Auth.quoteJSON kv0.1
                           ++ ":"%char :: Auth.stringify_chars kv0.2)
                 ((k, v) :: kv :: fields)))
      with ((Auth.quoteJSON k ++ ":"%char :: Auth.stringify_chars v)
            ++ [","%char]
            ++ Auth.join_with [","%char]
                 (map (λ kv0, Auth.quoteJSON kv0.1
                              ++ ":"%char :: Auth.stringify_chars kv0.2)
                    (kv :: fields))).
    rewrite !length_app. cbn [length] in *. lia.
Qed.

(** [JSON.parse(JSON.stringify(o))] gives [o] back, for an object [o]
    whose members are strings, booleans or [null]. *)
Lemma parse_stringify_flat (fields : list (string * Auth.json)) :
  AuthRun.flat fields ->
  Auth.parse (Auth.stringify (Auth.JObject fields))
  = Some (Auth.JObject fields).
Proof.
  intros Hflat. unfold Auth.parse, Auth.stringify. cbv zeta.
  rewrite list_ascii_of_string_of_list_ascii.
  rewrite stringify_chars_object.
  set (members :=
         Auth.join_with [","%char]
           (map (λ kv, Auth.quoteJSON kv.1
                       ++ ":"%char :: Auth.stringify_chars kv.2) fields)).
  assert (length fields <= length members)%nat as Hlen
    by apply members_length.
  cbn [length]. rewrite length_app. cbn [length].
  replace (length members + 1)%nat with (S (length members)) by lia.
  cbn [Auth.parse_value].
  change (Auth.skip_space ("{"%char :: ?l)) with ("{"%char :: l).
  cbv iota.
  change (Nat.eqb (nat_of_ascii "{"%char) 34) with false.
  change (Nat.eqb (nat_of_ascii "{"%char) 123) with true. cbv iota.
  destruct fields as [|kv fields].
  - reflexivity.
  - destruct (members_start_with_quote (kv :: fields) ["}"%char]
                ltac:(discriminate)) as (t & Ht).
    fold members in Ht. rewrite Ht.
    change (Auth.skip_space (Auth.quote :: t)) with (Auth.quote :: t).
    cbv iota.
    change (Nat.eqb (nat_of_ascii Auth.quote) 125) with false. cbv iota.
    rewrite <- Ht. unfold members in *.
    rewrite (parse_members_flat (kv :: fields) Hflat ltac:(discriminate))
      by (cbn [length] in *; lia).
    reflexivity.
Qed.

Lemma user_of_json_of_user (u : Auth.User) :
  Auth.user_of_json (Auth.json_of_user u) = Some u.
Proof.
  destruct u as [i e n [] b [t|] [x|]]; reflexivity.
Qed.

Lemma json_of_user_flat (u : Auth.User) :
  exists fields : list (string * Auth.json),
    Auth.json_of_user u = Auth.JObject fields /\ AuthRun.flat fields.
Proof.
  eexists. split; [reflexivity|].
  destruct u as [i e n r b [t|] [x|]]; repeat constructor.
Qed.

(** The stored text of a user is read back as that user. *)
Lemma stored_user_is_read_back (u : Auth.User) :
  Auth.parse (Auth.stringify (Auth.json_of_user u))
  = Some (Auth.json_of_user u)
  /\ Auth.truthy (Some (Auth.stringify (Auth.json_of_user u))) = true.
Proof.
  destruct (json_of_user_flat u) as (fields & Heq & Hflat).
  rewrite Heq. split; [apply parse_stringify_flat; exact Hflat|].
  unfold Auth.stringify. rewrite stringify_chars_object. reflexivity.
Qed.

(** What a provider that starts on a consistent store finds. *)
Lemma checkAuth_consistent (ls : Auth.Storage) (st : Auth.AuthState) :
  AuthRun.consistent (ls, st) ->
  Auth.currentUser (Auth.checkAuth ls Auth.initialAuthState)
  = Auth.currentUser st
  /\ (Auth.checkToken ls = true <-> is_Some (Auth.currentUser st)).
Proof.
  unfold AuthRun.consistent, Auth.checkAuth, Auth.checkToken.
  cbn [fst snd].
  destruct (Auth.currentUser st) as [u|].
  - intros (Htoken & Huser). rewrite Htoken, Huser.
    destruct (stored_user_is_read_back u) as (Hparse & Htruthy).
    rewrite Htruthy. cbn [default from_option id].
    rewrite Hparse, user_of_json_of_user.
    split; [reflexivity|]. split; eauto.
  - intros ->. cbn [Auth.truthy]. split; [reflexivity|].
    split; [discriminate|]. intros [u Hu]. discriminate.
Qed.

Lemma step_consistent (a : AuthRun.Action)
    (s : Auth.Storage * Auth.AuthState) :
  AuthRun.consistent s -> AuthRun.consistent (AuthRun.step a s).
Proof.
  destruct s as [ls st]. intros Hs.
  destruct a as [e p|e n p| |t x|]; cbn [AuthRun.step fst snd].
  - (* login *)
    unfold Auth.login.
    destruct (List.find _ Auth.MOCK_USERS) as [found|] eqn:Hfind;
      [|exact Hs].
    cbn [fst snd]. unfold AuthRun.consistent.
    cbn [fst snd Auth.currentUser].
    rewrite lookup_insert_ne by discriminate.
    rewrite !lookup_insert_eq. split; [|reflexivity].
    apply find_some in Hfind. destruct Hfind as (Hin & _).
    destruct Hin as [<-|[<-|[]]]; reflexivity.
  - (* register *)
    unfold Auth.register.
    destruct (existsb _ Auth.MOCK_USERS); exact Hs.
  - (* logout *)
    unfold Auth.logout, AuthRun.consistent.
    cbn [fst snd Auth.currentUser].
    rewrite lookup_delete_ne by discriminate. apply lookup_delete_eq.
  - (* updateSubscription *)
    unfold Auth.updateSubscription.
    destruct (Auth.currentUser st) as [u|] eqn:Hu; [|exact Hs].
    unfold AuthRun.consistent in *.
    cbn [fst snd Auth.currentUser] in *. rewrite Hu in Hs.
    destruct Hs as (Htoken & _).
    rewrite lookup_insert_ne by discriminate.
    rewrite lookup_insert_eq. split; [exact Htoken|reflexivity].
  - (* reload *)
    destruct (checkAuth_consistent ls st Hs) as (Hsame & _).
    unfold AuthRun.consistent in *. cbn [fst snd] in *.
    rewrite Hsame. exact Hs.
Qed.

Lemma run_consistent (actions : list AuthRun.Action) :
  forall s : Auth.Storage * Auth.AuthState,
    AuthRun.consistent s -> AuthRun.consistent (AuthRun.run actions s).
Proof.
  induction actions as [|a actions IH]; intros s Hs; [exact Hs|].
  apply IH, step_consistent, Hs.
Qed.


(** X19: with a user signed in and a token stored, [updateSubscription]
    gives the user the tier and the expiry date, marks it subscribed, keeps
    its other fields and the token, and a provider that starts again on the
    store restores the user so changed, whatever the texts of the tier and
    of the date. *)
Theorem subscription_survives_reload (tier expiresAt : string)
    (ls : Auth.Storage) (st : Auth.AuthState) (u : Auth.User) :
  Auth.currentUser st = Some u ->
  Auth.truthy (ls !! "fintech_token") = true ->
  Auth.currentUser (Auth.updateSubscription tier expiresAt ls st).2
  = Some (Auth.mkUser (Auth.id u) (Auth.email u) (Auth.name u)
            (Auth.role u) true (Some tier) (Some expiresAt))
  /\ Auth.currentUser
       (Auth.checkAuth (Auth.updateSubscription tier expiresAt ls st).1
          Auth.initialAuthState)
     = Auth.currentUser (Auth.updateSubscription tier expiresAt ls st).2
  /\ (Auth.updateSubscription tier expiresAt ls st).1 !! "fintech_token"
     = ls !! "fintech_token".
Proof.
  intros Hu Htoken. unfold Auth.updateSubscription. rewrite Hu.
  cbn [fst snd Auth.currentUser].
  split; [reflexivity|]. split.
  - refine (proj1 (checkAuth_consistent _
                     (Auth.mkAuthState (Some _) (Auth.loading st)) _)).
    unfold AuthRun.consistent. cbn [fst snd Auth.currentUser].
    rewrite lookup_insert_ne by discriminate.
    rewrite lookup_insert_eq. split; [exact Htoken|reflexivity].
  - apply lookup_insert_ne. discriminate.
Qed.

(** The demo user takes the plan [pro]. *)
Lemma subscription_survives_reload_witness :
  Auth.currentUser
    (Auth.updateSubscription "pro" "2024-02-14T08:00:00.000Z"
       (<["fintech_token" := "eyJpZCI6InVzZXItMSJ9"]> ∅)
       (Auth.mkAuthState
          (Some (Auth.mkUser "user-1" "demo@example.com" "Demo User"
                   Auth.user false None None)) false)).2
  = Some (Auth.mkUser "user-1" "demo@example.com" "Demo User" Auth.user
            true (Some "pro") (Some "2024-02-14T08:00:00.000Z")).
Proof.
  refine (proj1 (subscription_survives_reload "pro"
                   "2024-02-14T08:00:00.000Z"
                   (<["fintech_token" := "eyJpZCI6InVzZXItMSJ9"]> ∅)
                   (Auth.mkAuthState
                      (Some (Auth.mkUser "user-1" "demo@example.com"
                               "Demo User" Auth.user false None None))
                      false)
                   (Auth.mkUser "user-1" "demo@example.com" "Demo User"
                      Auth.user false None None) _ _));
    [reflexivity|rewrite lookup_insert_eq; reflexivity].
Defined.

(** What [login] does once the account is found. *)
Lemma login_found (email_ password_ : string) (ls : Auth.Storage)
    (st : Auth.AuthState) (found : Auth.MockUser) :
  List.find (λ u, String.eqb (Auth.email (Auth.account u)) email_
                  && String.eqb (Auth.password u) password_)
    Auth.MOCK_USERS = Some found ->
  (Auth.login email_ password_ ls st).2
  = Auth.mkAuthState (Some (Auth.account found)) false
  /\ (Auth.login email_ password_ ls st).1.2 !! "fintech_user"
     = Some (Auth.stringify (Auth.json_of_user (Auth.account found)))
  /\ (Auth.login email_ password_ ls st).1.2 !! "fintech_token"
     = Some (Auth.btoa
               (Auth.stringify
                  (Auth.JObject
                     [ ("id", Auth.JString (Auth.id (Auth.account found)));
                       ("email",
                        Auth.JString (Auth.email (Auth.account found)));
                       ("role",
                        Auth.JString
                          (Auth.role_text
                             (Auth.role (Auth.account found)))) ]))).
Proof.
  intros Hfind. unfold Auth.login. rewrite Hfind. cbn [fst snd].
  split; [reflexivity|]. split; [apply lookup_insert_eq|].
  rewrite lookup_insert_ne by discriminate. apply lookup_insert_eq.
Qed.

(** X20: [login] signs in exactly with the e-mail address and the password
    of one of the two built-in accounts: then it stores a token and the
    user and sets that user; with anything else it reports [Invalid
    credentials] and leaves the store and the user as they were. *)
Theorem login_only_with_builtin_credentials (email_ password_ : string)
    (ls : Auth.Storage) (st : Auth.AuthState) :
  (((email_ = "demo@example.com" \/ email_ = "admin@example.com")
    /\ password_ = "password") ->
   exists u : Auth.User,
     Auth.email u = email_
     /\ (Auth.login email_ password_ ls st).2
        = Auth.mkAuthState (Some u) false
     /\ (Auth.login email_ password_ ls st).1.2 !! "fintech_user"
        = Some (Auth.stringify (Auth.json_of_user u))
     /\ Auth.checkToken (Auth.login email_ password_ ls st).1.2 = true)
  /\ (~ ((email_ = "demo@example.com" \/ email_ = "admin@example.com")
         /\ password_ = "password") ->
      Auth.login email_ password_ ls st
      = (Auth.mkToast "Login failed" "Invalid credentials", ls,
         Auth.mkAuthState (Auth.currentUser st) false)).
Proof.
  split.
  - intros ([->| ->] & ->).
    + destruct (login_found "demo@example.com" "password" ls st _ eq_refl)
        as (Hst & Huser & Htoken).
      eexists. split; [|split; [exact Hst|split; [exact Huser|]]];
        [reflexivity|].
      unfold Auth.checkToken. rewrite Htoken. reflexivity.
    + destruct (login_found "admin@example.com" "password" ls st _ eq_refl)
        as (Hst & Huser & Htoken).
      eexists. split; [|split; [exact Hst|split; [exact Huser|]]];
        [reflexivity|].
      unfold Auth.checkToken. rewrite Htoken. reflexivity.
  - intros Hnot. unfold Auth.login.
    destruct (List.find _ Auth.MOCK_USERS) as [found|] eqn:Hfind;
      [|reflexivity].
    exfalso. apply Hnot.
    apply find_some in Hfind. destruct Hfind as (Hin & Hmatch).
    apply andb_prop in Hmatch. destruct Hmatch as (He & Hp).
    apply String.eqb_eq in He, Hp.
    destruct Hin as [<-|[<-|[]]]; cbn in He, Hp; subst; auto.
Qed.

(** The demo account, and a password that is not its own. *)
Lemma login_only_with_builtin_credentials_witness :
  Auth.login "demo@example.com" "Password" ∅ Auth.initialAuthState
  = (Auth.mkToast "Login failed" "Invalid credentials", ∅,
     Auth.mkAuthState (Auth.currentUser Auth.initialAuthState) false).
Proof.
  apply (login_only_with_builtin_credentials "demo@example.com" "Password").
  intros (_ & H). discriminate H.
Defined.

(** X21: [register] never creates an account.  It leaves the user of the
    provider as it was; it refuses exactly the e-mail addresses of the two
    built-in accounts; and after a registration that it reports as
    successful, a login with the registered e-mail address and password is
    rejected. *)
Theorem register_creates_no_account (email_ name_ password_ : string)
    (st : Auth.AuthState) :
  (Auth.register email_ name_ password_ st).2
  = Auth.mkAuthState (Auth.currentUser st) false
  /\ ((Auth.register email_ name_ password_ st).1
      = Auth.mkToast "Registration failed" "Email already registered"
      <-> email_ = "demo@example.com" \/ email_ = "admin@example.com")
  /\ ((Auth.register email_ name_ password_ st).1
      = Auth.mkToast "Registration successful"
          "You can now log in with your credentials." ->
      forall (ls : Auth.Storage) (st' : Auth.AuthState),
        Auth.login email_ password_ ls st'
        = (Auth.mkToast "Login failed" "Invalid credentials", ls,
           Auth.mkAuthState (Auth.currentUser st') false)).
Proof.
  unfold Auth.register.
  destruct (existsb _ Auth.MOCK_USERS) eqn:Hexists; cbn [fst snd].
  - split; [reflexivity|]. split; [|discriminate].
    split; [intros _|reflexivity].
    apply existsb_exists in Hexists. destruct Hexists as (found & Hin & He).
    apply String.eqb_eq in He.
    destruct Hin as [<-|[<-|[]]]; cbn in He; subst; auto.
  - split; [reflexivity|].
    assert (forall found, In found Auth.MOCK_USERS ->
                          Auth.email (Auth.account found) <> email_)
      as Hfresh.
    { intros found Hin He.
      assert (existsb (λ u, String.eqb (Auth.email (Auth.account u)) email_)
                Auth.MOCK_USERS = true) as Hyes.
      { apply existsb_exists. exists found. split; [exact Hin|].
        apply String.eqb_eq. exact He. }
      congruence. }
    split.
    + split; [discriminate|].
      intros [->| ->]; exfalso.
      * apply (Hfresh (Auth.mkMockUser "password"
                         (Auth.mkUser "user-1" "demo@example.com"
                            "Demo User" Auth.user false None None)));
          [left; reflexivity|reflexivity].
      * apply (Hfresh (Auth.mkMockUser "password"
                         (Auth.mkUser "admin-1" "admin@example.com"
                            "Admin User" Auth.admin true
                            (Some "enterprise")
                            (Some "2025-12-31T23:59:59Z"))));
          [right; left; reflexivity|reflexivity].
    + intros _ ls st'. unfold Auth.login.
      destruct (List.find _ Auth.MOCK_USERS) as [found|] eqn:Hfind;
        [|reflexivity].
      exfalso. apply find_some in Hfind. destruct Hfind as (Hin & Hmatch).
      apply andb_prop in Hmatch. destruct Hmatch as (He & _).
      apply String.eqb_eq in He. exact (Hfresh found Hin He).
Qed.

(** A new address: the registration is reported as successful, the login
    that follows is rejected. *)
Lemma register_creates_no_account_witness :
  Auth.login "new@example.com" "secret" ∅ Auth.initialAuthState
  = (Auth.mkToast "Login failed" "Invalid credentials", ∅,
     Auth.mkAuthState (Auth.currentUser Auth.initialAuthState) false).
Proof.
  apply (proj2 (proj2 (register_creates_no_account "new@example.com"
                         "New User" "secret" Auth.initialAuthState))).
  reflexivity.
Defined.

(** X22: [logout] removes the token and the stored user and nothing else
    from the store, whatever it held, and sets no user; afterwards
    [checkToken()] is false and a provider that starts again on the store
    finds nobody. *)
Theorem logout_clears_session (ls : Auth.Storage) (st : Auth.AuthState) :
  Auth.currentUser (Auth.logout ls st).2 = None
  /\ Auth.checkToken (Auth.logout ls st).1 = false
  /\ (Auth.logout ls st).1 !! "fintech_user" = None
  /\ Auth.currentUser
       (Auth.checkAuth (Auth.logout ls st).1 Auth.initialAuthState)
     = None
  /\ (forall key : string,
         key <> "fintech_token" -> key <> "fintech_user" ->
         (Auth.logout ls st).1 !! key = ls !! key).
Proof.
  unfold Auth.logout, Auth.checkToken, Auth.checkAuth. cbn [fst snd].
  rewrite lookup_delete_ne by discriminate.
  rewrite lookup_delete_eq. cbn [Auth.truthy].
  split; [reflexivity|]. split; [reflexivity|].
  split; [apply lookup_delete_eq|]. split; [reflexivity|].
  intros key Ht Hu. rewrite !lookup_delete_ne by congruence. reflexivity.
Qed.

(** ** Transfers that overlap *)

(** A call with nothing in between its two parts is the call in one
    step. *)
Lemma transferFunds_start_finish (now txDate txNow : Z)
    (fromId toId : string) (amount : number) (st : Store) :
  transferFunds now txDate txNow fromId toId amount st
  = match TransferSteps.start now fromId toId amount st with
    | (Return p, st1) =>
        (Return (TransferSteps.finish txDate txNow p st1).1,
         (TransferSteps.finish txDate txNow p st1).2)
    | (Throw e, st1) => (Throw e, st1)
    end.
Proof.
  unfold transferFunds, TransferSteps.start.
  destruct (enter now st) as [[] st1]; cbn [negb]; [|reflexivity].
  destruct (findAccount fromId (mockAccounts st1)) as [i|]; [|reflexivity].
  destruct (findAccount toId (mockAccounts st1)) as [j|]; [|reflexivity].
  destruct (ltb (balanceAt i (mockAccounts st1)) amount); reflexivity.
Qed.

Lemma set_balance_twice (b b' : number) (acc : Account.t) :
  Account.set_balance b (Account.set_balance b' acc)
  = Account.set_balance b acc.
Proof. reflexivity. Qed.

(** The checks of a call for whole cents that the limiter admits. *)
Lemma start_in_cents (now : Z) (fromId toId : string) (st : Store)
    (i j : nat) (x y : Account.t) (n k : Z) :
  (checkRateLimit now (api st)).1 = true ->
  list_find (λ acc, Account.id acc = fromId) (mockAccounts st)
  = Some (i, x) ->
  list_find (λ acc, Account.id acc = toId) (mockAccounts st) = Some (j, y) ->
  Account.balance x = of_cents n ->
  Z.abs n <= 2 ^ 48 -> Z.abs k <= 2 ^ 48 -> k <= n ->
  TransferSteps.start now fromId toId (of_cents k) st
  = (Return (TransferSteps.mkPending i j (of_cents k)),
     mkStore (checkRateLimit now (api st)).2 (mockAccounts st)
       (mockTransactions st)).
Proof.
  intros Hadm Hfx Hfy Hbx Hn Hk Hkn.
  destruct (findAccount_Some _ _ _ _ Hfx) as (Hi & Hbi).
  destruct (findAccount_Some _ _ _ _ Hfy) as (Hj & _).
  unfold TransferSteps.start, enter.
  destruct (checkRateLimit now (api st)) as [ok s1]. cbn [fst] in Hadm.
  subst ok. cbn [negb mockAccounts mockTransactions api fst snd].
  rewrite Hi, Hj, Hbi, Hbx, (of_cents_covers n k Hn Hk).
  destruct (Z.leb_spec k n); [reflexivity|lia].
Qed.


